(** * Online Retail ETL pipeline: cleaning, incremental selection and load

    A shallow embedding of [01_scripts/cleaner.py], [01_scripts/database.py],
    [01_scripts/main.py] and [01_scripts/downloader.py], the properties of
    the pipeline that the specification states about them, and further
    properties that the code has.

    Modelling conventions.
    - A pandas [DataFrame] is a list of column labels and a list of rows;
      every row carries its index label and one cell per column.  Cells
      are a tagged union of the scalars the pipeline meets: a missing
      value (None / NaN / NaT), a string, an integer, a float and a
      timestamp.  Where pandas decides by the dtype of a column (a
      comparison that is not defined, the [.dt] accessor), the model
      decides by the cells of the column.  Column labels are strings:
      a [DataFrame] has a column index on which [df.columns.str] works.
      A frame with a column index of another type is a [batch] of its
      own kind ([NoStrLabels]); a column index that mixes strings with
      other labels is outside the model.
    - Floats are exact rationals ([Q]) and integers are unbounded: every
      comparison of the source is exact on them; the rounding error of
      float multiplication and of a float sum, and the wrap-around of
      an int64 product, are not modelled.
    - Timestamps are whole seconds since the epoch.  A pandas timestamp
      can carry a fraction of a second, which [load_data] drops from
      the dates it stores ([strftime('%Y-%m-%d %H:%M:%S')]); the
      properties that compare a stored date with the date of its row
      say what they need of that fraction.
    - Strings are byte strings; column labels and descriptions are taken
      to be ASCII, so that [str.lower] and the [a-z0-9] / [A-Z] character
      classes act byte-wise.
    - A Python exception is a value of [exn]; code that can raise runs in
      the [result] monad.
    - Two library functions are not re-implemented and are parameters of
      the model: Python's [str()] on a scalar that is not a string, and
      the date parser behind [pd.to_datetime] on a single string or
      number.  The model parses a column cell by cell; pandas infers
      one format for a column of strings, so the two agree for certain
      only on a column of timestamps and missing values.  Likewise the
      category of a product is read cell by cell, where pandas needs a
      description column of strings for [.str].
    - The database is the content of the three tables of [create_tables]
      behind a connection with one open transaction.  Keys are compared
      as strings, decimals are exact, and a statement does not fail: the
      server's own errors (lengths, constraints) are not modelled.
    - [pd.read_excel] and the file written by [save_metrics] are outside
      the model: [run_pipeline] starts from the table that was read and
      returns the report with its outcome.  The download is modelled on
      its own: the network is a parameter that answers every request,
      and the file system is the one file the downloader writes. *)

From Stdlib Require Import ZArith QArith Qround String Ascii List.
From stdpp Require Import base decidable option list gmap strings pretty.

Local Open Scope string_scope.
Local Open Scope list_scope.

(** ** Scalars, frames, exceptions *)

Inductive value : Type :=
| VNull
| VStr (s : string)
| VInt (n : Z)
| VFloat (x : Q)
| VDate (t : Z).

Definition isna (v : value) : bool :=
  match v with VNull => true | _ => false end.

Definition notna (v : value) : bool := negb (isna v).

(** A row: its index label and its cells, one per column. *)
Definition row : Type := (nat * list value)%type.

Record DataFrame : Type := mkDataFrame {
  columns : list string;
  rows : list row
}.

(** [len(df)] *)
Definition len (df : DataFrame) : nat := length (rows df).

(** [df.empty]: one of the two axes has length zero. *)
Definition empty (df : DataFrame) : bool :=
  match rows df, columns df with
  | [], _ => true
  | _, [] => true
  | _, _ => false
  end.

(** The exceptions the pipeline can raise.  [KeyError] carries the labels
    that were looked up and are not there; [MissingColumns] is the
    [ValueError("Missing required columns: ...")] of [load_data]. *)
Inductive exn : Type :=
| KeyError (missing : gset string)
| MissingColumns (missing : gset string)
| ValueError
| TypeError
| AttributeError.

Inductive result (A : Type) : Type :=
| Ok (a : A)
| Raise (e : exn).
Arguments Ok {A} a.
Arguments Raise {A} e.

Definition bind {A B : Type} (m : result A) (k : A -> result B) : result B :=
  match m with
  | Ok a => k a
  | Raise e => Raise e
  end.

Notation "'let!' x ':=' m 'in' k" := (bind m (fun x => k))
  (at level 10, x pattern, m at level 100, k at level 200).

Fixpoint mapM {A B : Type} (f : A -> result B) (l : list A) : result (list B) :=
  match l with
  | [] => Ok []
  | a :: l' => let! b := f a in let! bs := mapM f l' in Ok (b :: bs)
  end.

(** ** Column access *)

(** What [df[c]] finds: nothing (KeyError), one column (a Series) or
    several columns with the same label (a DataFrame). *)
Inductive selection : Type :=
| NoColumn
| OneColumn (i : nat)
| ManyColumns (ps : list nat).

Fixpoint positions_from (c : string) (cols : list string) (i : nat) : list nat :=
  match cols with
  | [] => []
  | k :: cols' =>
      if bool_decide (k = c) then i :: positions_from c cols' (S i)
      else positions_from c cols' (S i)
  end.

Definition select (c : string) (cols : list string) : selection :=
  match positions_from c cols 0 with
  | [] => NoColumn
  | [i] => OneColumn i
  | ps => ManyColumns ps
  end.

(** The cell of row [r] in column position [i]; a row that is shorter
    than the header reads as missing there. *)
Definition at_pos (i : nat) (r : row) : value := nth i (snd r) VNull.

(** The cell of column [c], when the label names exactly one column. *)
Definition cell (cols : list string) (c : string) (r : row) : option value :=
  match select c cols with
  | OneColumn i => Some (at_pos i r)
  | _ => None
  end.

(** [df[mask]]: the rows whose flag is set. *)
Fixpoint select_rows {A : Type} (mask : list bool) (l : list A) : list A :=
  match mask, l with
  | b :: mask', a :: l' =>
      if b then a :: select_rows mask' l' else select_rows mask' l'
  | _, _ => []
  end.

(** [mask.sum()] *)
Definition count_true (mask : list bool) : nat := length (filter (fun b => b = true) mask).

(** Writing cell [i] of a row (padding a short row with missing cells). *)
Fixpoint set_cell (i : nat) (v : value) (cells : list value) : list value :=
  match i, cells with
  | O, [] => [v]
  | O, _ :: t => v :: t
  | S i', [] => VNull :: set_cell i' v []
  | S i', x :: t => x :: set_cell i' v t
  end.

Definition set_pos (i : nat) (v : value) (r : row) : row :=
  (fst r, set_cell i v (snd r)).

(** [df[c] = df[c].map(f)] on the column at position [i]. *)
Definition update_at (i : nat) (f : value -> value) (r : row) : row :=
  set_pos i (f (at_pos i r)) r.

(** ** Column-name canonicalisation (cleaner.py, step 1) *)

Definition is_upper (c : ascii) : bool :=
  (65 <=? nat_of_ascii c)%nat && (nat_of_ascii c <=? 90)%nat.

Definition is_lower (c : ascii) : bool :=
  (97 <=? nat_of_ascii c)%nat && (nat_of_ascii c <=? 122)%nat.

Definition is_digit (c : ascii) : bool :=
  (48 <=? nat_of_ascii c)%nat && (nat_of_ascii c <=? 57)%nat.

Definition lower_char (c : ascii) : ascii :=
  if is_upper c then ascii_of_nat (nat_of_ascii c + 32) else c.

(** [s.lower()] *)
Fixpoint lower (s : string) : string :=
  match s with
  | EmptyString => EmptyString
  | String c s' => String (lower_char c) (lower s')
  end.

(** [re.sub(r'[^a-z0-9]+', '_', s)]: [in_run] says that the previous
    character already belonged to the run being replaced. *)
Fixpoint replace_runs (in_run : bool) (s : string) : string :=
  match s with
  | EmptyString => EmptyString
  | String c s' =>
      if is_lower c || is_digit c then String c (replace_runs false s')
      else if in_run then replace_runs true s'
      else String "_" (replace_runs true s')
  end.

Fixpoint lstrip_underscore (s : string) : string :=
  match s with
  | String "_" s' => lstrip_underscore s'
  | _ => s
  end.

Fixpoint rstrip_underscore (s : string) : string :=
  match s with
  | EmptyString => EmptyString
  | String c s' =>
      match rstrip_underscore s' with
      | EmptyString => if bool_decide (c = "_"%char) then EmptyString else String c EmptyString
      | t => String c t
      end
  end.

(** [s.strip('_')] *)
Definition strip_underscore (s : string) : string :=
  rstrip_underscore (lstrip_underscore s).

(** [df.columns.str.lower().str.replace(r'[^a-z0-9]+', '_', regex=True).str.strip('_')] *)
Definition normalize_label (s : string) : string :=
  strip_underscore (replace_runs false (lower s)).

Definition column_mapping : gmap string string :=
  list_to_map
    [ ("customerid", "customer_id");
      ("customer_id", "customer_id");
      ("customer", "customer_id");
      ("customer id", "customer_id");
      ("invoiceno", "invoice");
      ("invoice_no", "invoice");
      ("invoice no", "invoice");
      ("invoice", "invoice");
      ("stockcode", "stock_code");
      ("stock_code", "stock_code");
      ("stock code", "stock_code");
      ("invoicedate", "invoice_date");
      ("invoice_date", "invoice_date");
      ("invoice date", "invoice_date");
      ("unitprice", "price");
      ("unit_price", "price");
      ("unit price", "price");
      ("price", "price");
      ("quantity", "quantity");
      ("description", "description");
      ("country", "country") ].

(** The dictionary [renamed_cols] built by the loop over [df.columns]. *)
Fixpoint renamed_cols (cols : list string) (acc : gmap string string) : gmap string string :=
  match cols with
  | [] => acc
  | col :: cols' =>
      match column_mapping !! col with
      | Some new_col =>
          if bool_decide (col = new_col) then renamed_cols cols' acc
          else renamed_cols cols' (<[ col := new_col ]> acc)
      | None => renamed_cols cols' acc
      end
  end.

(** [df.rename(columns=m)] on the labels. *)
Definition rename (m : gmap string string) (cols : list string) : list string :=
  map (fun c => default c (m !! c)) cols.

Definition required_columns : gset string :=
  list_to_set ["customer_id"; "invoice"; "stock_code"; "invoice_date"; "quantity"; "price"].

(** ** The quality report (cleaner.py, [metrics]) *)

(** The entries of [metrics['transformations']]: the source appends
    formatted messages, the model keeps what each message is made of. *)
Inductive transformation : Type :=
| RenamedColumns (m : gmap string string)
| FilledMissing (n : nat) (col : string)
| ConvertedInvoiceDate
| ConvertedCustomerId
| RemovedTestTransactions
| RemovedInvalid (col : string)
| CalculatedTotalAmount.

Record Metrics : Type := mkMetrics {
  original_rows : nat;
  rejected_rows : nat;
  cleaned_rows : nat;
  rejection_rate : Q;
  transformations : list transformation;
  missing_values : gmap string nat;
  invalid_values : gmap string nat
}.

Definition initial_metrics (n : nat) : Metrics :=
  {| original_rows := n; rejected_rows := 0; cleaned_rows := 0;
     rejection_rate := 0; transformations := [];
     missing_values := ∅; invalid_values := ∅ |}.

Definition log_transformation (t : transformation) (m : Metrics) : Metrics :=
  {| original_rows := original_rows m; rejected_rows := rejected_rows m;
     cleaned_rows := cleaned_rows m; rejection_rate := rejection_rate m;
     transformations := transformations m ++ [t];
     missing_values := missing_values m; invalid_values := invalid_values m |}.

Definition set_missing_values (col : string) (n : nat) (m : Metrics) : Metrics :=
  {| original_rows := original_rows m; rejected_rows := rejected_rows m;
     cleaned_rows := cleaned_rows m; rejection_rate := rejection_rate m;
     transformations := transformations m;
     missing_values := <[ col := n ]> (missing_values m);
     invalid_values := invalid_values m |}.

Definition set_invalid_values (key : string) (n : nat) (m : Metrics) : Metrics :=
  {| original_rows := original_rows m; rejected_rows := rejected_rows m;
     cleaned_rows := cleaned_rows m; rejection_rate := rejection_rate m;
     transformations := transformations m;
     missing_values := missing_values m;
     invalid_values := <[ key := n ]> (invalid_values m) |}.

Definition set_rejection_rate (q : Q) (m : Metrics) : Metrics :=
  {| original_rows := original_rows m; rejected_rows := rejected_rows m;
     cleaned_rows := cleaned_rows m; rejection_rate := q;
     transformations := transformations m;
     missing_values := missing_values m; invalid_values := invalid_values m |}.

Definition set_cleaned_rows (n : nat) (m : Metrics) : Metrics :=
  {| original_rows := original_rows m; rejected_rows := rejected_rows m;
     cleaned_rows := n; rejection_rate := rejection_rate m;
     transformations := transformations m;
     missing_values := missing_values m; invalid_values := invalid_values m |}.

(** Python's [round(x, ndigits)]: to the nearest multiple of
    [10^-ndigits], a tie going to the even one.  (The model rounds the
    exact quotient; Python rounds the float next to it, which can lie
    on the other side of a tie.) *)
Definition round_half_even (x : Q) : Z :=
  let f := Qfloor x in
  match Qcompare (x - inject_Z f) (1 # 2) with
  | Lt => f
  | Gt => (f + 1)%Z
  | Eq => if Z.even f then f else (f + 1)%Z
  end.

Definition py_round (x : Q) (ndigits : nat) : Q :=
  let scale := (10 ^ Z.of_nat ndigits)%Z in
  Qred (Qmake (round_half_even (x * inject_Z scale)) (Z.to_pos scale)).

(** [a / b] on integers: a float, or ZeroDivisionError. *)
Definition true_div (a b : nat) : option Q :=
  match b with
  | O => None
  | S _ => Some (Qmake (Z.of_nat a) (Pos.of_nat b))
  end.

(** ** Cell-level operations of pandas *)

(** [x <= 0] on one cell: a missing value compares false, a string or a
    timestamp does not compare with an integer. *)
Definition le_zero (v : value) : result bool :=
  match v with
  | VNull => Ok false
  | VInt n => Ok (n <=? 0)%Z
  | VFloat x => Ok (Qle_bool x 0)
  | VStr _ => Raise TypeError
  | VDate _ => Raise TypeError
  end.

(** [quantity * price] on one row, in exact arithmetic: neither the
    wrap-around of an int64 product nor the rounding of a float product
    is modelled. *)
Definition mul_cells (a b : value) : result value :=
  match a, b with
  | VInt m, VInt n => Ok (VInt (m * n))
  | VInt m, VFloat y => Ok (VFloat (inject_Z m * y))
  | VFloat x, VInt n => Ok (VFloat (x * inject_Z n))
  | VFloat x, VFloat y => Ok (VFloat (x * y))
  | VNull, (VNull | VInt _ | VFloat _) => Ok VNull
  | (VInt _ | VFloat _), VNull => Ok VNull
  | _, _ => Raise TypeError
  end.

(** [s.startswith(('C', 'A'))] *)
Definition startswith_C_or_A (s : string) : bool :=
  match s with
  | String c _ => bool_decide (c = "C"%char) || bool_decide (c = "A"%char)
  | EmptyString => false
  end.

(** [series.fillna(v)] on one cell. *)
Definition fillna (fill : value) (v : value) : value :=
  if isna v then fill else v.

Section Pipeline.

(** Python's [str(x)] for a scalar that is not a string. *)
Variable py_str : value -> string.

(** [pd.to_datetime] on one string or number: [None] when it cannot be
    parsed, [Some None] for NaT, [Some (Some t)] for a timestamp. *)
Variable parse_datetime : value -> option (option Z).

(** [series.astype(str)] on one cell. *)
Definition astype_str (v : value) : value :=
  match v with
  | VStr s => VStr s
  | _ => VStr (py_str v)
  end.

(** [series.astype(str).str.startswith(('C', 'A'), na=False)] on one cell. *)
Definition is_test_transaction (v : value) : bool :=
  match v with
  | VNull => false
  | VStr s => startswith_C_or_A s
  | _ => startswith_C_or_A (py_str v)
  end.

(** [pd.to_datetime] on one cell.  (On a column of strings pandas infers
    one format from the column and raises on a string in another
    format; the model parses every cell on its own.  The two agree on a
    column of timestamps and missing values.) *)
Definition to_datetime (v : value) : result value :=
  match v with
  | VNull => Ok VNull
  | VDate t => Ok (VDate t)
  | _ =>
      match parse_datetime v with
      | Some (Some t) => Ok (VDate t)
      | Some None => Ok VNull
      | None => Raise ValueError
      end
  end.

(** ** [clean_data] (cleaner.py) *)

(** The state the body of [clean_data] works on: the frame [df] and the
    report [metrics]. *)
Definition cleaning : Type := (DataFrame * Metrics)%type.

(** Step 1: standardise the column names, for labels that are strings
    (for another column index see [clean_data_any]). *)
Definition standardize_columns (st : cleaning) : cleaning :=
  let '(df, metrics) := st in
  let cols := map normalize_label (columns df) in
  let renamed := renamed_cols cols ∅ in
  if bool_decide (renamed = ∅) then
    ({| columns := cols; rows := rows df |}, metrics)
  else
    ({| columns := rename renamed cols; rows := rows df |},
     log_transformation (RenamedColumns renamed) metrics).

(** The required columns exist after renaming, or KeyError. *)
Definition missing_columns (df : DataFrame) : gset string :=
  required_columns ∖ list_to_set (columns df).

Definition verify_required (st : cleaning) : result cleaning :=
  if bool_decide (missing_columns (fst st) = ∅) then Ok st
  else Raise (KeyError (missing_columns (fst st))).

(** Step 2, one turn of the loop over ['customer_id', 'description']. *)
Definition handle_missing (col : string) (st : cleaning) : result cleaning :=
  let '(df, metrics) := st in
  match select col (columns df) with
  | NoColumn => Ok st
  | ManyColumns _ => Raise ValueError
  | OneColumn i =>
      let missing := count_true (map (fun r => isna (at_pos i r)) (rows df)) in
      if (0 <? missing)%nat then
        let fill :=
          if bool_decide (col = "customer_id")
          then (fun v => astype_str (fillna (VStr "GUEST") v))
          else fillna (VStr "UNKNOWN") in
        Ok ({| columns := columns df; rows := map (update_at i fill) (rows df) |},
            log_transformation (FilledMissing missing col)
              (set_missing_values col missing metrics))
      else Ok st
  end.

(** Step 3: [invoice_date] to timestamps, [customer_id] to strings. *)
Definition convert_invoice_date (st : cleaning) : result cleaning :=
  let '(df, metrics) := st in
  match select "invoice_date" (columns df) with
  | NoColumn => Ok st
  | ManyColumns _ => Raise ValueError
  | OneColumn i =>
      let! rows' := mapM (fun r => let! v := to_datetime (at_pos i r) in
                                   Ok (set_pos i v r)) (rows df) in
      Ok ({| columns := columns df; rows := rows' |},
          log_transformation ConvertedInvoiceDate metrics)
  end.

Definition convert_customer_id (st : cleaning) : result cleaning :=
  let '(df, metrics) := st in
  match select "customer_id" (columns df) with
  | NoColumn => Ok st
  | ManyColumns _ => Raise ValueError
  | OneColumn i =>
      Ok ({| columns := columns df; rows := map (update_at i astype_str) (rows df) |},
          log_transformation ConvertedCustomerId metrics)
  end.

(** Step 4: remove the test transactions. *)
Definition remove_test_transactions (st : cleaning) : result cleaning :=
  let '(df, metrics) := st in
  match select "invoice" (columns df) with
  | NoColumn => Ok st
  | ManyColumns _ => Raise AttributeError
  | OneColumn i =>
      let test_trans := map (fun r => is_test_transaction (at_pos i r)) (rows df) in
      if existsb id test_trans then
        Ok ({| columns := columns df;
               rows := select_rows (map negb test_trans) (rows df) |},
            log_transformation RemovedTestTransactions
              (set_invalid_values "test_transactions" (count_true test_trans) metrics))
      else Ok st
  end.

(** Step 5, one turn of the loop over [quantity] and [price]; both turns
    use the check [x <= 0]. *)
Definition remove_invalid (col : string) (st : cleaning) : result cleaning :=
  let '(df, metrics) := st in
  match select col (columns df) with
  | NoColumn => Ok st
  | ManyColumns ps =>
      let! _ := mapM (fun r => mapM (fun i => le_zero (at_pos i r)) ps) (rows df) in
      Raise ValueError
  | OneColumn i =>
      let! check := mapM (fun r => le_zero (at_pos i r)) (rows df) in
      let invalid := count_true check in
      if (0 <? invalid)%nat then
        Ok ({| columns := columns df;
               rows := select_rows (map negb check) (rows df) |},
            log_transformation (RemovedInvalid col)
              (set_invalid_values col invalid metrics))
      else Ok st
  end.

(** [df[c] = values]: every column labelled [c] is overwritten, or a new
    last column is added. *)
Definition assign_column (c : string) (cols : list string) (v : value) (r : row) : row :=
  match positions_from c cols 0 with
  | [] => set_pos (length cols) v r
  | ps => foldr (fun i r' => set_pos i v r') r ps
  end.

Definition columns_with (c : string) (cols : list string) : list string :=
  if bool_decide (c ∈ cols) then cols else cols ++ [c].

(** Step 6: the derived column [total_amount]. *)
Definition add_total_amount (st : cleaning) : result cleaning :=
  let '(df, metrics) := st in
  match select "quantity" (columns df), select "price" (columns df) with
  | NoColumn, _ | _, NoColumn => Ok st
  | OneColumn iq, OneColumn ip =>
      let! rows' := mapM (fun r => let! v := mul_cells (at_pos iq r) (at_pos ip r) in
                                   Ok (assign_column "total_amount" (columns df) v r))
                         (rows df) in
      Ok ({| columns := columns_with "total_amount" (columns df); rows := rows' |},
          log_transformation CalculatedTotalAmount metrics)
  | _, _ => Raise ValueError
  end.

(** The end of the body that runs: the rate from [rejected_rows], then
    [cleaned_rows], then [return df, metrics].  The statements after the
    [return] are never executed and have no counterpart here. *)
Definition finalize (st : cleaning) : cleaning :=
  let '(df, metrics) := st in
  let rate :=
    match true_div (rejected_rows metrics) (original_rows metrics) with
    | Some x => py_round x 4
    | None => 0%Q
    end in
  (df, set_cleaned_rows (len df) (set_rejection_rate rate metrics)).

Definition clean_data (df : DataFrame) : result (DataFrame * Metrics) :=
  let metrics := initial_metrics (len df) in
  if (len df =? 0)%nat then Ok (df, set_cleaned_rows 0 metrics)
  else
    let st := standardize_columns (df, metrics) in
    let! st := verify_required st in
    let! st := handle_missing "customer_id" st in
    let! st := handle_missing "description" st in
    let! st := convert_invoice_date st in
    let! st := convert_customer_id st in
    let! st := remove_test_transactions st in
    let! st := remove_invalid "quantity" st in
    let! st := remove_invalid "price" st in
    let! st := add_total_amount st in
    Ok (finalize st).

(** [clean_data] on any frame.  Line 68 reads the labels through
    [df.columns.str], which pandas provides for a column index of
    strings (an empty index of dtype object included) and refuses, with
    AttributeError, for a column index of another type.  A [DataFrame]
    of the model has labels that are strings.  A frame whose column
    index has no [.str] (integers, as in [pd.DataFrame(index=[0, 1])],
    whose columns are an empty [RangeIndex]) is [NoStrLabels], with its
    row labels: the length check of line 37 is all that looks at such a
    frame before the accessor raises. *)
Inductive batch : Type :=
| StrLabels (df : DataFrame)
| NoStrLabels (index : list nat).

Definition batch_len (b : batch) : nat :=
  match b with
  | StrLabels df => len df
  | NoStrLabels index => length index
  end.

Definition clean_data_any (b : batch) : result (batch * Metrics) :=
  match b with
  | StrLabels df =>
      let! st := clean_data df in
      Ok (StrLabels (fst st), snd st)
  | NoStrLabels index =>
      let metrics := initial_metrics (length index) in
      if (length index =? 0)%nat then Ok (b, set_cleaned_rows 0 metrics)
      else Raise AttributeError
  end.

(** ** The store (database.py, [create_tables]) *)

Definition SCHEMA_VERSION : string := "1.0".

Record Customer : Type := mkCustomer {
  c_country : option string;
  first_purchase_date : option Z;
  last_purchase_date : option Z;
  total_spent : Q;
  total_transactions : nat;
  c_schema_version : string
}.

Record Product : Type := mkProduct {
  p_description : option string;
  category : string;
  p_schema_version : string
}.

Record Transaction : Type := mkTransaction {
  t_invoice : option string;
  t_invoice_date : option Z;
  t_customer_id : option string;
  t_stock_code : option string;
  t_quantity : value;
  t_price : value;
  t_total_amount : value;
  t_country : option string;
  t_schema_version : string
}.

(** The three tables: customers and products by primary key, the
    transactions in the order of their auto-incremented [id]. *)
Record Store : Type := mkStore {
  customers : gmap string Customer;
  products : gmap string Product;
  transactions : list Transaction
}.

Inductive statement : Type :=
| CreateTables
| SelectMaxInvoiceDate
| UpsertCustomers (n : nat)
| UpsertProducts (n : nat)
| InsertTransactions (n : nat)
| Commit.

(** A connection: the data its session sees (with its own uncommitted
    writes), the committed data, and the statements it ran so far. *)
Record Connection : Type := mkConnection {
  session : Store;
  committed : Store;
  executed : list statement
}.

Definition execute (q : statement) (s : Store) (conn : Connection) : Connection :=
  {| session := s; committed := committed conn; executed := executed conn ++ [q] |}.

(** [conn.commit()] *)
Definition commit (conn : Connection) : Connection :=
  {| session := session conn; committed := session conn;
     executed := executed conn ++ [Commit] |}.

(** [get_connection()] on a database holding [db]. *)
Definition get_connection (db : Store) : Connection :=
  {| session := db; committed := db; executed := [] |}.

(** [conn.close()]: what stays is what was committed. *)
Definition close (conn : Connection) : Store := committed conn.

(** [CREATE TABLE IF NOT EXISTS] three times, then a commit. *)
Definition create_tables (conn : Connection) : Connection :=
  commit (execute CreateTables (session conn) conn).

Definition max_option (a : option Z) (b : option Z) : option Z :=
  match a, b with
  | Some x, Some y => Some (Z.max x y)
  | Some x, None => Some x
  | None, b => b
  end.

Definition min_option (a : option Z) (b : option Z) : option Z :=
  match a, b with
  | Some x, Some y => Some (Z.min x y)
  | Some x, None => Some x
  | None, b => b
  end.

(** [SELECT MAX(invoice_date) FROM transactions]: the latest date, or
    nothing when no transaction has a date. *)
Definition max_invoice_date (s : Store) : option Z :=
  foldr max_option None (map t_invoice_date (transactions s)).

(** [get_max_invoice_date]: the value fetched, [None] for a null.  (A
    query that fails also gives [None]; queries of the model do not fail.) *)
Definition get_max_invoice_date (conn : Connection) : option Z * Connection :=
  (max_invoice_date (session conn), execute SelectMaxInvoiceDate (session conn) conn).

(** ** Aggregation (database.py, [load_data]) *)

(** Equality of two cells as [groupby] and [nunique] see it. *)
Definition same_value (a b : value) : bool :=
  match a, b with
  | VStr s, VStr t => bool_decide (s = t)
  | VInt m, VInt n => (m =? n)%Z
  | VInt m, VFloat y => Qeq_bool (inject_Z m) y
  | VFloat x, VInt n => Qeq_bool x (inject_Z n)
  | VFloat x, VFloat y => Qeq_bool x y
  | VDate s, VDate t => (s =? t)%Z
  | _, _ => false
  end.

(** The distinct values that are not missing, by first appearance.
    (pandas returns the groups sorted by key; the order of the groups
    does not show in the store for keys that differ.) *)
Fixpoint distinct (seen : list value) (vals : list value) : list value :=
  match vals with
  | [] => []
  | v :: vals' =>
      if isna v || existsb (same_value v) seen then distinct seen vals'
      else v :: distinct (v :: seen) vals'
  end.

(** The aggregation ['first']: the first value that is not missing. *)
Definition first_notna (vals : list value) : value :=
  match filter (fun v => notna v = true) vals with
  | v :: _ => v
  | [] => VNull
  end.

(** A cell as a number, for ['sum']. *)
Definition as_number (v : value) : result (option Q) :=
  match v with
  | VNull => Ok None
  | VInt n => Ok (Some (inject_Z n))
  | VFloat x => Ok (Some x)
  | _ => Raise TypeError
  end.

(** A cell of a column that has the [.dt] accessor. *)
Definition as_timestamp (v : value) : result (option Z) :=
  match v with
  | VNull => Ok None
  | VDate t => Ok (Some t)
  | _ => Raise AttributeError
  end.

Definition timestamp_of (v : value) : option Z :=
  match v with VDate t => Some t | _ => None end.

(** A cell as the text the statement receives. *)
Definition sql_text (v : value) : option string :=
  match v with
  | VNull => None
  | VStr s => Some s
  | _ => Some (py_str v)
  end.

(** The key of a group, as text; the key of a group is never missing. *)
Definition sql_key (v : value) : string := default EmptyString (sql_text v).

(** [re.search(r'([A-Z]+)', s)]: the first maximal run of capitals. *)
Fixpoint upper_prefix (s : string) : string :=
  match s with
  | String c s' => if is_upper c then String c (upper_prefix s') else EmptyString
  | EmptyString => EmptyString
  end.

Fixpoint first_upper_run (s : string) : option string :=
  match s with
  | EmptyString => None
  | String c s' =>
      if is_upper c then Some (String c (upper_prefix s')) else first_upper_run s'
  end.

(** [description.str.extract(r'([A-Z]+)')[0].fillna('OTHER')] on one cell.
    (The [.str] accessor exists for a column that holds strings; for a
    column of numbers only, pandas raises AttributeError where the model
    answers ["OTHER"] cell by cell.) *)
Definition extract_category (description : value) : string :=
  match description with
  | VStr s => default "OTHER" (first_upper_run s)
  | _ => "OTHER"
  end.

(** The position of a column that [load_data] reads. *)
Definition position (c : string) (df : DataFrame) : result nat :=
  match select c (columns df) with
  | OneColumn i => Ok i
  | NoColumn => Raise (KeyError {[ c ]})
  | ManyColumns _ => Raise ValueError
  end.

Definition load_required_columns : gset string :=
  list_to_set ["customer_id"; "invoice"; "stock_code"; "invoice_date";
               "quantity"; "price"; "country"; "description"].

(** The incremental filter:
    [df[pd.to_datetime(df['invoice_date']) > max_date]]. *)
Definition after (max_date : Z) (v : value) : bool :=
  match v with
  | VDate t => (max_date <? t)%Z
  | _ => false
  end.

Definition newer_than (max_date : Z) (df : DataFrame) : result DataFrame :=
  let! i := position "invoice_date" df in
  let! mask := mapM (fun r => let! v := to_datetime (at_pos i r) in
                              Ok (after max_date v)) (rows df) in
  Ok {| columns := columns df; rows := select_rows mask (rows df) |}.

(** The group of a key. *)
Definition group (i : nat) (key : value) (rs : list row) : list row :=
  filter (fun r => same_value key (at_pos i r) = true) rs.

Definition sum_numbers (l : list (option Q)) : Q :=
  foldl (fun acc x => match x with Some q => (acc + q)%Q | None => acc end) 0%Q l.

(** The customer rows: [df.groupby('customer_id').agg(...)], with the two
    dates as timestamps. *)
Definition customer_rows (df : DataFrame) : result (list (string * Customer)) :=
  let! i_customer := position "customer_id" df in
  let! i_country := position "country" df in
  let! i_date := position "invoice_date" df in
  let! i_total := position "total_amount" df in
  let! i_invoice := position "invoice" df in
  let! customers :=
    mapM (fun key =>
            let g := group i_customer key (rows df) in
            let! amounts := mapM (fun r => as_number (at_pos i_total r)) g in
            let dates := map (fun r => timestamp_of (at_pos i_date r)) g in
            Ok (sql_key key,
                {| c_country := sql_text (first_notna (map (at_pos i_country) g));
                   first_purchase_date := foldr min_option None dates;
                   last_purchase_date := foldr max_option None dates;
                   total_spent := sum_numbers amounts;
                   total_transactions := length (distinct [] (map (at_pos i_invoice) g));
                   c_schema_version := SCHEMA_VERSION |}))
         (distinct [] (map (at_pos i_customer) (rows df))) in
  Ok customers.

(** [customers['first_purchase_date'].dt.strftime(...)] and the two other
    uses of [.dt]: the accessor exists when the column holds timestamps,
    which the filter above does not change, so the check reads the
    column of the frame as it was passed in. *)
Definition datetimelike (df : DataFrame) : result unit :=
  let! i_date := position "invoice_date" df in
  let! _ := mapM (fun r => as_timestamp (at_pos i_date r)) (rows df) in
  Ok tt.

(** The product rows: [df.groupby('stock_code').agg({'description': 'first'})]
    and the derived [category]. *)
Definition product_rows (df : DataFrame) : result (list (string * Product)) :=
  let! i_stock := position "stock_code" df in
  let! i_description := position "description" df in
  Ok (map (fun key =>
             let description :=
               first_notna (map (at_pos i_description) (group i_stock key (rows df))) in
             (sql_key key,
              {| p_description := sql_text description;
                 category := extract_category description;
                 p_schema_version := SCHEMA_VERSION |}))
          (distinct [] (map (at_pos i_stock) (rows df)))).

(** The transaction rows, one per row of the frame.  (The source formats
    the date with [strftime('%Y-%m-%d %H:%M:%S')], which drops the
    fraction of a second; timestamps of the model are whole seconds, so
    the date is stored as it is.  The same holds for the two dates of a
    customer row.) *)
Definition transaction_rows (df : DataFrame) : result (list Transaction) :=
  let! i_invoice := position "invoice" df in
  let! i_date := position "invoice_date" df in
  let! i_customer := position "customer_id" df in
  let! i_stock := position "stock_code" df in
  let! i_quantity := position "quantity" df in
  let! i_price := position "price" df in
  let! i_total := position "total_amount" df in
  let! i_country := position "country" df in
  mapM (fun r =>
          let! date := as_timestamp (at_pos i_date r) in
          Ok {| t_invoice := sql_text (at_pos i_invoice r);
                t_invoice_date := date;
                t_customer_id := sql_text (at_pos i_customer r);
                t_stock_code := sql_text (at_pos i_stock r);
                t_quantity := at_pos i_quantity r;
                t_price := at_pos i_price r;
                t_total_amount := at_pos i_total r;
                t_country := sql_text (at_pos i_country r);
                t_schema_version := SCHEMA_VERSION |})
       (rows df).

(** ** The three statements of [load_data] *)

(** [INSERT INTO customers ... ON DUPLICATE KEY UPDATE country =
    VALUES(country), last_purchase_date = VALUES(last_purchase_date),
    total_spent = total_spent + VALUES(total_spent), total_transactions =
    total_transactions + VALUES(total_transactions)] for one row. *)
Definition upsert_customer (cs : gmap string Customer) (kc : string * Customer)
  : gmap string Customer :=
  let '(key, c) := kc in
  match cs !! key with
  | None => <[ key := c ]> cs
  | Some old =>
      <[ key := {| c_country := c_country c;
                   first_purchase_date := first_purchase_date old;
                   last_purchase_date := last_purchase_date c;
                   total_spent := (total_spent old + total_spent c)%Q;
                   total_transactions := total_transactions old + total_transactions c;
                   c_schema_version := c_schema_version old |} ]> cs
  end.

(** [INSERT INTO products ... ON DUPLICATE KEY UPDATE description =
    VALUES(description), category = VALUES(category)] for one row. *)
Definition upsert_product (ps : gmap string Product) (kp : string * Product)
  : gmap string Product :=
  let '(key, p) := kp in
  match ps !! key with
  | None => <[ key := p ]> ps
  | Some old =>
      <[ key := {| p_description := p_description p;
                   category := category p;
                   p_schema_version := p_schema_version old |} ]> ps
  end.

(** [cursor.executemany] of the three statements. *)
Definition write_customers (l : list (string * Customer)) (conn : Connection) : Connection :=
  let s := session conn in
  execute (UpsertCustomers (length l))
    {| customers := foldl upsert_customer (customers s) l;
       products := products s; transactions := transactions s |} conn.

Definition write_products (l : list (string * Product)) (conn : Connection) : Connection :=
  let s := session conn in
  execute (UpsertProducts (length l))
    {| customers := customers s;
       products := foldl upsert_product (products s) l;
       transactions := transactions s |} conn.

Definition write_transactions (l : list Transaction) (conn : Connection) : Connection :=
  let s := session conn in
  execute (InsertTransactions (length l))
    {| customers := customers s; products := products s;
       transactions := transactions s ++ l |} conn.

(** ** [load_data] (database.py) *)

(** The lines under [# Handle incremental loading]. *)
Definition incremental (conn : Connection) (df : DataFrame) (full_refresh : bool)
  : result (DataFrame * Connection) :=
  if negb full_refresh then
    let '(max_date, conn) := get_max_invoice_date conn in
    match max_date with
    | Some d => let! df := newer_than d df in Ok (df, conn)
    | None => Ok (df, conn)
    end
  else Ok (df, conn).

Definition load_data (conn : Connection) (df : DataFrame) (full_refresh : bool)
  : result Connection :=
  if empty df then Ok (commit conn)
  else
    let missing := load_required_columns ∖ list_to_set (columns df) in
    if negb (bool_decide (missing = ∅)) then Raise (MissingColumns missing)
    else
      let batch := df in
      let! (df, conn) := incremental conn df full_refresh in
      let! customers := customer_rows df in
      let! _ := datetimelike batch in
      let! products := product_rows df in
      let! transactions := transaction_rows df in
      let conn := write_customers customers conn in
      let conn := write_products products conn in
      let conn := write_transactions transactions conn in
      Ok (commit conn).

(** ** The orchestration (main.py) *)

Record Args : Type := mkArgs {
  start_date : option Z;
  end_date : Z;
  full_refresh : bool;
  dry_run : bool;
  only_clean : bool
}.

Definition get_incremental_date_range (conn : Connection) (args : Args)
  : option (Z * Z) * Connection :=
  if full_refresh args then (None, conn)
  else
    let '(max_date, conn) := get_max_invoice_date conn in
    match start_date args, max_date with
    | Some s, _ => (Some (s, end_date args), conn)
    | None, Some d => (Some (d, end_date args), conn)
    | None, None => (None, conn)
    end.

(** [transform] *)
Definition transform (df : DataFrame) : result (DataFrame * Metrics) :=
  clean_data df.

(** [load]: a connection of its own, [load_data] without a third
    argument (so [full_refresh] takes its default, [False]), and the
    connection closed whatever happens. *)
Definition load (db : Store) (clean_df : DataFrame) : result unit * Store :=
  let conn := create_tables (get_connection db) in
  match load_data conn clean_df false with
  | Ok conn' => (Ok tt, close conn')
  | Raise e => (Raise e, close conn)
  end.

(** [(df['InvoiceDate'] >= lo) & (df['InvoiceDate'] <= hi)] on one cell. *)
Definition between (lo hi : Z) (v : value) : result bool :=
  match v with
  | VNull => Ok false
  | VDate t => Ok ((lo <=? t)%Z && (t <=? hi)%Z)
  | _ => Raise TypeError
  end.

Definition filter_date_range (range : Z * Z) (df : DataFrame) : result DataFrame :=
  match select "InvoiceDate" (columns df) with
  | NoColumn => Raise (KeyError {[ "InvoiceDate" ]})
  | ManyColumns _ =>
      match rows df with [] => Ok df | _ => Raise ValueError end
  | OneColumn i =>
      let! mask := mapM (fun r => between (fst range) (snd range) (at_pos i r)) (rows df) in
      Ok {| columns := columns df; rows := select_rows mask (rows df) |}
  end.

(** What a run leaves behind: the value it returns, the database, and
    the report written by [save_metrics] when the run got that far. *)
Record Outcome : Type := mkOutcome {
  success : bool;
  database : Store;
  saved_metrics : option Metrics
}.

(** [run_pipeline], for an extraction that delivered the table [raw]. *)
Definition run_pipeline (args : Args) (raw : DataFrame) (db : Store) : Outcome :=
  let conn := get_connection db in
  let '(date_range, conn) := get_incremental_date_range conn args in
  let filtered :=
    match date_range with
    | Some range =>
        let! df := filter_date_range range raw in
        Ok (if (len df =? 0)%nat then None else Some df)
    | None => Ok (Some raw)
    end in
  match filtered with
  | Raise _ => {| success := false; database := close conn; saved_metrics := None |}
  | Ok None => {| success := true; database := close conn; saved_metrics := None |}
  | Ok (Some df) =>
      match transform df with
      | Raise _ => {| success := false; database := close conn; saved_metrics := None |}
      | Ok (clean_df, metrics) =>
          if negb (dry_run args) && negb (only_clean args) then
            match load (close conn) clean_df with
            | (Ok _, db') =>
                {| success := true; database := db'; saved_metrics := Some metrics |}
            | (Raise _, db') =>
                {| success := false; database := db'; saved_metrics := Some metrics |}
            end
          else {| success := true; database := close conn; saved_metrics := Some metrics |}
      end
  end.

(** ** Vocabulary of the properties *)

(** The column labels after step 1 of [clean_data]. *)
Definition std_columns (cols : list string) : list string :=
  let cols := map normalize_label cols in
  rename (renamed_cols cols ∅) cols.

(** A count entered in a dictionary of the report when it is positive. *)
Definition record_count (key : string) (n : nat) (d : gmap string nat) : gmap string nat :=
  if (0 <? n)%nat then <[ key := n ]> d else d.

(** The counts as read from the report; a key that is absent counts zero. *)
Definition removed (key : string) (m : Metrics) : nat :=
  default 0%nat (invalid_values m !! key).

Definition filled (col : string) (m : Metrics) : nat :=
  default 0%nat (missing_values m !! col).

(** The missing cells of the column at position [i]. *)
Definition null_count (i : nat) (rs : list row) : nat :=
  count_true (map (fun r => isna (at_pos i r)) rs).

(** The flag [x <= 0] of a cell that compares. *)
Definition le_zero_flag (v : value) : bool :=
  match le_zero v with Ok b => b | Raise _ => false end.

(** What is left of [quantity > 0] and [price > 0] by a filter that
    removes [x <= 0]: the cell is missing or positive. *)
Definition positive_or_missing (v : value) : Prop :=
  match v with
  | VNull => True
  | VInt n => (0 < n)%Z
  | VFloat x => (0 < x)%Q
  | _ => False
  end.

(** [quantity > 0], [price > 0] as the specification words them. *)
Definition positive (v : value) : Prop :=
  match v with
  | VInt n => (0 < n)%Z
  | VFloat x => (0 < x)%Q
  | _ => False
  end.

Definition not_key_error (e : exn) : Prop :=
  match e with KeyError _ => False | _ => True end.

(** [r'] is [r] except in the columns labelled [c]. *)
Definition same_except (cols : list string) (c : string) (r r' : row) : Prop :=
  fst r' = fst r ∧
  ∀ j c', cols !! j = Some c' → c' ≠ c → at_pos j r' = at_pos j r.

Definition sentinel (col : string) : value :=
  if bool_decide (col = "customer_id") then VStr "GUEST" else VStr "UNKNOWN".

(** What steps 2 and 3 of [clean_data] make of a row. *)
Definition prepared (cols : list string) (r r' : row) : Prop :=
  fst r' = fst r ∧
  (∀ j c, cols !! j = Some c →
          c ≠ "customer_id" → c ≠ "description" → c ≠ "invoice_date" →
          at_pos j r' = at_pos j r) ∧
  (∀ i, select "customer_id" cols = OneColumn i →
        isna (at_pos i r) = true → at_pos i r' = VStr "GUEST") ∧
  (∀ i, select "description" cols = OneColumn i →
        isna (at_pos i r) = true → at_pos i r' = VStr "UNKNOWN").

(** The shape of a successful run of [clean_data] on a frame with rows:
    the rows are prepared, pass the three filters one after the other,
    and receive their [total_amount]; the report holds the counts. *)
Inductive cleaned (df out : DataFrame) (m : Metrics) : Prop :=
| Cleaned (i_customer i_invoice i_date i_quantity i_price : nat)
          (staged valid_invoice valid_quantity valid_price : list row)
          (n_test n_quantity n_price : nat) :
    let cols := std_columns (columns df) in
    select "customer_id" cols = OneColumn i_customer →
    select "invoice" cols = OneColumn i_invoice →
    select "invoice_date" cols = OneColumn i_date →
    select "quantity" cols = OneColumn i_quantity →
    select "price" cols = OneColumn i_price →
    (∀ ps, select "description" cols ≠ ManyColumns ps) →
    Forall2 (prepared cols) (rows df) staged →
    valid_invoice =
      filter (λ r, is_test_transaction (at_pos i_invoice r) = false) staged →
    valid_quantity =
      filter (λ r, le_zero_flag (at_pos i_quantity r) = false) valid_invoice →
    valid_price =
      filter (λ r, le_zero_flag (at_pos i_price r) = false) valid_quantity →
    Forall (λ r, le_zero (at_pos i_quantity r) = Ok (le_zero_flag (at_pos i_quantity r)))
           valid_invoice →
    Forall (λ r, le_zero (at_pos i_price r) = Ok (le_zero_flag (at_pos i_price r)))
           valid_quantity →
    n_test = count_true (map (λ r, is_test_transaction (at_pos i_invoice r)) (rows df)) →
    (length valid_invoice + n_test = length (rows df))%nat →
    (length valid_quantity + n_quantity = length valid_invoice)%nat →
    (length valid_price + n_price = length valid_quantity)%nat →
    columns out = columns_with "total_amount" cols →
    Forall2 (same_except cols "total_amount") valid_price (rows out) →
    original_rows m = length (rows df) →
    rejected_rows m = 0%nat →
    cleaned_rows m = length (rows out) →
    rejection_rate m = 0%Q →
    missing_values m =
      match select "description" cols with
      | OneColumn i =>
          record_count "description" (null_count i (rows df))
            (record_count "customer_id" (null_count i_customer (rows df)) ∅)
      | _ => record_count "customer_id" (null_count i_customer (rows df)) ∅
      end →
    invalid_values m =
      record_count "price" n_price
        (record_count "quantity" n_quantity
           (record_count "test_transactions" n_test ∅)) →
    cleaned df out m.

End Pipeline.

(** * The download (downloader.py) *)

(** The [Content-Length] header of a response: absent, an integer, or a
    text that [int()] does not accept. *)
Inductive content_length : Type :=
| NoLength
| Length (n : Z)
| NotAnInteger.

(** What one [requests.get(url, stream=True)] meets: a
    [RequestException] from the request or from [raise_for_status], or
    a response with its header and the chunks of [iter_content]; a
    response that is not [complete] breaks off with a
    [RequestException] after its chunks. *)
Inductive response : Type :=
| RequestError
| Response (header : content_length) (chunks : list (list Byte.byte)) (complete : bool).

(** The world of the downloader: the file at [DATA_DIR / DATASET_FILENAME]
    (its bytes, when it exists), the number of requests sent so far and
    the waits of [time.sleep], in seconds. *)
Record World : Type := mkWorld {
  file : option (list Byte.byte);
  requests : nat;
  slept : list nat
}.

(** What the downloader raises: the [ValueError] of [int()] on the
    header, and [Exception("All download attempts failed")]. *)
Inductive download_error : Type :=
| InvalidContentLength
| AllDownloadsFailed.

Inductive fetched (A : Type) : Type :=
| Returned (a : A)
| Raised (e : download_error).
Arguments Returned {A} a.
Arguments Raised {A} e.

(** [verify_file_integrity(file_path, expected_size)], for a path whose
    file is [f]. *)
Definition verify_file_integrity (f : option (list Byte.byte)) (expected_size : option Z) : bool :=
  match f with
  | None => false
  | Some content =>
      let actual_size := Z.of_nat (length content) in
      if match expected_size with
         | Some n => (0 <? n)%Z && negb (actual_size =? n)%Z
         | None => false
         end
      then false
      else if (actual_size =? 0)%Z &&
              match expected_size with
              | None => true
              | Some n => negb (n =? 0)%Z
              end
      then false
      else true
  end.

(** [int(response.headers.get('Content-Length', 0))] *)
Definition expected_size_of (header : content_length) : option Z :=
  match header with
  | NoLength => Some 0%Z
  | Length n => Some n
  | NotAnInteger => None
  end.

(** The file after [open(file_path, 'wb')] and the writes of the chunks
    that are not empty. *)
Definition write_chunks (chunks : list (list Byte.byte)) (w : World) : World :=
  {| file := Some (concat (filter (fun chunk => chunk ≠ []) chunks));
     requests := requests w; slept := slept w |}.

Definition sleep (seconds : nat) (w : World) : World :=
  {| file := file w; requests := requests w; slept := slept w ++ [seconds] |}.

Definition unlink (w : World) : World :=
  {| file := None; requests := requests w; slept := slept w |}.

Definition DATASET_URLS : list string :=
  ["https://archive.ics.uci.edu/ml/machine-learning-databases/00352/Online%20Retail.xlsx"].

Section Downloader.

(** The network: the response to the [n]-th request the downloader
    sends (counted from 0), asked of [url]. *)
Variable requests_get : string -> nat -> response.

Definition get (url : string) (w : World) : response * World :=
  (requests_get url (requests w),
   {| file := file w; requests := S (requests w); slept := slept w |}).

(** The [except] branch of one attempt. *)
Definition back_off (max_retries attempt : nat) (w : World) : World :=
  if (attempt <? max_retries - 1)%nat then sleep ((attempt + 1) * 5) w else w.

(** The loop [for attempt in range(max_retries)] over the attempts that
    are left. *)
Fixpoint retry (url : string) (max_retries : nat) (attempts : list nat) (w : World)
  : fetched (option Z) * World :=
  match attempts with
  | [] => (Returned None, w)
  | attempt :: attempts' =>
      let '(r, w) := get url w in
      match r with
      | RequestError => retry url max_retries attempts' (back_off max_retries attempt w)
      | Response header chunks complete =>
          match expected_size_of header with
          | None => (Raised InvalidContentLength, w)
          | Some expected_size =>
              let w := write_chunks chunks w in
              if complete then (Returned (Some expected_size), w)
              else retry url max_retries attempts' (back_off max_retries attempt w)
          end
      end
  end.

Definition download_with_retry (url : string) (max_retries : nat) (w : World)
  : fetched (option Z) * World :=
  retry url max_retries (seq 0 max_retries) w.

(** The loop of [download_dataset] over the URLs that are left; each
    URL gets the default of three attempts. *)
Fixpoint try_urls (urls : list string) (w : World) : fetched unit * World :=
  match urls with
  | [] => (Raised AllDownloadsFailed, w)
  | url :: urls' =>
      match download_with_retry url 3 w with
      | (Raised e, w) => (Raised e, w)
      | (Returned None, w) => try_urls urls' w
      | (Returned (Some expected_size), w) =>
          if verify_file_integrity (file w) (Some expected_size) then (Returned tt, w)
          else try_urls urls' (unlink w)
      end
  end.

(** [download_dataset]; the value returned is the one path
    [DATA_DIR / DATASET_FILENAME]. *)
Definition download_dataset (w : World) : fetched unit * World :=
  try_urls DATASET_URLS w.

End Downloader.

(** The waits before the retries that follow [k] failed attempts. *)
Definition waits (k : nat) : list nat := map (fun attempt => (attempt + 1) * 5)%nat (seq 0 k).

(** A response after which [download_with_retry] tries again. *)
Definition transient (r : response) : bool :=
  match r with
  | RequestError => true
  | Response header _ complete =>
      match expected_size_of header with
      | Some _ => negb complete
      | None => false
      end
  end.

(** * Vocabulary of the properties, continued *)

(** Words for the category of a product. *)
Fixpoint string_forallb (p : ascii → bool) (s : string) : bool :=
  match s with
  | EmptyString => true
  | String c s' => p c && string_forallb p s'
  end.

Definition starts_upper (s : string) : bool :=
  match s with
  | String c _ => is_upper c
  | EmptyString => false
  end.

(** [u] is the first maximal run of capitals of [s]: no capital comes
    before it and none follows it directly. *)
Definition first_capital_run (s u : string) : Prop :=
  ∃ pre post,
    s = pre +:+ u +:+ post ∧ u ≠ EmptyString ∧
    string_forallb is_upper u = true ∧
    string_forallb (λ c, negb (is_upper c)) pre = true ∧
    starts_upper post = false.

(** The category as the specification words it, for the comparison with
    [extract_category]: the alphabetic run the description starts with,
    ["OTHER"] when there is none. *)
Fixpoint leading_alphabetic_run (s : string) : string :=
  match s with
  | String c s' =>
      if is_upper c || is_lower c then String c (leading_alphabetic_run s')
      else EmptyString
  | EmptyString => EmptyString
  end.

Definition category_by_leading_run (description : value) : string :=
  match description with
  | VStr s =>
      match leading_alphabetic_run s with
      | EmptyString => "OTHER"
      | run => run
      end
  | _ => "OTHER"
  end.

(** The label of one column after step 1 of [clean_data]. *)
Definition std_label (c : string) : string :=
  let c := normalize_label c in default c (column_mapping !! c).

(** A label made of [a-z0-9] and single underscores; [after_underscore]
    says that an underscore may not come first. *)
Fixpoint tidy (after_underscore : bool) (s : string) : bool :=
  match s with
  | EmptyString => true
  | String c s' =>
      if is_lower c || is_digit c then tidy false s'
      else bool_decide (c = "_"%char) && negb after_underscore && tidy true s'
  end.

(** A cell that [x <= 0] and [quantity * price] accept. *)
Definition numeric_or_missing (v : value) : bool :=
  match v with
  | VNull | VInt _ | VFloat _ => true
  | _ => false
  end.

(** A cell that the [.dt] accessor accepts. *)
Definition timestamp_or_missing (v : value) : bool :=
  match v with
  | VNull | VDate _ => true
  | _ => false
  end.

(** The date [d] of a transaction is covered by the watermark [wm]. *)
Definition not_after (wm : option Z) (d : option Z) : Prop :=
  match d, wm with
  | Some t, Some w => (t <= w)%Z
  | Some _, None => False
  | None, _ => True
  end.

(** The rows that [load_data] loads from a frame whose [invoice_date]
    is the column at position [i]. *)
Definition selected_rows (full_refresh : bool) (watermark : option Z) (i : nat)
    (rs : list row) : list row :=
  if full_refresh then rs
  else match watermark with
       | Some w => filter (fun r => after w (at_pos i r) = true) rs
       | None => rs
       end.

(** What the product upsert leaves under a key that held [stored]. *)
Definition merge_product (stored : option Product) (p : Product) : option Product :=
  Some match stored with
       | None => p
       | Some old =>
           {| p_description := p_description p; category := category p;
              p_schema_version := p_schema_version old |}
       end.

(** What the customer upsert leaves under a key that held [stored]. *)
Definition merge_customer (stored : option Customer) (c : Customer) : option Customer :=
  Some match stored with
       | None => c
       | Some old =>
           {| c_country := c_country c;
              first_purchase_date := first_purchase_date old;
              last_purchase_date := last_purchase_date c;
              total_spent := (total_spent old + total_spent c)%Q;
              total_transactions := total_transactions old + total_transactions c;
              c_schema_version := c_schema_version old |}
       end.

(** What a run of product upserts under one key leaves of the row [x]
    that was there: the description and category of the last write, the
    schema version of [x]. *)
Definition last_write (q : list Product) (x : Product) : Product :=
  {| p_description := p_description (List.last q x); category := category (List.last q x);
     p_schema_version := p_schema_version x |}.

(** A cell that is a string or missing. *)
Definition string_or_missing (v : value) : bool :=
  match v with
  | VNull | VStr _ => true
  | _ => false
  end.

(** A row that the three filters of [clean_data] keep: its invoice
    (position [i_invoice]) is not a test transaction, and neither its
    quantity nor its price is flagged by [x <= 0]. *)
Definition valid_row (py_str : value -> string) (i_invoice i_quantity i_price : nat)
    (r : row) : bool :=
  negb (is_test_transaction py_str (at_pos i_invoice r)) &&
  negb (le_zero_flag (at_pos i_quantity r)) &&
  negb (le_zero_flag (at_pos i_price r)).

(** The date range that [run_pipeline] works with against the database
    [db]: what [get_incremental_date_range] returns. *)
Definition date_range (args : Args) (db : Store) : option (Z * Z) :=
  fst (get_incremental_date_range (get_connection db) args).

(** A string of capital letters [A-Z] only. *)
Fixpoint capitals (s : string) : bool :=
  match s with
  | EmptyString => true
  | String c s' => is_upper c && capitals s'
  end.

(** ** Concrete data for the examples *)

(** An instance of the two parameters: integers print in decimal, and
    nothing that is not yet a timestamp parses as one. *)
Definition example_str (v : value) : string :=
  match v with
  | VInt n => pretty n
  | _ => "nan"
  end.

Definition example_parse (v : value) : option (option Z) := None.

(** The frame of [02_tests/test_cleaner.py], the dates as timestamps
    (2025-12-01 14:26 and the following minutes). *)
Definition sample_data : DataFrame :=
  {| columns := ["InvoiceNo"; "StockCode"; "Description"; "Quantity";
                 "InvoiceDate"; "UnitPrice"; "CustomerID"; "Country"];
     rows :=
       [ (0%nat, [VStr "536365"; VStr "85123A"; VStr "WHITE HANGING HEART"; VInt 6;
                  VDate 1764599160; VFloat (255 # 100); VStr "17850"; VStr "UK"]);
         (1%nat, [VStr "536366"; VStr "71053"; VNull; VInt (-1);
                  VDate 1764599400; VFloat (339 # 100); VNull; VStr "France"]);
         (2%nat, [VStr "C536367"; VStr "POST"; VStr "POSTAGE"; VInt 1;
                  VDate 1764599520; VFloat 0; VNull; VStr "UK"]);
         (3%nat, [VStr "A12345"; VStr "TEST"; VStr "TEST ITEM"; VInt 0;
                  VDate 1764599700; VFloat (-1); VStr "12345"; VStr "US"]);
         (4%nat, [VStr "536368"; VStr "BANK"; VStr "BANK CHARGES"; VInt 1;
                  VDate 1764600000; VFloat 5; VStr "12346"; VStr "UK"]) ] |}.

(** One valid sale whose quantity was left empty. *)
Definition missing_quantity : DataFrame :=
  {| columns := ["InvoiceNo"; "StockCode"; "Description"; "Quantity";
                 "InvoiceDate"; "UnitPrice"; "CustomerID"; "Country"];
     rows :=
       [ (0%nat, [VStr "536365"; VStr "85123A"; VStr "WHITE HANGING HEART"; VNull;
                  VDate 1764599160; VFloat (255 # 100); VStr "17850"; VStr "UK"]) ] |}.

(** The frame of [02_tests/test_database.py], dated 2025-01-01 and
    2025-01-02, as the extraction delivers it and as [clean_data]
    returns it. *)
Definition raw_batch : DataFrame :=
  {| columns := ["CustomerID"; "InvoiceNo"; "StockCode"; "InvoiceDate";
                 "Quantity"; "UnitPrice"; "Country"; "Description"];
     rows :=
       [ (0%nat, [VStr "12345"; VStr "INV001"; VStr "PROD01"; VDate 1735689600;
                  VInt 2; VFloat 10; VStr "US"; VStr "Product 1"]);
         (1%nat, [VStr "12346"; VStr "INV002"; VStr "PROD02"; VDate 1735776000;
                  VInt 3; VFloat 15; VStr "UK"; VStr "Product 2"]) ] |}.

Definition canonical_batch : DataFrame :=
  {| columns := ["customer_id"; "invoice"; "stock_code"; "invoice_date";
                 "quantity"; "price"; "country"; "description"; "total_amount"];
     rows :=
       [ (0%nat, [VStr "12345"; VStr "INV001"; VStr "PROD01"; VDate 1735689600;
                  VInt 2; VFloat 10; VStr "US"; VStr "Product 1"; VFloat 20]);
         (1%nat, [VStr "12346"; VStr "INV002"; VStr "PROD02"; VDate 1735776000;
                  VInt 3; VFloat 15; VStr "UK"; VStr "Product 2"; VFloat 45]) ] |}.

Definition empty_store : Store :=
  {| customers := ∅; products := ∅; transactions := [] |}.

(** A store whose latest transaction is dated 2025-01-01 23:59:59. *)
Definition earlier_sale : Transaction :=
  {| t_invoice := Some "INV000"; t_invoice_date := Some 1735775999%Z;
     t_customer_id := Some "12340"; t_stock_code := Some "PROD00";
     t_quantity := VInt 1; t_price := VFloat 1; t_total_amount := VFloat 1;
     t_country := Some "UK"; t_schema_version := "1.0" |}.

Definition stored : Store :=
  {| customers :=
       {[ "12340" := {| c_country := Some "UK";
                        first_purchase_date := Some 1735775999%Z;
                        last_purchase_date := Some 1735775999%Z;
                        total_spent := 1; total_transactions := 1;
                        c_schema_version := "1.0" |} ]};
     products :=
       {[ "PROD00" := {| p_description := Some "PRODUCT 0"; category := "PRODUCT";
                         p_schema_version := "1.0" |} ]};
     transactions := [earlier_sale] |}.

(** [--full-refresh], the other arguments at their defaults
    (an end date of 2026-01-01). *)
Definition full_refresh_args : Args :=
  {| start_date := None; end_date := 1767225600; full_refresh := true;
     dry_run := false; only_clean := false |}.

(** One purchase of 10.0 by customer 12345. *)
Definition one_purchase : DataFrame :=
  {| columns := ["customer_id"; "invoice"; "stock_code"; "invoice_date";
                 "quantity"; "price"; "country"; "description"; "total_amount"];
     rows :=
       [ (0%nat, [VStr "12345"; VStr "INV001"; VStr "PROD01"; VDate 1735689600;
                  VInt 1; VFloat 10; VStr "US"; VStr "Product 1"; VFloat 10]) ] |}.

(** A frame without rows and without any column. *)
Definition no_columns : DataFrame := {| columns := []; rows := [] |}.

(** What [clean_data] returns for [sample_data]. *)
Definition cleaned_sample : DataFrame :=
  {| columns := ["invoice"; "stock_code"; "description"; "quantity";
                 "invoice_date"; "price"; "customer_id"; "country"; "total_amount"];
     rows :=
       [ (0%nat, [VStr "536365"; VStr "85123A"; VStr "WHITE HANGING HEART"; VInt 6;
                  VDate 1764599160; VFloat (255 # 100); VStr "17850"; VStr "UK";
                  VFloat (1530 # 100)]);
         (4%nat, [VStr "536368"; VStr "BANK"; VStr "BANK CHARGES"; VInt 1;
                  VDate 1764600000; VFloat 5; VStr "12346"; VStr "UK"; VFloat 5]) ] |}.

Definition sample_report : Metrics :=
  {| original_rows := 5; rejected_rows := 0; cleaned_rows := 2; rejection_rate := 0;
     transformations :=
       [ RenamedColumns
           (list_to_map [ ("invoiceno", "invoice"); ("stockcode", "stock_code");
                          ("invoicedate", "invoice_date"); ("unitprice", "price");
                          ("customerid", "customer_id") ]);
         FilledMissing 2 "customer_id"; FilledMissing 1 "description";
         ConvertedInvoiceDate; ConvertedCustomerId; RemovedTestTransactions;
         RemovedInvalid "quantity"; CalculatedTotalAmount ];
     missing_values := {[ "customer_id" := 2%nat; "description" := 1%nat ]};
     invalid_values := {[ "test_transactions" := 2%nat; "quantity" := 1%nat ]} |}.

(** The product rows of [canonical_batch]. *)
Definition sample_products : list (string * Product) :=
  [ ("PROD01", {| p_description := Some "Product 1"; category := "P";
                  p_schema_version := "1.0" |});
    ("PROD02", {| p_description := Some "Product 2"; category := "P";
                  p_schema_version := "1.0" |}) ].

(** The connection after an incremental load of [canonical_batch] into
    [stored]: the row of 2025-01-02 went in, the row of 2025-01-01 did not. *)
Definition stored_after_load : Store :=
  {| customers :=
       <[ "12346" := {| c_country := Some "UK";
                        first_purchase_date := Some 1735776000%Z;
                        last_purchase_date := Some 1735776000%Z;
                        total_spent := 45; total_transactions := 1;
                        c_schema_version := "1.0" |} ]> (customers stored);
     products :=
       <[ "PROD02" := {| p_description := Some "Product 2"; category := "P";
                         p_schema_version := "1.0" |} ]> (products stored);
     transactions :=
       [ earlier_sale;
         {| t_invoice := Some "INV002"; t_invoice_date := Some 1735776000%Z;
            t_customer_id := Some "12346"; t_stock_code := Some "PROD02";
            t_quantity := VInt 3; t_price := VFloat 15; t_total_amount := VFloat 45;
            t_country := Some "UK"; t_schema_version := "1.0" |} ] |}.

Definition after_incremental_load : Connection :=
  {| session := stored_after_load; committed := stored_after_load;
     executed := [ SelectMaxInvoiceDate; UpsertCustomers 1; UpsertProducts 1;
                   InsertTransactions 1; Commit ] |}.

(** A customer row worth 10.0. *)
Definition ten_spent : Customer :=
  {| c_country := Some "US"; first_purchase_date := Some 1735689600%Z;
     last_purchase_date := Some 1735689600%Z; total_spent := 10;
     total_transactions := 1; c_schema_version := "1.0" |}.

(** A valid sale with neither customer nor description, and what
    [clean_data] returns for it. *)
Definition anonymous_sale : DataFrame :=
  {| columns := ["InvoiceNo"; "StockCode"; "Description"; "Quantity";
                 "InvoiceDate"; "UnitPrice"; "CustomerID"; "Country"];
     rows :=
       [ (7%nat, [VStr "536370"; VStr "22728"; VNull; VInt 3;
                  VDate 1764599160; VFloat (125 # 100); VNull; VStr "France"]) ] |}.

Definition anonymous_sale_cleaned : DataFrame :=
  {| columns := ["invoice"; "stock_code"; "description"; "quantity";
                 "invoice_date"; "price"; "customer_id"; "country"; "total_amount"];
     rows :=
       [ (7%nat, [VStr "536370"; VStr "22728"; VStr "UNKNOWN"; VInt 3;
                  VDate 1764599160; VFloat (125 # 100); VStr "GUEST"; VStr "France";
                  VFloat (375 # 100)]) ] |}.

Definition anonymous_sale_report : Metrics :=
  {| original_rows := 1; rejected_rows := 0; cleaned_rows := 1; rejection_rate := 0;
     transformations :=
       [ RenamedColumns
           (list_to_map [ ("invoiceno", "invoice"); ("stockcode", "stock_code");
                          ("invoicedate", "invoice_date"); ("unitprice", "price");
                          ("customerid", "customer_id") ]);
         FilledMissing 1 "customer_id"; FilledMissing 1 "description";
         ConvertedInvoiceDate; ConvertedCustomerId; CalculatedTotalAmount ];
     missing_values := {[ "customer_id" := 1%nat; "description" := 1%nat ]};
     invalid_values := ∅ |}.

(** [--dry-run], the other arguments at their defaults. *)
Definition dry_run_args : Args :=
  {| start_date := None; end_date := 1767225600; full_refresh := false;
     dry_run := true; only_clean := false |}.

(** No flag given: an incremental run up to the end date. *)
Definition default_args : Args :=
  {| start_date := None; end_date := 1767225600; full_refresh := false;
     dry_run := false; only_clean := false |}.

(** The bytes of [b"test content"] (02_tests/test_downloader.py). *)
Definition test_content : list Byte.byte :=
  [Byte.x74; Byte.x65; Byte.x73; Byte.x74; Byte.x20; Byte.x63;
   Byte.x6f; Byte.x6e; Byte.x74; Byte.x65; Byte.x6e; Byte.x74].

(** The network of [test_retry_mechanism]: a timeout, a connection
    error, then the content with its length. *)
Definition flaky_network (url : string) (n : nat) : response :=
  match n with
  | 0%nat | 1%nat => RequestError
  | _ => Response (Length 12) [test_content] true
  end.

(** A network on which every request fails. *)
Definition unreachable (url : string) (n : nat) : response := RequestError.

(** No file yet, no request sent, no wait. *)
Definition fresh_world : World := {| file := None; requests := 0; slept := [] |}.

(** * Properties *)

Section Properties.

Variable py_str : value → string.
Variable parse_datetime : value → option (option Z).

(** ** Examples of the helpers *)

Example normalize_label_examples :
  map normalize_label ["Customer ID"; "INVOICE NO"; "UnitPrice"; "__Stock--Code!"]
  = ["customer_id"; "invoice_no"; "unitprice"; "stock_code"].
Proof. vm_compute. reflexivity. Qed.

Example std_columns_examples :
  std_columns ["Customer ID"; "INVOICE NO"; "UnitPrice"; "Other"]
  = ["customer_id"; "invoice"; "price"; "other"].
Proof. vm_compute. reflexivity. Qed.

Example py_round_examples :
  map (fun x => py_round x 4) [3 # 5; 1 # 3; 2 # 3; 1 # 20000; 3 # 20000]%Q
  = [3 # 5; 3333 # 10000; 6667 # 10000; 0; 1 # 5000]%Q.
Proof. vm_compute. reflexivity. Qed.

(** ** Columns and cells *)

Lemma positions_from_spec c cols k p :
  p ∈ positions_from c cols k ↔ (k ≤ p)%nat ∧ cols !! (p - k)%nat = Some c.
Proof.
  revert k. induction cols as [|x cols IH]; intros k; simpl.
  - split; [intros H; inversion H | intros [_ H]; discriminate].
  - case_bool_decide as Hx.
    + rewrite elem_of_cons, IH. split.
      * intros [-> | [Hk Hl]].
        -- split; [lia|]. replace (k - k)%nat with 0%nat by lia. simpl. congruence.
        -- split; [lia|]. replace (p - k)%nat with (S (p - S k)) by lia. done.
      * intros [Hk Hl]. destruct (decide (p = k)) as [->|Hne]; [by left|right].
        split; [lia|]. replace (p - k)%nat with (S (p - S k)) in Hl by lia. done.
    + rewrite IH. split.
      * intros [Hk Hl]. split; [lia|]. replace (p - k)%nat with (S (p - S k)) by lia. done.
      * intros [Hk Hl]. destruct (decide (p = k)) as [->|Hne].
        -- replace (k - k)%nat with 0%nat in Hl by lia. simpl in Hl. congruence.
        -- split; [lia|]. replace (p - k)%nat with (S (p - S k)) in Hl by lia. done.
Qed.

Lemma select_one_lookup c cols i :
  select c cols = OneColumn i → cols !! i = Some c.
Proof.
  unfold select. intros H.
  assert (i ∈ positions_from c cols 0) as Hin.
  { destruct (positions_from c cols 0) as [|a [|b l]]; try discriminate.
    injection H as ->. by apply list_elem_of_singleton. }
  apply positions_from_spec in Hin as [_ Hl]. by rewrite Nat.sub_0_r in Hl.
Qed.

Lemma select_none_notin c cols :
  select c cols = NoColumn → c ∉ cols.
Proof.
  unfold select. intros H Hin.
  apply list_elem_of_lookup in Hin as [i Hi].
  assert (i ∈ positions_from c cols 0) as Hp.
  { apply positions_from_spec. rewrite Nat.sub_0_r. split; [lia|done]. }
  destruct (positions_from c cols 0) as [|a [|b l]]; try discriminate.
  inversion Hp.
Qed.

Lemma nth_set_cell i j v cells :
  nth j (set_cell i v cells) VNull = if decide (j = i) then v else nth j cells VNull.
Proof.
  revert j cells. induction i as [|i IH]; intros j cells.
  - destruct cells, j; simpl; try done. by destruct j.
  - destruct cells as [|x t], j as [|j]; simpl; try done.
    + rewrite IH. destruct (decide (j = i)), (decide (S j = S i)); try lia; try done. by destruct j.
    + rewrite IH. destruct (decide (j = i)), (decide (S j = S i)); try lia; done.
Qed.

Lemma at_pos_set_pos i j v r :
  at_pos j (set_pos i v r) = if decide (j = i) then v else at_pos j r.
Proof. unfold at_pos, set_pos. simpl. apply nth_set_cell. Qed.

(** ** Lists and masks *)

Lemma mapM_Forall2 {A B} (f : A → result B) l l' :
  mapM f l = Ok l' → Forall2 (λ a b, f a = Ok b) l l'.
Proof.
  revert l'. induction l as [|a l IH]; intros l' H; simpl in H.
  - injection H as <-. constructor.
  - destruct (f a) as [b|] eqn:Hb; simpl in H; [|discriminate].
    destruct (mapM f l) as [bs|]; simpl in H; [|discriminate].
    injection H as <-. constructor; auto.
Qed.

Lemma Forall2_map_self {A B} (f : A → B) l :
  Forall2 (λ a b, b = f a) l (map f l).
Proof. induction l; simpl; constructor; auto. Qed.

Lemma count_true_cons b mask :
  count_true (b :: mask) = ((if b then 1 else 0) + count_true mask)%nat.
Proof.
  unfold count_true. rewrite filter_cons. by destruct b.
Qed.

Lemma existsb_id_count mask :
  existsb id mask = (0 <? count_true mask)%nat.
Proof.
  induction mask as [|b mask IH]; [done|].
  rewrite count_true_cons. simpl. destruct b; simpl; [done|]. by rewrite IH.
Qed.

(** A mask computed row by row selects like a filter. *)
Lemma select_rows_filter {A} (g : A → bool) (l : list A) mask :
  Forall2 (λ a b, b = g a) l mask →
  select_rows (map negb mask) l = filter (λ a, g a = false) l
  ∧ (length (filter (λ a, g a = false) l) + count_true mask = length l)%nat.
Proof.
  induction 1 as [|a b l mask Hab _ [IH1 IH2]]; [done|].
  subst b. simpl. rewrite filter_cons, count_true_cons.
  destruct (g a) eqn:Hg; simpl.
  - split; [done|lia].
  - split; [by f_equal|simpl; lia].
Qed.

Lemma select_rows_filter_pos {A} (g : A → bool) (l : list A) mask :
  Forall2 (λ a b, b = g a) l mask →
  select_rows mask l = filter (λ a, g a = true) l.
Proof.
  induction 1 as [|a b l mask Hab _ IH]; [done|].
  subst b. simpl. rewrite filter_cons.
  destruct (g a) eqn:Hg; simpl.
  - by f_equal.
  - done.
Qed.

Lemma filter_all {A} (P : A → Prop) `{!∀ a, Decision (P a)} (l : list A) :
  length (filter P l) = length l → filter P l = l.
Proof.
  induction l as [|a l IH]; [done|].
  rewrite filter_cons. case_decide; simpl.
  - intros Hl. f_equal. apply IH. lia.
  - intros Hl. pose proof (length_filter P l). lia.
Qed.

(** ** The steps of [clean_data] *)

Lemma rename_empty cols : rename ∅ cols = cols.
Proof.
  unfold rename. induction cols as [|c cols IH]; [done|].
  simpl. rewrite lookup_empty. simpl. by rewrite IH.
Qed.

Lemma standardize_columns_spec df m df' m' :
  standardize_columns (df, m) = (df', m') →
  columns df' = std_columns (columns df) ∧ rows df' = rows df ∧
  original_rows m' = original_rows m ∧ rejected_rows m' = rejected_rows m ∧
  missing_values m' = missing_values m ∧ invalid_values m' = invalid_values m.
Proof.
  unfold standardize_columns, std_columns. case_bool_decide as He; intros H;
    injection H as <- <-; simpl; [|done].
  rewrite He, rename_empty. done.
Qed.

Lemma same_except_refl cols c r : same_except cols c r r.
Proof. by split. Qed.

Lemma same_except_set_pos cols c i v r :
  cols !! i = Some c → same_except cols c r (set_pos i v r).
Proof.
  intros Hi. split; [done|]. intros j c' Hj Hne.
  rewrite at_pos_set_pos. case_decide; [|done]. congruence.
Qed.

Lemma count_true_zero_all {A} (g : A → bool) l :
  count_true (map g l) = 0%nat → ∀ a, a ∈ l → g a = false.
Proof.
  induction l as [|x l IH]; intros H a Ha; [inversion Ha|].
  simpl in H. rewrite count_true_cons in H.
  apply elem_of_cons in Ha as [->|Ha].
  - destruct (g x); [simpl in H; lia|done].
  - apply IH; [|done]. lia.
Qed.

Lemma handle_missing_spec col df m df' m' :
  handle_missing py_str col (df, m) = Ok (df', m') →
  columns df' = columns df ∧
  original_rows m' = original_rows m ∧ rejected_rows m' = rejected_rows m ∧
  invalid_values m' = invalid_values m ∧
  match select col (columns df) with
  | NoColumn => df' = df ∧ m' = m
  | ManyColumns _ => False
  | OneColumn i =>
      missing_values m' = record_count col (null_count i (rows df)) (missing_values m) ∧
      Forall2 (λ r r', same_except (columns df) col r r' ∧
                       (isna (at_pos i r) = true → at_pos i r' = sentinel col))
              (rows df) (rows df')
  end.
Proof.
  unfold handle_missing. destruct (select col (columns df)) as [|i|ps] eqn:Hsel.
  - intros H. injection H as <- <-. done.
  - apply select_one_lookup in Hsel as Hi.
    fold (null_count i (rows df)). unfold record_count.
    destruct (0 <? null_count i (rows df))%nat eqn:Hn; intros H; injection H as <- <-; simpl.
    + repeat split; try done.
      apply Forall2_fmap_r, Forall_Forall2_diag, Forall_forall. intros r _.
      split; [by apply same_except_set_pos|].
      unfold update_at. rewrite at_pos_set_pos. case_decide; [|done].
      intros Hna. unfold sentinel. case_bool_decide; unfold fillna; by rewrite Hna.
    + repeat split; try done.
      apply Forall_Forall2_diag, Forall_forall. intros r Hr.
      split; [apply same_except_refl|].
      apply Nat.ltb_ge in Hn. assert (null_count i (rows df) = 0%nat) as H0 by lia.
      intros Hna. by rewrite (count_true_zero_all _ _ H0 r Hr) in Hna.
  - discriminate.
Qed.

Lemma convert_invoice_date_spec df m df' m' :
  convert_invoice_date parse_datetime (df, m) = Ok (df', m') →
  columns df' = columns df ∧
  original_rows m' = original_rows m ∧ rejected_rows m' = rejected_rows m ∧
  missing_values m' = missing_values m ∧ invalid_values m' = invalid_values m ∧
  match select "invoice_date" (columns df) with
  | ManyColumns _ => False
  | _ => Forall2 (same_except (columns df) "invoice_date") (rows df) (rows df')
  end.
Proof.
  unfold convert_invoice_date.
  destruct (select "invoice_date" (columns df)) as [|i|ps] eqn:Hsel.
  - intros H. injection H as <- <-. repeat split; try done.
    apply Forall_Forall2_diag, Forall_forall. intros r _. apply same_except_refl.
  - apply select_one_lookup in Hsel as Hi.
    destruct (mapM _ (rows df)) as [rows'|] eqn:HM; simpl; [|discriminate].
    intros H. injection H as <- <-. simpl. repeat split; try done.
    apply mapM_Forall2 in HM. eapply Forall2_impl; [exact HM|].
    intros r r' Hr. simpl in Hr.
    destruct (to_datetime parse_datetime (at_pos i r)); simpl in Hr; [|discriminate].
    injection Hr as <-. by apply same_except_set_pos.
  - discriminate.
Qed.

Lemma convert_customer_id_spec df m df' m' :
  convert_customer_id py_str (df, m) = Ok (df', m') →
  columns df' = columns df ∧
  original_rows m' = original_rows m ∧ rejected_rows m' = rejected_rows m ∧
  missing_values m' = missing_values m ∧ invalid_values m' = invalid_values m ∧
  Forall2 (λ r r', same_except (columns df) "customer_id" r r' ∧
                   ∀ i, select "customer_id" (columns df) = OneColumn i →
                        at_pos i r' = astype_str py_str (at_pos i r))
          (rows df) (rows df').
Proof.
  unfold convert_customer_id.
  destruct (select "customer_id" (columns df)) as [|i|ps] eqn:Hsel.
  - intros H. injection H as <- <-. repeat split; try done.
    apply Forall_Forall2_diag, Forall_forall. intros r _.
    split; [apply same_except_refl|]. intros i Hi. discriminate.
  - apply select_one_lookup in Hsel as Hi.
    intros H. injection H as <- <-. simpl. repeat split; try done.
    apply Forall2_fmap_r, Forall_Forall2_diag, Forall_forall. intros r _.
    split; [by apply same_except_set_pos|].
    intros i' Hi'. injection Hi' as <-. unfold update_at.
    rewrite at_pos_set_pos. by case_decide.
  - discriminate.
Qed.

Lemma remove_test_transactions_spec df m df' m' :
  remove_test_transactions py_str (df, m) = Ok (df', m') →
  columns df' = columns df ∧
  original_rows m' = original_rows m ∧ rejected_rows m' = rejected_rows m ∧
  missing_values m' = missing_values m ∧
  match select "invoice" (columns df) with
  | NoColumn => df' = df ∧ m' = m
  | ManyColumns _ => False
  | OneColumn i =>
      rows df' = filter (λ r, is_test_transaction py_str (at_pos i r) = false) (rows df) ∧
      invalid_values m' =
        record_count "test_transactions"
          (count_true (map (λ r, is_test_transaction py_str (at_pos i r)) (rows df)))
          (invalid_values m) ∧
      (length (rows df') +
       count_true (map (λ r, is_test_transaction py_str (at_pos i r)) (rows df))
       = length (rows df))%nat
  end.
Proof.
  unfold remove_test_transactions.
  destruct (select "invoice" (columns df)) as [|i|ps] eqn:Hsel.
  - intros H. injection H as <- <-. done.
  - set (g := λ r, is_test_transaction py_str (at_pos i r)).
    pose proof (select_rows_filter g (rows df) (map g (rows df))
                  (Forall2_map_self g (rows df))) as [Hf Hl].
    rewrite existsb_id_count. unfold record_count.
    destruct (0 <? count_true (map g (rows df)))%nat eqn:Hn;
      intros H; injection H as <- <-; simpl.
    + rewrite Hf. repeat split; try done; try (subst g; simpl in *; lia).
    + apply Nat.ltb_ge in Hn. repeat split; try done; try (subst g; simpl in *; lia).
      symmetry. apply filter_all. subst g. simpl in *. lia.
  - discriminate.
Qed.

Lemma le_zero_flag_ok v b : le_zero v = Ok b → b = le_zero_flag v.
Proof. unfold le_zero_flag. by intros ->. Qed.

Lemma remove_invalid_spec col df m df' m' :
  remove_invalid col (df, m) = Ok (df', m') →
  columns df' = columns df ∧
  original_rows m' = original_rows m ∧ rejected_rows m' = rejected_rows m ∧
  missing_values m' = missing_values m ∧
  match select col (columns df) with
  | NoColumn => df' = df ∧ m' = m
  | ManyColumns _ => False
  | OneColumn i =>
      Forall (λ r, le_zero (at_pos i r) = Ok (le_zero_flag (at_pos i r))) (rows df) ∧
      rows df' = filter (λ r, le_zero_flag (at_pos i r) = false) (rows df) ∧
      ∃ invalid,
        invalid_values m' = record_count col invalid (invalid_values m) ∧
        (length (rows df') + invalid = length (rows df))%nat
  end.
Proof.
  unfold remove_invalid.
  destruct (select col (columns df)) as [|i|ps] eqn:Hsel.
  - intros H. injection H as <- <-. done.
  - destruct (mapM _ (rows df)) as [check|] eqn:HM; simpl; [|discriminate].
    apply mapM_Forall2 in HM.
    assert (Forall2 (λ r b, b = le_zero_flag (at_pos i r)) (rows df) check) as HF.
    { eapply Forall2_impl; [exact HM|]. intros r b. apply le_zero_flag_ok. }
    assert (Forall (λ r, le_zero (at_pos i r) = Ok (le_zero_flag (at_pos i r))) (rows df)) as Hall.
    { clear HF. induction HM as [|r b l k Hb _ IH]; constructor; [|done].
      by rewrite Hb, (le_zero_flag_ok _ _ Hb). }
    pose proof (select_rows_filter (λ r, le_zero_flag (at_pos i r)) (rows df) check HF)
      as [Hf Hl].
    unfold record_count.
    destruct (0 <? count_true check)%nat eqn:Hn; intros H; injection H as <- <-; simpl.
    + rewrite Hf. repeat split; try done. exists (count_true check).
      rewrite Hn. done.
    + apply Nat.ltb_ge in Hn. repeat split; try done.
      * symmetry. apply filter_all. lia.
      * exists (count_true check). rewrite (proj2 (Nat.ltb_ge _ _) Hn). split; [done|lia].
  - destruct (mapM _ (rows df)); discriminate.
Qed.

Lemma at_pos_foldr_set_pos ps j v r :
  at_pos j (foldr (λ i r', set_pos i v r') r ps) = if decide (j ∈ ps) then v else at_pos j r.
Proof.
  induction ps as [|p ps IH].
  - simpl foldr. destruct (decide (j ∈ [])) as [H|]; [inversion H|done].
  - simpl foldr. rewrite at_pos_set_pos, IH.
    destruct (decide (j ∈ ps)) as [Hin|Hnin], (decide (j ∈ p :: ps)) as [H|H],
      (decide (j = p)) as [Hjp|Hne]; try done; exfalso.
    + apply H. by right.
    + apply H. by right.
    + apply elem_of_cons in H as [?|?]; done.
    + apply H. subst. by left.
Qed.

Lemma fst_foldr_set_pos ps v r :
  fst (foldr (λ i r', set_pos i v r') r ps) = fst r.
Proof. induction ps as [|p ps IH]; simpl; [done|]. exact IH. Qed.

Lemma assign_column_same_except c cols v r :
  same_except cols c r (assign_column c cols v r).
Proof.
  unfold assign_column.
  destruct (positions_from c cols 0) as [|p ps] eqn:Hp.
  - split; [done|]. intros j c' Hj _. rewrite at_pos_set_pos.
    apply lookup_lt_Some in Hj. case_decide; [lia|done].
  - split; [apply fst_foldr_set_pos|]. intros j c' Hj Hne.
    rewrite at_pos_foldr_set_pos. case_decide as Hin; [|done].
    rewrite <- Hp in Hin. apply positions_from_spec in Hin as [_ Hl].
    rewrite Nat.sub_0_r in Hl. congruence.
Qed.

Lemma add_total_amount_spec df m df' m' iq ip :
  select "quantity" (columns df) = OneColumn iq →
  select "price" (columns df) = OneColumn ip →
  add_total_amount (df, m) = Ok (df', m') →
  columns df' = columns_with "total_amount" (columns df) ∧
  original_rows m' = original_rows m ∧ rejected_rows m' = rejected_rows m ∧
  missing_values m' = missing_values m ∧ invalid_values m' = invalid_values m ∧
  Forall2 (same_except (columns df) "total_amount") (rows df) (rows df').
Proof.
  unfold add_total_amount. intros -> ->.
  destruct (mapM _ (rows df)) as [rows'|] eqn:HM; simpl; [|discriminate].
  intros H. injection H as <- <-. simpl. repeat split; try done.
  apply mapM_Forall2 in HM. eapply Forall2_impl; [exact HM|].
  intros r r' Hr. simpl in Hr.
  destruct (mul_cells (at_pos iq r) (at_pos ip r)); simpl in Hr; [|discriminate].
  injection Hr as <-. apply assign_column_same_except.
Qed.

Lemma positions_from_app_other c c' cols k :
  c' ≠ c → positions_from c' (cols ++ [c]) k = positions_from c' cols k.
Proof.
  intros Hne. revert k. induction cols as [|x cols IH]; intros k; simpl.
  - case_bool_decide; [congruence|done].
  - case_bool_decide; by rewrite IH.
Qed.

Lemma select_columns_with c c' cols :
  c' ≠ c → select c' (columns_with c cols) = select c' cols.
Proof.
  intros Hne. unfold columns_with, select. case_bool_decide; [done|].
  by rewrite positions_from_app_other.
Qed.

Lemma py_round_zero p n : py_round (0 # p)%Q n = 0%Q.
Proof.
  unfold py_round, round_half_even.
  assert (Qfloor ((0 # p) * inject_Z (10 ^ Z.of_nat n))%Q = 0%Z) as ->.
  { unfold Qfloor, Qmult. simpl. apply Z.div_0_l. done. }
  assert (((0 # p) * inject_Z (10 ^ Z.of_nat n) - inject_Z 0 ?= 1 # 2)%Q = Lt) as ->.
  { unfold Qcompare, Qminus, Qplus, Qmult, Qopp, inject_Z. simpl. done. }
  unfold Qred. simpl. done.
Qed.

Lemma finalize_spec df m :
  rejected_rows m = 0%nat → original_rows m ≠ 0%nat →
  finalize (df, m) =
    (df, set_cleaned_rows (len df) (set_rejection_rate 0%Q m)).
Proof.
  intros Hr Ho. unfold finalize, true_div. rewrite Hr.
  destruct (original_rows m) as [|k]; [done|]. simpl Z.of_nat.
  by rewrite py_round_zero.
Qed.

(** ** The shape of a run of [clean_data] *)

Lemma Forall2_compose {A B C} (R : A → B → Prop) (S : B → C → Prop) l k n :
  Forall2 R l k → Forall2 S k n → Forall2 (λ a c, ∃ b, R a b ∧ S b c) l n.
Proof.
  intros H. revert n. induction H as [|a b l k Hab _ IH]; intros n Hn; inversion Hn; subst.
  - constructor.
  - constructor; eauto.
Qed.

Lemma null_count_same i l l' :
  Forall2 (λ r r' : row, at_pos i r' = at_pos i r) l l' → null_count i l' = null_count i l.
Proof.
  unfold null_count. induction 1 as [|r r' l l' Hr _ IH]; [done|].
  simpl. rewrite !count_true_cons, Hr, IH. done.
Qed.

Lemma missing_columns_empty df c :
  missing_columns df = ∅ → c ∈ required_columns → c ∈ columns df.
Proof.
  unfold missing_columns. intros H Hc.
  destruct (decide (c ∈ columns df)) as [|Hn]; [done|].
  assert (c ∈ required_columns ∖ list_to_set (C := gset string) (columns df)) as Hin.
  { apply elem_of_difference. split; [done|]. by rewrite elem_of_list_to_set. }
  rewrite H in Hin. by apply not_elem_of_empty in Hin.
Qed.

Lemma select_in_not_none c cols : c ∈ cols → select c cols ≠ NoColumn.
Proof. intros Hin Hs. by apply select_none_notin in Hs. Qed.

Lemma required_elem c :
  c ∈ ["customer_id"; "invoice"; "stock_code"; "invoice_date"; "quantity"; "price"] →
  c ∈ required_columns.
Proof. intros H. unfold required_columns. by apply elem_of_list_to_set. Qed.

Lemma prepared_intro cols ic r0 r1 r2 r3 r4 :
  select "customer_id" cols = OneColumn ic →
  same_except cols "customer_id" r0 r1 →
  (isna (at_pos ic r0) = true → at_pos ic r1 = VStr "GUEST") →
  same_except cols "description" r1 r2 →
  (∀ i, select "description" cols = OneColumn i →
        isna (at_pos i r1) = true → at_pos i r2 = VStr "UNKNOWN") →
  same_except cols "invoice_date" r2 r3 →
  same_except cols "customer_id" r3 r4 →
  at_pos ic r4 = astype_str py_str (at_pos ic r3) →
  prepared cols r0 r4.
Proof.
  intros Hc [E1 K1] G1 [E2 K2] G2 [E3 K3] [E4 K4] A4.
  pose proof (select_one_lookup _ _ _ Hc) as Lc.
  split; [congruence|]. split; [|split].
  - intros j c Hj N1 N2 N3.
    rewrite (K4 j c Hj N1), (K3 j c Hj N3), (K2 j c Hj N2), (K1 j c Hj N1). done.
  - intros i Hi Hna. rewrite Hc in Hi. injection Hi as <-.
    rewrite A4, (K3 ic _ Lc), (K2 ic _ Lc), (G1 Hna); done.
  - intros i Hi Hna. pose proof (select_one_lookup _ _ _ Hi) as Ld.
    rewrite (K4 i _ Ld), (K3 i _ Ld); [|done..].
    apply G2; [done|]. rewrite (K1 i _ Ld); done.
Qed.

(** Running one step of the body: the step returned, or the whole call
    raised. *)
Ltac run_step df m E :=
  match goal with
  | |- bind ?x _ = Ok _ → _ =>
      destruct x as [[df m]|] eqn:E; cbn [bind]; [|discriminate]
  end.

Lemma clean_data_nonempty df out m :
  rows df ≠ [] → clean_data py_str parse_datetime df = Ok (out, m) → cleaned py_str df out m.
Proof.
  intros Hne. unfold clean_data, len.
  destruct (rows df) as [|r0 rs] eqn:Hrows; [done|]. rewrite <- Hrows. clear Hne.
  assert ((length (rows df) =? 0)%nat = false) as -> by (rewrite Hrows; done).
  destruct (standardize_columns (df, initial_metrics (length (rows df)))) as [df1 m1] eqn:E1.
  apply standardize_columns_spec in E1 as (C1 & R1 & O1 & J1 & M1 & I1). simpl in O1, J1, M1, I1.
  unfold verify_required. simpl fst. case_bool_decide as Hreq; cbn [bind]; [|discriminate].
  run_step df2 m2 E2.
  apply handle_missing_spec in E2 as (C2 & O2 & J2 & I2 & S2).
  run_step df3 m3 E3.
  apply handle_missing_spec in E3 as (C3 & O3 & J3 & I3 & S3).
  run_step df4 m4 E4.
  apply convert_invoice_date_spec in E4 as (C4 & O4 & J4 & M4 & I4 & F4).
  run_step df5 m5 E5.
  apply convert_customer_id_spec in E5 as (C5 & O5 & J5 & M5 & I5 & F5).
  run_step df6 m6 E6.
  apply remove_test_transactions_spec in E6 as (C6 & O6 & J6 & M6 & S6).
  run_step df7 m7 E7.
  apply remove_invalid_spec in E7 as (C7 & O7 & J7 & M7 & S7).
  run_step df8 m8 E8.
  apply remove_invalid_spec in E8 as (C8 & O8 & J8 & M8 & S8).
  run_step df9 m9 E9.
  intros Hfin.
  set (cols := std_columns (columns df)) in *.
  rewrite C1 in *. rewrite C2 in *. rewrite C3 in *. rewrite C4 in *. rewrite C5 in *.
  rewrite C6 in *. rewrite C7 in *.
  assert (∀ c, c ∈ ["customer_id"; "invoice"; "stock_code"; "invoice_date"; "quantity"; "price"]
               → select c cols ≠ NoColumn) as Hsel.
  { intros c Hc. apply select_in_not_none. rewrite <- C1.
    apply missing_columns_empty; [done|]. by apply required_elem. }
  destruct (select "customer_id" cols) as [|ic|] eqn:Hic;
    [exfalso; eapply (Hsel "customer_id"); [by repeat constructor|done] | | done].
  destruct (select "invoice_date" cols) as [|idate|] eqn:Hidate;
    [exfalso; eapply (Hsel "invoice_date"); [by repeat constructor|done] | | done].
  destruct (select "invoice" cols) as [|iinv|] eqn:Hiinv;
    [exfalso; eapply (Hsel "invoice"); [by repeat constructor|done] | | done].
  destruct (select "quantity" cols) as [|iq|] eqn:Hiq;
    [exfalso; eapply (Hsel "quantity"); [by repeat constructor|done] | | done].
  destruct (select "price" cols) as [|ip|] eqn:Hip;
    [exfalso; eapply (Hsel "price"); [by repeat constructor|done] | | done].
  destruct S2 as [S2m S2r].
  destruct S6 as (S6r & S6i & S6l).
  destruct S7 as (S7c & S7r & nq & S7i & S7l).
  destruct S8 as (S8c & S8r & np & S8i & S8l).
  assert (select "quantity" (columns df8) = OneColumn iq) as Hq8 by (by rewrite C8).
  assert (select "price" (columns df8) = OneColumn ip) as Hp8 by (by rewrite C8).
  destruct (add_total_amount_spec _ _ _ _ _ _ Hq8 Hp8 E9) as (C9 & O9 & J9 & M9 & I9 & F9).
  rewrite C8 in C9, F9.
  assert (Forall2 (λ r r', same_except cols "description" r r' ∧
                    ∀ i, select "description" cols = OneColumn i →
                         isna (at_pos i r) = true → at_pos i r' = VStr "UNKNOWN")
                  (rows df2) (rows df3)) as S3r.
  { destruct (select "description" cols) as [|idesc|] eqn:Hd; [| |done].
    - destruct S3 as [-> _]. apply Forall_Forall2_diag, Forall_forall.
      intros r _. split; [apply same_except_refl|]. intros i Hi. discriminate.
    - destruct S3 as [_ S3r]. eapply Forall2_impl; [exact S3r|].
      intros r r' [Hs Hn]. split; [done|]. intros i Hi. injection Hi as <-. exact Hn. }
  assert (Forall2 (prepared cols) (rows df) (rows df5)) as Hprep.
  { rewrite <- R1.
    pose proof (Forall2_compose _ _ _ _ _
                  (Forall2_compose _ _ _ _ _ (Forall2_compose _ _ _ _ _ S2r S3r) F4) F5) as HF.
    eapply Forall2_impl; [exact HF|].
    intros r r4 (r3 & (r2 & (r1 & [H1 G1] & [H2 G2]) & H3) & [H4 G4]).
    eapply (prepared_intro cols ic r r1 r2 r3 r4); eauto. }
  assert (Forall2 (λ r r' : row, at_pos iinv r' = at_pos iinv r) (rows df) (rows df5)) as Hinv.
  { eapply Forall2_impl; [exact Hprep|]. intros r r' (_ & K & _).
    apply (K iinv "invoice"); [by apply select_one_lookup|done..]. }
  assert (map (λ r, is_test_transaction py_str (at_pos iinv r)) (rows df5)
          = map (λ r, is_test_transaction py_str (at_pos iinv r)) (rows df)) as Hcnt.
  { clear -Hinv. induction Hinv as [|r r' l l' Hr _ IH]; [done|]. simpl. by rewrite Hr, IH. }
  rewrite Hcnt in S6i, S6l.
  assert (length (rows df5) = length (rows df)) as Hlen5.
  { symmetry. by eapply Forall2_length. }
  assert (missing_values m2 = record_count "customer_id" (null_count ic (rows df)) ∅) as Hm2.
  { by rewrite S2m, R1, M1. }
  assert (missing_values m3 =
          match select "description" cols with
          | OneColumn i =>
              record_count "description" (null_count i (rows df))
                (record_count "customer_id" (null_count ic (rows df)) ∅)
          | _ => record_count "customer_id" (null_count ic (rows df)) ∅
          end) as Hm3.
  { destruct (select "description" cols) as [|idesc|] eqn:Hd; [| |done].
    - destruct S3 as [_ ->]. done.
    - destruct S3 as [-> _]. rewrite Hm2. f_equal.
      rewrite <- R1. apply null_count_same.
      eapply Forall2_impl; [exact S2r|]. intros r r' [[_ K] _].
      apply (K idesc "description"); [by apply select_one_lookup|done]. }
  assert (original_rows m8 = length (rows df)) as Ho8 by congruence.
  assert (rejected_rows m8 = 0%nat) as Hj8 by congruence.
  rewrite finalize_spec in Hfin; [|congruence|rewrite O9, Ho8, Hrows; done].
  injection Hfin as <- <-.
  eapply (Cleaned py_str df df9 _ ic iinv idate iq ip (rows df5) (rows df6) (rows df7) (rows df8));
    simpl; fold cols; try done.
  - intros ps Hps. by rewrite Hps in S3.
  - lia.
  - congruence.
  - congruence.
  - congruence.
  - rewrite I9, S8i, S7i, S6i. congruence.
Qed.

(** ** Properties of [clean_data] *)

Lemma clean_data_empty df :
  rows df = [] → clean_data py_str parse_datetime df = Ok (df, initial_metrics 0).
Proof. unfold clean_data, len. intros ->. done. Qed.

Lemma clean_data_cases df out m :
  clean_data py_str parse_datetime df = Ok (out, m) →
  (rows df = [] ∧ out = df ∧ m = initial_metrics 0) ∨ (rows df ≠ [] ∧ cleaned py_str df out m).
Proof.
  intros H. destruct (rows df) as [|r rs] eqn:Hr.
  - left. rewrite clean_data_empty in H by done. by injection H as <- <-.
  - right. split; [done|]. apply clean_data_nonempty; [|done].
    by rewrite Hr.
Qed.

Lemma record_count_lookup key n d :
  d !! key = None → default 0%nat (record_count key n d !! key) = n.
Proof.
  intros Hd. unfold record_count. destruct (0 <? n)%nat eqn:Hn.
  - by rewrite lookup_insert_eq.
  - rewrite Hd. simpl. apply Nat.ltb_ge in Hn. lia.
Qed.

Lemma record_count_lookup_ne key key' n d :
  key ≠ key' → record_count key n d !! key' = d !! key'.
Proof.
  intros Hne. unfold record_count. destruct (0 <? n)%nat; [|done].
  by rewrite lookup_insert_ne.
Qed.

Lemma cleaned_removed df out m :
  cleaned py_str df out m →
  ∃ i, select "invoice" (std_columns (columns df)) = OneColumn i ∧
  removed "test_transactions" m =
    count_true (map (λ r, is_test_transaction py_str (at_pos i r)) (rows df)) ∧
  (cleaned_rows m + removed "test_transactions" m + removed "quantity" m
   + removed "price" m = original_rows m)%nat.
Proof.
  intros [ic iinv idate iq ip staged vi vq vp nt nq np cols
            Hc Hi Hd Hq Hp Hdesc Hprep Evi Evq Evp Fq Fp Ent Lt Lq Lp Cout Fout
            Ho Hj Hcl Hrate Hmiss Hinv].
  exists iinv. split; [done|].
  assert (removed "test_transactions" m = nt) as ->.
  { unfold removed. rewrite Hinv, !record_count_lookup_ne by done.
    by apply record_count_lookup. }
  assert (removed "quantity" m = nq) as ->.
  { unfold removed. rewrite Hinv, record_count_lookup_ne by done.
    apply record_count_lookup. by rewrite record_count_lookup_ne. }
  assert (removed "price" m = np) as ->.
  { unfold removed. rewrite Hinv. apply record_count_lookup.
    by rewrite !record_count_lookup_ne. }
  split; [done|]. apply Forall2_length in Fout. lia.
Qed.

(** C5.  When [clean_data] returns, the report accounts for every row
    of the input: the rows kept plus the rows counted as removed by the
    test-transaction filter, by the quantity filter and by the price
    filter are the rows received.  [original_rows] is the length of the
    input and [cleaned_rows] the length of the result. *)
Theorem clean_data_accounts_for_every_row df out m :
  clean_data py_str parse_datetime df = Ok (out, m) →
  original_rows m = len df ∧ cleaned_rows m = len out ∧
  (cleaned_rows m + removed "test_transactions" m + removed "quantity" m
   + removed "price" m = original_rows m)%nat.
Proof.
  intros H. apply clean_data_cases in H as [(Hr & -> & ->)|[Hr Hc]].
  - unfold len. rewrite Hr. done.
  - destruct (cleaned_removed _ _ _ Hc) as (i & _ & _ & Hsum).
    destruct Hc. unfold len. done.
Qed.

Lemma Forall2_elem_r {A B} (R : A → B → Prop) l k b :
  Forall2 R l k → b ∈ k → ∃ a, a ∈ l ∧ R a b.
Proof.
  intros HF Hb. apply list_elem_of_lookup in Hb as [i Hi].
  destruct (Forall2_lookup_r _ _ _ _ _ HF Hi) as (a & Ha & HR).
  exists a. split; [|done]. by eapply list_elem_of_lookup_2.
Qed.

Lemma le_zero_false v : le_zero v = Ok false ↔ positive_or_missing v.
Proof.
  destruct v as [|s|n|x|t]; simpl; try (split; [discriminate|done]).
  - done.
  - split.
    + intros H. injection H as H. apply Z.leb_gt in H. done.
    + intros H. f_equal. by apply Z.leb_gt.
  - split.
    + intros H. injection H as H. apply Qnot_le_lt. intros Hle.
      apply Qle_bool_iff in Hle. congruence.
    + intros H. f_equal. destruct (Qle_bool x 0) eqn:E; [|done].
      apply Qle_bool_iff in E. exfalso. by apply (Qlt_not_le _ _ H).
Qed.

(** Where a row of the result comes from: a row [r] of the input, the
    row [s] it became before the filters, which passed the three of
    them, and the row of the result, [s] with its [total_amount]. *)
Lemma cleaned_provenance df out m r' :
  cleaned py_str df out m → r' ∈ rows out →
  let cols := std_columns (columns df) in
  ∃ r s, r ∈ rows df ∧ prepared cols r s ∧ same_except cols "total_amount" s r' ∧
         (∀ i, select "invoice" cols = OneColumn i →
               is_test_transaction py_str (at_pos i s) = false) ∧
         (∀ i, select "quantity" cols = OneColumn i → le_zero (at_pos i s) = Ok false) ∧
         (∀ i, select "price" cols = OneColumn i → le_zero (at_pos i s) = Ok false).
Proof.
  intros [ic iinv idate iq ip staged vi vq vp nt nq np cols
            Hc Hi Hd Hq Hp Hdesc Hprep Evi Evq Evp Fq Fp Ent Lt Lq Lp Cout Fout
            Ho Hj Hcl Hrate Hmiss Hinv] Hr'.
  subst cols. cbv zeta.
  destruct (Forall2_elem_r _ _ _ _ Fout Hr') as (s & Hs & Hss).
  rewrite Evp in Hs. apply list_elem_of_filter in Hs as [Pp Hs].
  pose proof Hs as Hsq.
  rewrite Evq in Hs. apply list_elem_of_filter in Hs as [Pq Hs].
  pose proof Hs as Hsi.
  rewrite Evi in Hs. apply list_elem_of_filter in Hs as [Pt Hs].
  destruct (Forall2_elem_r _ _ _ _ Hprep Hs) as (r & Hr & Hrs).
  exists r, s. repeat split; try done; try apply Hrs; try apply Hss.
  - intros i Hi'. rewrite Hi in Hi'. by injection Hi' as <-.
  - intros i Hi'. rewrite Hq in Hi'. injection Hi' as <-.
    rewrite Forall_forall in Fq. rewrite (Fq s Hsi). by f_equal.
  - intros i Hi'. rewrite Hp in Hi'. injection Hi' as <-.
    rewrite Forall_forall in Fp. rewrite (Fp s Hsq). by f_equal.
Qed.

Lemma cell_columns_with cols c r :
  c ≠ "total_amount" → cell (columns_with "total_amount" cols) c r = cell cols c r.
Proof. intros Hne. unfold cell. by rewrite select_columns_with. Qed.

Lemma cell_one cols c i r : select c cols = OneColumn i → cell cols c r = Some (at_pos i r).
Proof. unfold cell. by intros ->. Qed.

Lemma NoDup_fst_eq (l : list row) r1 r2 :
  NoDup (map fst l) → r1 ∈ l → r2 ∈ l → fst r1 = fst r2 → r1 = r2.
Proof.
  induction l as [|x l IH]; simpl; intros Hnd H1 H2 Hf; [inversion H1|].
  apply NoDup_cons in Hnd as [Hx Hnd].
  apply elem_of_cons in H1 as [->|H1], H2 as [->|H2]; try done.
  - exfalso. apply Hx. rewrite Hf. apply list_elem_of_In, in_map, list_elem_of_In. done.
  - exfalso. apply Hx. rewrite <- Hf. apply list_elem_of_In, in_map, list_elem_of_In. done.
  - by apply IH.
Qed.

(** C9.  A row of the result whose [customer_id] was missing in the
    input carries the string ["GUEST"], one whose [description] was
    missing carries ["UNKNOWN"]; the report counts the missing cells of
    each of the two columns under [missing_values].  Rows are followed
    from the input to the result by their index label, for an index
    without repeated labels. *)
Theorem clean_data_fills_missing_values df out m :
  clean_data py_str parse_datetime df = Ok (out, m) →
  let cols := std_columns (columns df) in
  (NoDup (map fst (rows df)) →
   ∀ idx cells cells',
      (idx, cells) ∈ rows df → (idx, cells') ∈ rows out →
      (cell cols "customer_id" (idx, cells) = Some VNull →
       cell (columns out) "customer_id" (idx, cells') = Some (VStr "GUEST")) ∧
      (cell cols "description" (idx, cells) = Some VNull →
       cell (columns out) "description" (idx, cells') = Some (VStr "UNKNOWN"))) ∧
  (∀ i, select "customer_id" cols = OneColumn i →
        filled "customer_id" m = null_count i (rows df)) ∧
  (∀ i, select "description" cols = OneColumn i →
        filled "description" m = null_count i (rows df)).
Proof.
  intros H cols. apply clean_data_cases in H as [(Hr & -> & ->)|[Hr Hc]].
  - rewrite Hr. split; [|split].
    + intros _ idx cells cells' Hin. inversion Hin.
    + done.
    + done.
  - split; [|split].
    + intros Hnd idx cells cells' Hin Hout.
      destruct (cleaned_provenance _ _ _ _ Hc Hout) as (r & s & Hr0 & Hprep & Hsame & _).
      fold cols in Hprep, Hsame.
      destruct Hprep as (Hf & Hkeep & Hcust & Hdesc). destruct Hsame as [Hf' Hk'].
      assert (r = (idx, cells)) as ->.
      { apply (NoDup_fst_eq (rows df)); try done. simpl in *. congruence. }
      assert (columns out = columns_with "total_amount" cols) as -> by (by destruct Hc).
      rewrite !cell_columns_with by done. unfold cell. split.
      * destruct (select "customer_id" cols) as [|i|] eqn:Hs; try done.
        intros Hnull. injection Hnull as Hnull. f_equal.
        rewrite (Hk' i "customer_id"); [|by apply select_one_lookup|done].
        apply Hcust; [done|]. by rewrite Hnull.
      * destruct (select "description" cols) as [|i|] eqn:Hs; try done.
        intros Hnull. injection Hnull as Hnull. f_equal.
        rewrite (Hk' i "description"); [|by apply select_one_lookup|done].
        apply Hdesc; [done|]. by rewrite Hnull.
    + intros i Hi. destruct Hc as [ic iinv idate iq ip staged vi vq vp nt nq np cols'
            Hc Hi' Hd Hq Hp Hdesc Hprep Evi Evq Evp Fq Fp Ent Lt Lq Lp Cout Fout
            Ho Hj Hcl Hrate Hmiss Hinv].
      fold cols in cols'. subst cols'. rewrite Hc in Hi. injection Hi as <-.
      unfold filled. rewrite Hmiss.
      destruct (select "description" cols) as [|idesc|];
        rewrite ?record_count_lookup_ne by done; by apply record_count_lookup.
    + intros i Hi. destruct Hc as [ic iinv idate iq ip staged vi vq vp nt nq np cols'
            Hc Hi' Hd Hq Hp Hdesc Hprep Evi Evq Evp Fq Fp Ent Lt Lq Lp Cout Fout
            Ho Hj Hcl Hrate Hmiss Hinv].
      fold cols in cols'. subst cols'. unfold filled. rewrite Hmiss, Hi.
      apply record_count_lookup. by rewrite record_count_lookup_ne.
Qed.

(** C6, amended.  In every row of the result the quantity is missing
    or positive, the price is missing or positive, and the invoice does
    not start with [C] or [A]; no row of the result has the invoice
    ["C536367"], and an input row with that invoice has no row of its
    index in the result; the test transactions of the input are counted
    under [invalid_values["test_transactions"]]. *)
Theorem clean_data_canonical_rows df out m :
  clean_data py_str parse_datetime df = Ok (out, m) →
  let cols := std_columns (columns df) in
  (∀ r, r ∈ rows out →
        ∃ q p inv,
          cell (columns out) "quantity" r = Some q ∧ positive_or_missing q ∧
          cell (columns out) "price" r = Some p ∧ positive_or_missing p ∧
          cell (columns out) "invoice" r = Some inv ∧
          is_test_transaction py_str inv = false) ∧
  (∀ r, r ∈ rows out → cell (columns out) "invoice" r ≠ Some (VStr "C536367")) ∧
  (NoDup (map fst (rows df)) →
   ∀ r, r ∈ rows df → cell cols "invoice" r = Some (VStr "C536367") →
        fst r ∉ map fst (rows out)) ∧
  (∀ i, select "invoice" cols = OneColumn i →
        removed "test_transactions" m =
          count_true (map (λ r, is_test_transaction py_str (at_pos i r)) (rows df))).
Proof.
  intros H cols. apply clean_data_cases in H as [(Hr & -> & ->)|[Hr Hc]].
  - rewrite Hr. repeat split.
    + intros r Hin. inversion Hin.
    + intros r Hin. inversion Hin.
    + intros _ r Hin. inversion Hin.
  - assert (∀ r', r' ∈ rows out →
              ∃ r i, r ∈ rows df ∧ fst r = fst r' ∧
                       select "invoice" cols = OneColumn i ∧
                       at_pos i r = at_pos i r' ∧
                       cell (columns out) "invoice" r' = Some (at_pos i r') ∧
                       is_test_transaction py_str (at_pos i r') = false ∧
                       ∃ q p, cell (columns out) "quantity" r' = Some q ∧
                              positive_or_missing q ∧
                              cell (columns out) "price" r' = Some p ∧
                              positive_or_missing p) as Hrow.
    { intros r' Hout.
      destruct (cleaned_provenance _ _ _ _ Hc Hout)
        as (r & s & Hr0 & Hprep & Hsame & Ht & Hq & Hp).
      fold cols in Hprep, Hsame, Ht, Hq, Hp.
      destruct Hprep as (Hf & Hkeep & _). destruct Hsame as [Hf' Hk'].
      destruct Hc as [ic iinv idate iq ip staged vi vq vp nt nq np cols'
            Hc Hi Hd Hq' Hp' Hdesc Hprep Evi Evq Evp Fq Fp Ent Lt Lq Lp Cout Fout
            Ho Hj Hcl Hrate Hmiss Hinv].
      fold cols in cols'. subst cols'.
      pose proof (select_one_lookup _ _ _ Hi) as Li.
      pose proof (select_one_lookup _ _ _ Hq') as Lq'.
      pose proof (select_one_lookup _ _ _ Hp') as Lp'.
      exists r, iinv. rewrite Cout, !cell_columns_with by done.
      rewrite (cell_one _ _ _ _ Hi), (cell_one _ _ _ _ Hq'), (cell_one _ _ _ _ Hp').
      rewrite (Hk' iinv "invoice" Li), (Hk' iq "quantity" Lq'), (Hk' ip "price" Lp') by done.
      repeat split; try done; try congruence.
      - symmetry. by apply (Hkeep iinv "invoice").
      - by apply Ht.
      - exists (at_pos iq s), (at_pos ip s). repeat split; try done.
        + apply le_zero_false. by apply Hq.
        + apply le_zero_false. by apply Hp. }
    split; [|split; [|split]].
    + intros r' Hout.
      destruct (Hrow r' Hout) as (r & i & _ & _ & _ & _ & Hcell & Ht & q & p & Hq & Pq & Hp & Pp).
      exists q, p, (at_pos i r'). done.
    + intros r' Hout Hcell.
      destruct (Hrow r' Hout) as (r & i & _ & _ & _ & _ & Hcell' & Ht & _).
      rewrite Hcell in Hcell'. injection Hcell' as Hcell'. rewrite <- Hcell' in Ht.
      discriminate.
    + intros Hnd r Hin Hcell Hidx.
      apply list_elem_of_In, in_map_iff in Hidx as (r' & Hf & Hout).
      apply list_elem_of_In in Hout.
      destruct (Hrow r' Hout) as (r0 & i & Hr0 & Hf0 & Hsel & Heq & _ & Ht & _).
      assert (r0 = r) as -> by (apply (NoDup_fst_eq (rows df)); try done; congruence).
      rewrite (cell_one _ _ _ _ Hsel) in Hcell. injection Hcell as Hcell.
      rewrite <- Heq, Hcell in Ht. discriminate.
    + intros i Hi. destruct (cleaned_removed _ _ _ Hc) as (i' & Hi' & Hrem & _).
      fold cols in Hi'. rewrite Hi in Hi'. by injection Hi' as <-.
Qed.

Lemma mapM_raise {A B} (f : A → result B) l e :
  mapM f l = Raise e → ∃ a, a ∈ l ∧ f a = Raise e.
Proof.
  induction l as [|a l IH]; simpl; [discriminate|].
  destruct (f a) as [b|e'] eqn:Hb; simpl.
  - destruct (mapM f l) as [bs|e'] eqn:Hm; simpl; [discriminate|].
    intros H. injection H as ->. destruct (IH eq_refl) as (a' & Ha & Hf).
    exists a'. split; [by right|done].
  - intros H. injection H as ->. exists a. split; [by left|done].
Qed.

Lemma le_zero_raise v e : le_zero v = Raise e → not_key_error e.
Proof. destruct v; simpl; intros H; try discriminate; by injection H as <-. Qed.

Lemma mul_cells_raise a b e : mul_cells a b = Raise e → not_key_error e.
Proof. destruct a, b; simpl; intros H; try discriminate; by injection H as <-. Qed.

Lemma to_datetime_raise v e : to_datetime parse_datetime v = Raise e → not_key_error e.
Proof.
  destruct v; simpl; try discriminate;
    destruct (parse_datetime _) as [[?|]|]; intros H; try discriminate; by injection H as <-.
Qed.

Lemma handle_missing_raise col st e :
  handle_missing py_str col st = Raise e → not_key_error e.
Proof.
  destruct st as [df m]. unfold handle_missing.
  destruct (select col (columns df)); try discriminate.
  - destruct (0 <? _)%nat; discriminate.
  - intros H. by injection H as <-.
Qed.

Lemma convert_invoice_date_raise st e :
  convert_invoice_date parse_datetime st = Raise e → not_key_error e.
Proof.
  destruct st as [df m]. unfold convert_invoice_date.
  destruct (select _ (columns df)) as [|i|]; try discriminate.
  - destruct (mapM _ (rows df)) as [|e'] eqn:HM; simpl; [discriminate|].
    intros H. injection H as ->. apply mapM_raise in HM as (r & _ & Hr).
    destruct (to_datetime parse_datetime (at_pos i r)) eqn:Ht; simpl in Hr; [discriminate|].
    injection Hr as ->. by eapply to_datetime_raise.
  - intros H. by injection H as <-.
Qed.

Lemma convert_customer_id_raise st e :
  convert_customer_id py_str st = Raise e → not_key_error e.
Proof.
  destruct st as [df m]. unfold convert_customer_id.
  destruct (select _ (columns df)); try discriminate. intros H. by injection H as <-.
Qed.

Lemma remove_test_transactions_raise st e :
  remove_test_transactions py_str st = Raise e → not_key_error e.
Proof.
  destruct st as [df m]. unfold remove_test_transactions.
  destruct (select _ (columns df)); try discriminate.
  - destruct (existsb _ _); discriminate.
  - intros H. by injection H as <-.
Qed.

Lemma remove_invalid_raise col st e :
  remove_invalid col st = Raise e → not_key_error e.
Proof.
  destruct st as [df m]. unfold remove_invalid.
  destruct (select _ (columns df)) as [|i|ps]; try discriminate.
  - destruct (mapM _ (rows df)) as [check|e'] eqn:HM; simpl.
    + destruct (0 <? _)%nat; discriminate.
    + intros H. injection H as ->. apply mapM_raise in HM as (r & _ & Hr).
      by eapply le_zero_raise.
  - destruct (mapM _ (rows df)) as [check|e'] eqn:HM; simpl.
    + intros H. by injection H as <-.
    + intros H. injection H as ->. apply mapM_raise in HM as (r & _ & Hr).
      apply mapM_raise in Hr as (i & _ & Hi). by eapply le_zero_raise.
Qed.

Lemma add_total_amount_raise st e :
  add_total_amount st = Raise e → not_key_error e.
Proof.
  destruct st as [df m]. unfold add_total_amount.
  destruct (select "quantity" (columns df)) as [|iq|], (select "price" (columns df)) as [|ip|];
    try discriminate; try (intros H; by injection H as <-).
  destruct (mapM _ (rows df)) as [|e'] eqn:HM; simpl; [discriminate|].
  intros H. injection H as ->. apply mapM_raise in HM as (r & _ & Hr).
  destruct (mul_cells _ _) eqn:Hm; simpl in Hr; [discriminate|].
  injection Hr as ->. by eapply mul_cells_raise.
Qed.

(** What [clean_data] raises: the KeyError of the schema check, or an
    error of another class from the steps after it. *)
Lemma clean_data_raise df e :
  clean_data py_str parse_datetime df = Raise e →
  rows df ≠ [] ∧
  (e = KeyError (required_columns ∖ list_to_set (std_columns (columns df))) ∧
   required_columns ∖ list_to_set (C := gset string) (std_columns (columns df)) ≠ ∅
   ∨ not_key_error e ∧
     required_columns ∖ list_to_set (C := gset string) (std_columns (columns df)) = ∅).
Proof.
  unfold clean_data, len.
  destruct (rows df) as [|r0 rs] eqn:Hrows; [discriminate|]. rewrite <- Hrows.
  assert ((length (rows df) =? 0)%nat = false) as -> by (rewrite Hrows; done).
  intros H. split; [by rewrite Hrows|].
  destruct (standardize_columns (df, initial_metrics (length (rows df)))) as [df1 m1] eqn:E1.
  apply standardize_columns_spec in E1 as (C1 & _).
  unfold verify_required, missing_columns in H. simpl fst in H. rewrite C1 in H.
  case_bool_decide as Hreq; cbn [bind] in H; [right|left].
  - split; [|done].
    repeat match type of H with
    | bind ?x _ = Raise _ =>
        let E := fresh "E" in
        destruct x as [?|?] eqn:E; cbn [bind] in H;
        [|injection H as ->;
          eauto using handle_missing_raise, convert_invoice_date_raise,
            convert_customer_id_raise, remove_test_transactions_raise,
            remove_invalid_raise, add_total_amount_raise]
    end.
    discriminate.
  - injection H as <-. done.
Qed.

(** X8.  Whenever [clean_data] returns, whatever it removed, the report
    has [rejected_rows = 0] and [rejection_rate = 0]: the two fields
    are never set after the rows were filtered. *)
Lemma clean_data_rejected_rows df out m :
  clean_data py_str parse_datetime df = Ok (out, m) →
  rejected_rows m = 0%nat ∧ rejection_rate m = 0%Q.
Proof.
  intros H. apply clean_data_cases in H as [(Hr & -> & ->)|[Hr Hc]]; [done|].
  by destruct Hc.
Qed.

(** C1.  On the frame of the test suite [clean_data] removes three of
    the five rows and reports [rejected_rows = 0] and
    [rejection_rate = 0], where [original_rows - cleaned_rows] is 3 and
    the rate rounded to four places is 0.6. *)
Theorem clean_data_reports_no_rejections :
  ∃ out m,
    clean_data py_str parse_datetime sample_data = Ok (out, m) ∧
    original_rows m = 5%nat ∧ cleaned_rows m = 2%nat ∧
    rejected_rows m = 0%nat ∧ rejection_rate m = 0%Q ∧
    (original_rows m - cleaned_rows m = 3)%nat ∧
    py_round (Qmake (Z.of_nat (original_rows m - cleaned_rows m))
                    (Pos.of_nat (original_rows m))) 4 = (3 # 5)%Q.
Proof.
  exists cleaned_sample, sample_report. split; [|by vm_compute].
  vm_compute. reflexivity.
Qed.

(** The schema check on a frame whose labels are strings: the KeyError
    is raised if and only if the frame has rows and a required column
    is absent after the columns were standardised; the error then names
    the absent columns and is the same whatever the rows hold; a frame
    without rows is returned as it is with a report of zeros. *)
Lemma clean_data_schema_check df :
  let missing : gset string :=
    required_columns ∖ list_to_set (std_columns (columns df)) in
  ((∃ cols, clean_data py_str parse_datetime df = Raise (KeyError cols)) ↔
   rows df ≠ [] ∧ missing ≠ ∅) ∧
  (rows df ≠ [] → missing ≠ ∅ →
   ∀ rows', rows' ≠ [] →
     clean_data py_str parse_datetime {| columns := columns df; rows := rows' |}
     = Raise (KeyError missing)) ∧
  (rows df = [] →
   clean_data py_str parse_datetime df
   = Ok (df, {| original_rows := 0; rejected_rows := 0; cleaned_rows := 0;
                rejection_rate := 0; transformations := [];
                missing_values := ∅; invalid_values := ∅ |})).
Proof.
  intros missing.
  assert (∀ rows', rows' ≠ [] → missing ≠ ∅ →
            clean_data py_str parse_datetime {| columns := columns df; rows := rows' |}
            = Raise (KeyError missing)) as Hraise.
  { intros rows' Hne Hmiss. unfold clean_data, len. simpl rows.
    destruct rows' as [|r0 rs]; [done|]. simpl Nat.eqb. cbv iota.
    destruct (standardize_columns _) as [df1 m1] eqn:E1.
    apply standardize_columns_spec in E1 as (C1 & _). simpl in C1.
    unfold verify_required, missing_columns. simpl fst. rewrite C1.
    fold missing. case_bool_decide; [done|]. done. }
  split; [split|split].
  - intros [cols H]. apply clean_data_raise in H as [Hne [[_ Hm]|[Hk _]]]; done.
  - intros [Hne Hm]. exists missing.
    specialize (Hraise (rows df) Hne Hm). by destruct df.
  - intros _ Hm rows' Hne. by apply Hraise.
  - intros Hr. by apply clean_data_empty.
Qed.

(** C8, amended.  [clean_data] raises the KeyError of the schema check if
    and only if the frame has rows, its column labels are strings, and
    a required column is absent after the columns were standardised;
    the error then names the absent columns and is the same whatever
    the rows hold.  A frame with rows whose column index has no string
    labels fails before the check, with the AttributeError of
    [df.columns.str].  A frame without rows is returned as it is with a
    report of zeros, whatever its column index. *)
Theorem clean_data_schema_error b :
  ((∃ cols, clean_data_any py_str parse_datetime b = Raise (KeyError cols)) ↔
   ∃ df, b = StrLabels df ∧ rows df ≠ [] ∧
         required_columns ∖ list_to_set (C := gset string) (std_columns (columns df)) ≠ ∅) ∧
  (∀ df rows', rows' ≠ [] →
     required_columns ∖ list_to_set (C := gset string) (std_columns (columns df)) ≠ ∅ →
     clean_data_any py_str parse_datetime
       (StrLabels {| columns := columns df; rows := rows' |})
     = Raise (KeyError (required_columns ∖ list_to_set (std_columns (columns df))))) ∧
  (∀ index, index ≠ [] →
     clean_data_any py_str parse_datetime (NoStrLabels index) = Raise AttributeError) ∧
  (batch_len b = 0%nat →
   clean_data_any py_str parse_datetime b
   = Ok (b, {| original_rows := 0; rejected_rows := 0; cleaned_rows := 0;
               rejection_rate := 0; transformations := [];
               missing_values := ∅; invalid_values := ∅ |})).
Proof.
  split; [|split; [|split]].
  - destruct b as [df|index]; unfold clean_data_any.
    + destruct (clean_data_schema_check df) as ([H1 H2] & _ & _). split.
      * intros [cols H]. exists df. split; [done|]. apply H1. exists cols.
        destruct (clean_data py_str parse_datetime df) as [st|e]; cbn [bind] in H; [discriminate|by injection H as ->].
      * intros (df' & Heq & Hne & Hm). injection Heq as <-.
        destruct (H2 (conj Hne Hm)) as [cols Hc]. exists cols. by rewrite Hc.
    + split.
      * intros [cols H]. destruct (length index =? 0)%nat; discriminate.
      * intros (df & Heq & _). discriminate.
  - intros df rows' Hne Hm. unfold clean_data_any.
    destruct (clean_data_schema_check {| columns := columns df; rows := rows' |})
      as (_ & H & _).
    simpl in H. by rewrite (H Hne Hm rows' Hne).
  - intros index Hne. unfold clean_data_any. by destruct index.
  - destruct b as [df|index]; unfold clean_data_any, batch_len, len; intros Hlen.
    + assert (rows df = []) as Hr by (by destruct (rows df)).
      by rewrite (clean_data_empty df Hr).
    + by rewrite Hlen.
Qed.

(** ** Properties of the load *)

(** C10.  For an empty frame, whatever its columns, [load_data] returns
    without raising, and all it did on the connection is a commit: no
    column was checked and the watermark was not queried. *)
Theorem load_data_empty_commits conn df full_refresh :
  empty df = true →
  load_data py_str parse_datetime conn df full_refresh = Ok (commit conn) ∧
  executed (commit conn) = executed conn ++ [Commit] ∧
  session (commit conn) = session conn.
Proof. intros H. unfold load_data. rewrite H. done. Qed.

Lemma upper_prefix_spec s :
  ∃ post, s = upper_prefix s +:+ post ∧
          string_forallb is_upper (upper_prefix s) = true ∧ starts_upper post = false.
Proof.
  induction s as [|c s (post & Hs & Hu & Hp)]; simpl.
  - by exists EmptyString.
  - destruct (is_upper c) eqn:Hc.
    + exists post. simpl. rewrite Hc. split; [exact (f_equal (String c) Hs)|done].
    + exists (String c s). simpl. by rewrite Hc.
Qed.

Lemma first_upper_run_some s u :
  first_upper_run s = Some u → first_capital_run s u.
Proof.
  induction s as [|c s IH]; simpl; [discriminate|].
  destruct (is_upper c) eqn:Hc.
  - intros H. injection H as <-.
    destruct (upper_prefix_spec s) as (post & Hs & Hu & Hp).
    exists EmptyString, post. simpl. rewrite Hc, Hu. repeat split; try done.
    exact (f_equal (String c) Hs).
  - intros H. destruct (IH H) as (pre & post & Hs & Hne & Hu & Hpre & Hp).
    exists (String c pre), post. simpl. rewrite Hc. repeat split; try done.
    exact (f_equal (String c) Hs).
Qed.

Lemma first_upper_run_none s :
  first_upper_run s = None ↔ string_forallb (λ c, negb (is_upper c)) s = true.
Proof.
  induction s as [|c s IH]; simpl; [done|].
  destruct (is_upper c); simpl; [done|]. exact IH.
Qed.

Lemma distinct_elem seen vals v : v ∈ distinct seen vals → v ∈ vals ∧ isna v = false.
Proof.
  revert seen. induction vals as [|x vals IH]; intros seen; simpl; [intros H; inversion H|].
  destruct (isna x) eqn:Hx; simpl.
  - intros H. destruct (IH _ H). split; [by right|done].
  - destruct (existsb _ seen).
    + intros H. destruct (IH _ H). split; [by right|done].
    + intros H. apply elem_of_cons in H as [->|H]; [split; [by left|done]|].
      destruct (IH _ H). split; [by right|done].
Qed.

(** C7, amended.  Every product row of the load belongs to a stock
    code of the frame; its description is the first description of the
    group that is not missing, and its category is the first maximal run
    of capitals [A-Z] found anywhere in that description, or ["OTHER"]
    when the description is not a string or holds no capital. *)
Theorem product_category_is_first_capital_run df products :
  product_rows py_str df = Ok products →
  ∀ key p, (key, p) ∈ products →
    ∃ i_stock i_description stock_code,
      select "stock_code" (columns df) = OneColumn i_stock ∧
      select "description" (columns df) = OneColumn i_description ∧
      stock_code ∈ map (at_pos i_stock) (rows df) ∧ isna stock_code = false ∧
      key = sql_key py_str stock_code ∧
      let description :=
        first_notna (map (at_pos i_description) (group i_stock stock_code (rows df))) in
      p_description p = sql_text py_str description ∧
      match description with
      | VStr s =>
          first_capital_run s (category p) ∨
          category p = "OTHER" ∧ string_forallb (λ c, negb (is_upper c)) s = true
      | _ => category p = "OTHER"
      end.
Proof.
  unfold product_rows, position.
  destruct (select "stock_code" (columns df)) as [|i_stock|] eqn:Hs; try discriminate.
  destruct (select "description" (columns df)) as [|i_desc|] eqn:Hd; try discriminate.
  cbn [bind]. intros H. injection H as <-. intros key p Hin.
  apply list_elem_of_In, in_map_iff in Hin as (k & Heq & Hk).
  injection Heq as <- <-. apply list_elem_of_In, distinct_elem in Hk as [Hk Hna].
  exists i_stock, i_desc, k. repeat split; try done. simpl.
  destruct (first_notna _) as [|s|n|x|t]; try done. simpl.
  destruct (first_upper_run s) as [u|] eqn:Hu; simpl.
  - left. by apply first_upper_run_some.
  - right. split; [done|]. by apply first_upper_run_none.
Qed.

(** C4.  On a key that is already in the table the customer upsert adds
    [total_spent] and [total_transactions] to the stored values,
    overwrites [country] and [last_purchase_date], keeps
    [first_purchase_date] and touches no other key; on a new key it
    stores the row.  Loading one purchase of 10.0 and then loading it
    again leaves the customer with [total_spent] 20.0. *)
Theorem upsert_customer_adds_totals :
  (∀ (cs : gmap string Customer) key c old,
      cs !! key = Some old →
      ∃ merged,
        upsert_customer cs (key, c) !! key = Some merged ∧
        total_spent merged = (total_spent old + total_spent c)%Q ∧
        total_transactions merged = (total_transactions old + total_transactions c)%nat ∧
        c_country merged = c_country c ∧
        last_purchase_date merged = last_purchase_date c ∧
        first_purchase_date merged = first_purchase_date old ∧
        ∀ key', key' ≠ key → upsert_customer cs (key, c) !! key' = cs !! key') ∧
  (∀ (cs : gmap string Customer) key c,
      cs !! key = None → upsert_customer cs (key, c) !! key = Some c) ∧
  (∃ conn1 conn2,
      load_data py_str parse_datetime (get_connection empty_store) one_purchase false
      = Ok conn1 ∧
      load_data py_str parse_datetime conn1 one_purchase true = Ok conn2 ∧
      total_spent <$> customers (committed conn1) !! "12345" = Some 10%Q ∧
      total_spent <$> customers (committed conn2) !! "12345" = Some 20%Q).
Proof.
  split; [|split].
  - intros cs key c old Hold. unfold upsert_customer. rewrite Hold.
    eexists. split; [apply lookup_insert_eq|]. simpl. repeat split; try done.
    intros key' Hne. by rewrite lookup_insert_ne.
  - intros cs key c Hnone. unfold upsert_customer. rewrite Hnone. apply lookup_insert_eq.
  - eexists _, _. split; [vm_compute; reflexivity|].
    split; [vm_compute; reflexivity|]. split; by vm_compute.
Qed.

Lemma datetimelike_cells df i :
  select "invoice_date" (columns df) = OneColumn i →
  datetimelike df = Ok tt →
  Forall (λ r, to_datetime parse_datetime (at_pos i r) = Ok (at_pos i r)) (rows df).
Proof.
  unfold datetimelike, position. intros ->. cbn [bind].
  destruct (mapM _ (rows df)) as [l|] eqn:HM; [|discriminate]. intros _.
  apply mapM_Forall2 in HM. clear -HM.
  induction HM as [|r o rs l Hr _ IH]; constructor; [|done].
  destruct (at_pos i r); simpl in *; done.
Qed.

Lemma newer_than_filter max_date df sel i :
  select "invoice_date" (columns df) = OneColumn i →
  Forall (λ r, to_datetime parse_datetime (at_pos i r) = Ok (at_pos i r)) (rows df) →
  newer_than parse_datetime max_date df = Ok sel →
  columns sel = columns df ∧
  rows sel = filter (λ r, after max_date (at_pos i r) = true) (rows df).
Proof.
  unfold newer_than, position. intros -> Hall. cbn [bind].
  destruct (mapM _ (rows df)) as [mask|] eqn:HM; cbn [bind]; [|discriminate].
  intros H. injection H as <-. simpl. split; [done|].
  apply select_rows_filter_pos. apply mapM_Forall2 in HM.
  clear -HM Hall. induction HM as [|r b rs l Hr _ IH]; [constructor|].
  apply Forall_cons in Hall as [Hr0 Hall]. constructor; [|by apply IH].
  rewrite Hr0 in Hr. simpl in Hr. by injection Hr as <-.
Qed.

Lemma after_spec max_date v :
  after max_date v = true ↔ ∃ t, v = VDate t ∧ (max_date < t)%Z.
Proof.
  destruct v as [| | | |t]; simpl; try (split; [discriminate|intros (t' & ? & _); discriminate]).
  rewrite Z.ltb_lt. split.
  - intros H. by exists t.
  - intros (t' & Ht & H). by injection Ht as ->.
Qed.

(** C3.  An incremental [load_data] that finds a watermark and returns
    has loaded exactly the rows whose [invoice_date] is strictly after
    the watermark: a row of the frame is selected if and only if its
    date is a timestamp greater than the watermark, and the selected
    rows are the transactions appended to the store. *)
Theorem load_data_selects_after_watermark conn df conn' watermark :
  empty df = false →
  max_invoice_date (session conn) = Some watermark →
  load_data py_str parse_datetime conn df false = Ok conn' →
  ∃ selected added,
    (∀ r, r ∈ selected ↔
          r ∈ rows df ∧
          ∃ t, cell (columns df) "invoice_date" r = Some (VDate t) ∧ (watermark < t)%Z) ∧
    transaction_rows py_str {| columns := columns df; rows := selected |} = Ok added ∧
    length added = length selected ∧
    transactions (committed conn') = transactions (session conn) ++ added.
Proof.
  intros Hne Hwm. unfold load_data. rewrite Hne.
  case_bool_decide as Hreq; cbn [negb]; [|discriminate].
  unfold incremental, get_max_invoice_date. cbn [negb]. rewrite Hwm.
  destruct (newer_than parse_datetime watermark df) as [sel|] eqn:Hsel; cbn [bind]; [|discriminate].
  destruct (customer_rows py_str sel) as [cs|]; cbn [bind]; [|discriminate].
  destruct (datetimelike df) as [[]|] eqn:Hdt; cbn [bind]; [|discriminate].
  destruct (product_rows py_str sel) as [ps|]; cbn [bind]; [|discriminate].
  destruct (transaction_rows py_str sel) as [ts|] eqn:Hts; cbn [bind]; [|discriminate].
  intros H. injection H as <-.
  assert (∃ i, select "invoice_date" (columns df) = OneColumn i) as [i Hi].
  { unfold datetimelike, position in Hdt.
    destruct (select "invoice_date" (columns df)) as [|i|]; try discriminate. by exists i. }
  destruct (newer_than_filter _ _ _ _ Hi (datetimelike_cells _ _ Hi Hdt) Hsel) as [Hc Hr].
  exists (rows sel), ts. split; [|split; [|split]].
  - intros r. rewrite Hr, list_elem_of_filter, after_spec, (cell_one _ _ _ _ Hi).
    split.
    + intros [(t & Ht & Hlt) Hin]. split; [done|]. exists t. by rewrite Ht.
    + intros [Hin (t & Ht & Hlt)]. split; [|done]. exists t. by injection Ht as ->.
  - rewrite <- Hc. by destruct sel.
  - unfold transaction_rows in Hts.
    repeat match type of Hts with
    | bind ?x _ = Ok _ => destruct x; cbn [bind] in Hts; [|discriminate]
    end.
    apply mapM_Forall2, Forall2_length in Hts. done.
  - simpl. done.
Qed.

(** ** The orchestration *)

(** C2.  A run with [--full-refresh] against a store whose watermark is
    2025-01-01 23:59:59 succeeds and loads only the row of 2025-01-02:
    the row of 2025-01-01 is filtered out by the watermark, because
    [load] calls [load_data] without [full_refresh].  [load_data] with
    [full_refresh] set loads both rows. *)
Theorem full_refresh_run_filters_by_watermark :
  let run := run_pipeline py_str parse_datetime full_refresh_args raw_batch stored in
  max_invoice_date stored = Some 1735775999%Z ∧
  success run = true ∧
  map t_invoice (transactions (database run)) = [Some "INV000"; Some "INV002"] ∧
  ∃ conn,
    load_data py_str parse_datetime (get_connection stored) canonical_batch true = Ok conn ∧
    map t_invoice (transactions (committed conn))
    = [Some "INV000"; Some "INV001"; Some "INV002"].
Proof.
  cbv zeta. split; [by vm_compute|]. split; [by vm_compute|]. split; [by vm_compute|].
  eexists. split; [vm_compute; reflexivity|]. by vm_compute.
Qed.

End Properties.

(** * The properties at concrete inputs *)

Lemma sample_data_cleaned :
  clean_data example_str example_parse sample_data = Ok (cleaned_sample, sample_report).
Proof. vm_compute. reflexivity. Qed.

Lemma anonymous_sale_is_cleaned :
  clean_data example_str example_parse anonymous_sale
  = Ok (anonymous_sale_cleaned, anonymous_sale_report).
Proof. vm_compute. reflexivity. Qed.

Lemma canonical_batch_loaded :
  load_data example_str example_parse (get_connection stored) canonical_batch false
  = Ok after_incremental_load.
Proof. vm_compute. reflexivity. Qed.

(** C5 on the frame of the test suite: 2 + 2 + 1 + 0 = 5. *)
Lemma clean_data_accounts_for_every_row_witness :
  original_rows sample_report = len sample_data ∧
  cleaned_rows sample_report = len cleaned_sample ∧
  (cleaned_rows sample_report + removed "test_transactions" sample_report
   + removed "quantity" sample_report + removed "price" sample_report
   = original_rows sample_report)%nat.
Proof.
  apply (clean_data_accounts_for_every_row example_str example_parse
           sample_data cleaned_sample sample_report).
  vm_compute. reflexivity.
Defined.

(** C9 on a sale without customer and description. *)
Lemma clean_data_fills_missing_values_witness :
  cell (columns anonymous_sale_cleaned) "customer_id"
       (7%nat, [VStr "536370"; VStr "22728"; VStr "UNKNOWN"; VInt 3; VDate 1764599160;
                VFloat (125 # 100); VStr "GUEST"; VStr "France"; VFloat (375 # 100)])
  = Some (VStr "GUEST") ∧
  filled "customer_id" anonymous_sale_report = 1%nat ∧
  filled "description" anonymous_sale_report = 1%nat.
Proof.
  assert (NoDup (map fst (rows anonymous_sale))) as Hnd by apply NoDup_singleton.
  destruct (clean_data_fills_missing_values example_str example_parse
              anonymous_sale anonymous_sale_cleaned anonymous_sale_report
              anonymous_sale_is_cleaned) as (Hrow & Hc & Hd).
  split; [|split].
  - refine (proj1 (Hrow Hnd 7%nat _ _ _ _) _).
    + apply list_elem_of_singleton. reflexivity.
    + apply list_elem_of_singleton. reflexivity.
    + reflexivity.
  - exact (Hc 6%nat eq_refl).
  - exact (Hd 2%nat eq_refl).
Defined.

(** C6, amended, on the frame of the test suite: the cancellation of
    index 2 is gone and two test transactions are counted. *)
Lemma clean_data_canonical_rows_witness :
  (2%nat ∉ map fst (rows cleaned_sample)) ∧
  removed "test_transactions" sample_report = 2%nat.
Proof.
  destruct (clean_data_canonical_rows example_str example_parse
              sample_data cleaned_sample sample_report sample_data_cleaned)
    as (_ & _ & Hgone & Hcount).
  assert (NoDup (map fst (rows sample_data))) as Hnd.
  { apply (bool_decide_unpack _). vm_compute. exact I. }
  split.
  - refine (Hgone Hnd (2%nat, [VStr "C536367"; VStr "POST"; VStr "POSTAGE"; VInt 1;
                               VDate 1764599520; VFloat 0; VNull; VStr "UK"]) _ eq_refl).
    apply list_elem_of_further, list_elem_of_further, list_elem_of_here.
  - rewrite (Hcount 0%nat eq_refl). reflexivity.
Defined.

(** C8 as stated fails: a frame with two rows and a column index without
    string labels (it has no column at all) is not empty and has none
    of the required columns, and [clean_data] raises the AttributeError
    of [df.columns.str], not the KeyError of the schema check. *)
Lemma schema_error_needs_string_labels :
  batch_len (NoStrLabels [0%nat; 1%nat]) ≠ 0%nat ∧
  clean_data_any example_str example_parse (NoStrLabels [0%nat; 1%nat])
  = Raise AttributeError ∧
  ¬ ∃ cols, clean_data_any example_str example_parse (NoStrLabels [0%nat; 1%nat])
            = Raise (KeyError cols).
Proof.
  split; [done|]. split; [reflexivity|]. intros [cols H]. discriminate.
Qed.

(** C6 as stated fails: a sale whose quantity is missing stays in the
    result, and a missing quantity is not greater than zero. *)
Lemma canonical_rows_can_lack_quantity :
  ∃ out m r,
    clean_data example_str example_parse missing_quantity = Ok (out, m) ∧
    r ∈ rows out ∧
    cell (columns out) "quantity" r = Some VNull ∧ ¬ positive VNull.
Proof.
  eexists _, _, _. split; [vm_compute; reflexivity|].
  split; [apply list_elem_of_singleton; reflexivity|].
  split; [reflexivity|]. intros [].
Qed.

(** C7, amended, on the products of the test suite. *)
Lemma product_category_is_first_capital_run_witness :
  ∃ i_stock i_description stock_code,
    select "stock_code" (columns canonical_batch) = OneColumn i_stock ∧
    select "description" (columns canonical_batch) = OneColumn i_description ∧
    stock_code ∈ map (at_pos i_stock) (rows canonical_batch) ∧
    isna stock_code = false ∧
    "PROD01" = sql_key example_str stock_code ∧
    let description :=
      first_notna (map (at_pos i_description)
                       (group i_stock stock_code (rows canonical_batch))) in
    Some "Product 1" = sql_text example_str description ∧
    match description with
    | VStr s =>
        first_capital_run s "P" ∨
        "P" = "OTHER" ∧ string_forallb (λ c, negb (is_upper c)) s = true
    | _ => "P" = "OTHER"
    end.
Proof.
  refine (product_category_is_first_capital_run example_str canonical_batch
            sample_products _ "PROD01"
            {| p_description := Some "Product 1"; category := "P";
               p_schema_version := "1.0" |} _).
  - vm_compute. reflexivity.
  - apply elem_of_cons. left. reflexivity.
Defined.

(** C7 as stated fails: the description ["Product 1"] starts with the
    alphabetic run ["Product"], and its category is ["P"]; the
    description ["12 PENCILS"] starts with no letter, and its category
    is ["PENCILS"]. *)
Lemma category_is_not_leading_run :
  product_rows example_str canonical_batch = Ok sample_products ∧
  (∃ p, ("PROD01", p) ∈ sample_products ∧
        p_description p = Some "Product 1" ∧ category p = "P") ∧
  category_by_leading_run (VStr "Product 1") = "Product" ∧
  extract_category (VStr "12 PENCILS") = "PENCILS" ∧
  category_by_leading_run (VStr "12 PENCILS") = "OTHER".
Proof.
  split; [vm_compute; reflexivity|]. split; [|by vm_compute].
  eexists. split; [apply elem_of_cons; left; reflexivity|]. done.
Qed.

(** C3 on the scenario of the test suite: watermark 2025-01-01 23:59:59,
    rows dated 2025-01-01 00:00:00 and 2025-01-02 00:00:00. *)
Lemma load_data_selects_after_watermark_witness :
  ∃ selected added,
    (∀ r, r ∈ selected ↔
          r ∈ rows canonical_batch ∧
          ∃ t, cell (columns canonical_batch) "invoice_date" r = Some (VDate t) ∧
               (1735775999 < t)%Z) ∧
    transaction_rows example_str {| columns := columns canonical_batch; rows := selected |}
    = Ok added ∧
    length added = length selected ∧
    transactions (committed after_incremental_load)
    = transactions (session (get_connection stored)) ++ added.
Proof.
  apply (load_data_selects_after_watermark example_str example_parse
           (get_connection stored) canonical_batch after_incremental_load 1735775999%Z).
  - reflexivity.
  - reflexivity.
  - exact canonical_batch_loaded.
Defined.

(** C10 on a frame that has no column at all. *)
Lemma load_data_empty_commits_witness :
  load_data example_str example_parse (get_connection stored) no_columns false
  = Ok (commit (get_connection stored)) ∧
  executed (commit (get_connection stored)) = executed (get_connection stored) ++ [Commit] ∧
  session (commit (get_connection stored)) = session (get_connection stored).
Proof.
  apply (load_data_empty_commits example_str example_parse
           (get_connection stored) no_columns false).
  reflexivity.
Defined.

(** C4 on a customer who spent 10.0 and spends 10.0 again. *)
Lemma upsert_customer_adds_totals_witness :
  ∃ merged,
    upsert_customer {[ "12345" := ten_spent ]} ("12345", ten_spent) !! "12345"
    = Some merged ∧
    total_spent merged = (total_spent ten_spent + total_spent ten_spent)%Q ∧
    total_transactions merged
    = (total_transactions ten_spent + total_transactions ten_spent)%nat ∧
    c_country merged = c_country ten_spent ∧
    last_purchase_date merged = last_purchase_date ten_spent ∧
    first_purchase_date merged = first_purchase_date ten_spent ∧
    ∀ key', key' ≠ "12345" →
      upsert_customer {[ "12345" := ten_spent ]} ("12345", ten_spent) !! key'
      = ({[ "12345" := ten_spent ]} : gmap string Customer) !! key'.
Proof.
  apply (proj1 (upsert_customer_adds_totals example_str example_parse)
           {[ "12345" := ten_spent ]} "12345" ten_spent ten_spent).
  reflexivity.
Defined.

(** * Further properties *)

(** ** The column names *)

Lemma lstrip_underscore_cons c s :
  lstrip_underscore (String c s)
  = if bool_decide (c = "_"%char) then lstrip_underscore s else String c s.
Proof.
  case_bool_decide as Hc; [by subst|].
  destruct c as [[] [] [] [] [] [] [] []]; try done.
Qed.

Lemma plain_not_upper c : is_lower c || is_digit c = true → is_upper c = false.
Proof.
  unfold is_lower, is_digit, is_upper. generalize (nat_of_ascii c). intros n H.
  destruct (65 <=? n)%nat eqn:E1, (n <=? 90)%nat eqn:E2; simpl; try done. exfalso.
  apply Nat.leb_le in E1, E2.
  apply orb_true_iff in H as [H|H]; apply andb_true_iff in H as [H1 H2];
    apply Nat.leb_le in H1, H2; lia.
Qed.

Lemma tidy_replace_runs b s : tidy b (replace_runs b s) = true.
Proof.
  revert b. induction s as [|c s IH]; intros b; simpl; [done|].
  destruct (is_lower c || is_digit c) eqn:Hc; simpl.
  - by rewrite Hc.
  - destruct b; [done|]. simpl. by rewrite IH.
Qed.

Lemma tidy_lower b s : tidy b s = true → lower s = s.
Proof.
  revert b. induction s as [|c s IH]; intros b; simpl; [done|].
  destruct (is_lower c || is_digit c) eqn:Hc.
  - intros H. unfold lower_char. rewrite (plain_not_upper _ Hc). f_equal. by eapply IH.
  - intros H. apply andb_true_iff in H as [H1 H]. apply andb_true_iff in H1 as [H1 _].
    apply bool_decide_eq_true in H1 as ->. simpl. f_equal. by eapply IH.
Qed.

Lemma tidy_replace_runs_id b s : tidy b s = true → replace_runs b s = s.
Proof.
  revert b. induction s as [|c s IH]; intros b; simpl; [done|].
  destruct (is_lower c || is_digit c) eqn:Hc.
  - intros H. f_equal. by apply IH.
  - intros H. apply andb_true_iff in H as [H1 H]. apply andb_true_iff in H1 as [H1 H2].
    apply bool_decide_eq_true in H1 as ->. destruct b; [done|]. f_equal. by apply IH.
Qed.

Lemma tidy_weaken s : tidy true s = true → tidy false s = true.
Proof.
  destruct s as [|c s]; simpl; [done|].
  destruct (is_lower c || is_digit c); [done|]. rewrite andb_false_r. done.
Qed.

Lemma tidy_lstrip b s : tidy b s = true → tidy true (lstrip_underscore s) = true.
Proof.
  revert b. induction s as [|c s IH]; intros b; [done|].
  rewrite lstrip_underscore_cons. case_bool_decide as Hc.
  - subst c. simpl. intros H. apply andb_true_iff in H as [_ H]. by eapply IH.
  - simpl. destruct (is_lower c || is_digit c); [done|].
    rewrite (bool_decide_eq_false_2 _ Hc). done.
Qed.

Lemma tidy_lstrip_id s : tidy true s = true → lstrip_underscore s = s.
Proof.
  destruct s as [|c s]; [done|]. rewrite lstrip_underscore_cons.
  case_bool_decide as Hc; [|done]. subst c. simpl. done.
Qed.

Lemma tidy_rstrip b s : tidy b s = true → tidy b (rstrip_underscore s) = true.
Proof.
  revert b. induction s as [|c s IH]; intros b; simpl; [done|].
  destruct (is_lower c || is_digit c) eqn:Hc.
  - intros H. specialize (IH _ H).
    destruct (rstrip_underscore s) as [|d t]; [case_bool_decide|]; simpl; rewrite ?Hc; done.
  - intros H. apply andb_true_iff in H as [H1 H]. apply andb_true_iff in H1 as [H1 H2].
    apply bool_decide_eq_true in H1. subst c. specialize (IH _ H).
    destruct b; [done|].
    destruct (rstrip_underscore s) as [|d t]; [done|]. simpl in *. done.
Qed.

Lemma rstrip_underscore_idemp s :
  rstrip_underscore (rstrip_underscore s) = rstrip_underscore s.
Proof.
  induction s as [|c s IH]; simpl; [done|].
  destruct (rstrip_underscore s) as [|d t] eqn:Hr.
  - case_bool_decide as Hc; simpl; [done|]. by rewrite (bool_decide_eq_false_2 _ Hc).
  - change (rstrip_underscore (String c (String d t))) with
      (match rstrip_underscore (String d t) with
       | EmptyString => if bool_decide (c = "_"%char) then EmptyString else String c EmptyString
       | t' => String c t'
       end).
    by rewrite IH.
Qed.

Lemma normalize_label_tidy s : tidy true (normalize_label s) = true.
Proof.
  unfold normalize_label, strip_underscore.
  apply tidy_rstrip. eapply tidy_lstrip. apply tidy_replace_runs.
Qed.

Lemma tidy_normalize_label s : tidy true s = true → rstrip_underscore s = s → normalize_label s = s.
Proof.
  intros Ht Hr. unfold normalize_label, strip_underscore.
  rewrite (tidy_lower _ _ Ht), (tidy_replace_runs_id _ _ (tidy_weaken _ Ht)),
    (tidy_lstrip_id _ Ht). done.
Qed.

Lemma normalize_label_idemp s : normalize_label (normalize_label s) = normalize_label s.
Proof.
  apply tidy_normalize_label; [apply normalize_label_tidy|].
  unfold normalize_label, strip_underscore. apply rstrip_underscore_idemp.
Qed.

Lemma renamed_cols_lookup cols acc c :
  renamed_cols cols acc !! c =
    match column_mapping !! c with
    | Some new_col =>
        if bool_decide (c ∈ cols) && negb (bool_decide (c = new_col)) then Some new_col
        else acc !! c
    | None => acc !! c
    end.
Proof.
  revert acc. induction cols as [|col cols IH]; intros acc; cbn [renamed_cols].
  - rewrite (bool_decide_eq_false_2 (c ∈ [])) by apply not_elem_of_nil.
    by destruct (column_mapping !! c).
  - destruct (decide (c = col)) as [->|Hne].
    + rewrite (bool_decide_eq_true_2 (col ∈ col :: cols)) by (by left).
      destruct (column_mapping !! col) as [new_col|] eqn:Hm; [|by rewrite IH].
      destruct (decide (col = new_col)) as [Hsame|Hdiff].
      * rewrite !(bool_decide_eq_true_2 _ Hsame), IH, (bool_decide_eq_true_2 _ Hsame).
        by rewrite andb_false_r.
      * rewrite !(bool_decide_eq_false_2 _ Hdiff), IH, (bool_decide_eq_false_2 _ Hdiff).
        cbn [andb negb]. rewrite andb_true_r. case_bool_decide; [done|].
        by rewrite lookup_insert_eq.
    + assert (bool_decide (c ∈ col :: cols) = bool_decide (c ∈ cols)) as ->.
      { apply bool_decide_ext. rewrite elem_of_cons. split; [by intros [?|?]|by right]. }
      destruct (column_mapping !! col) as [new_col|] eqn:Hm; [|by rewrite IH].
      destruct (bool_decide (col = new_col)); rewrite IH; [done|].
      rewrite lookup_insert_ne by done. done.
Qed.

Lemma std_columns_map cols : std_columns cols = map std_label cols.
Proof.
  unfold std_columns, rename. rewrite map_map. apply map_ext_in.
  intros c Hc. unfold std_label. cbv zeta. rewrite renamed_cols_lookup, lookup_empty.
  destruct (column_mapping !! normalize_label c) as [new_col|] eqn:Hm; [|done].
  rewrite bool_decide_eq_true_2.
  2: { apply list_elem_of_In, in_map, Hc. }
  cbn [andb]. case_bool_decide as Hsame; cbn [negb from_option id]; [by rewrite Hsame|done].
Qed.

Lemma column_mapping_values c new_col :
  column_mapping !! c = Some new_col →
  normalize_label new_col = new_col ∧ column_mapping !! new_col = Some new_col.
Proof.
  intros H. apply elem_of_list_to_map_2 in H.
  repeat (apply elem_of_cons in H as [H|H]; [injection H as -> ->; by vm_compute|]).
  inversion H.
Qed.

Lemma std_label_idemp c : std_label (std_label c) = std_label c.
Proof.
  unfold std_label. cbv zeta.
  destruct (column_mapping !! normalize_label c) as [new_col|] eqn:Hm; cbn [from_option id].
  - destruct (column_mapping_values _ _ Hm) as [-> ->]. done.
  - by rewrite normalize_label_idemp, Hm.
Qed.

Lemma std_columns_idemp cols : std_columns (std_columns cols) = std_columns cols.
Proof. rewrite !std_columns_map, map_map. apply map_ext. intros c. apply std_label_idemp. Qed.

(** X1.  Standardising the column names is idempotent: a second pass of
    step 1 of [clean_data] over the labels it produced changes none of
    them; the normalisation by lower-casing, replacing and stripping is
    idempotent on every label; and every label of a standardised header
    is its own standard form. *)
Theorem std_columns_idempotent cols :
  std_columns (std_columns cols) = std_columns cols ∧
  (∀ c, normalize_label (normalize_label c) = normalize_label c) ∧
  (∀ c, c ∈ std_columns cols → std_columns [c] = [c]).
Proof.
  split; [|split].
  - apply std_columns_idemp.
  - apply normalize_label_idemp.
  - intros c Hc. rewrite std_columns_map in Hc.
    apply list_elem_of_In, in_map_iff in Hc as (c0 & <- & _).
    rewrite std_columns_map. cbn [map]. by rewrite std_label_idemp.
Qed.

(** ** The rows of a cleaned frame *)

Section CleaningSteps.

Variable py_str : value → string.
Variable parse_datetime : value → option (option Z).

(** The states a successful run of [clean_data] goes through. *)
Lemma clean_data_steps df out m :
  rows df ≠ [] → clean_data py_str parse_datetime df = Ok (out, m) →
  ∃ st1 st2 st3 st4 st5 st6 st7 st8 st9,
    standardize_columns (df, initial_metrics (len df)) = st1 ∧
    missing_columns (fst st1) = ∅ ∧
    handle_missing py_str "customer_id" st1 = Ok st2 ∧
    handle_missing py_str "description" st2 = Ok st3 ∧
    convert_invoice_date parse_datetime st3 = Ok st4 ∧
    convert_customer_id py_str st4 = Ok st5 ∧
    remove_test_transactions py_str st5 = Ok st6 ∧
    remove_invalid "quantity" st6 = Ok st7 ∧
    remove_invalid "price" st7 = Ok st8 ∧
    add_total_amount st8 = Ok st9 ∧
    finalize st9 = (out, m).
Proof.
  intros Hne. unfold clean_data.
  assert ((len df =? 0)%nat = false) as ->.
  { unfold len. destruct (rows df); done. }
  unfold verify_required.
  set (st1 := standardize_columns (df, initial_metrics (len df))).
  case_bool_decide as Hreq; cbn [bind]; [|discriminate].
  destruct (handle_missing py_str "customer_id" st1) as [st2|] eqn:E2; cbn [bind]; [|discriminate].
  destruct (handle_missing py_str "description" st2) as [st3|] eqn:E3; cbn [bind]; [|discriminate].
  destruct (convert_invoice_date parse_datetime st3) as [st4|] eqn:E4; cbn [bind]; [|discriminate].
  destruct (convert_customer_id py_str st4) as [st5|] eqn:E5; cbn [bind]; [|discriminate].
  destruct (remove_test_transactions py_str st5) as [st6|] eqn:E6; cbn [bind]; [|discriminate].
  destruct (remove_invalid "quantity" st6) as [st7|] eqn:E7; cbn [bind]; [|discriminate].
  destruct (remove_invalid "price" st7) as [st8|] eqn:E8; cbn [bind]; [|discriminate].
  destruct (add_total_amount st8) as [st9|] eqn:E9; cbn [bind]; [|discriminate].
  intros H. injection H as H.
  exists st1, st2, st3, st4, st5, st6, st7, st8, st9. done.
Qed.

Lemma astype_str_idemp v :
  astype_str py_str (astype_str py_str v) = astype_str py_str v.
Proof. by destruct v. Qed.

Lemma handle_missing_rows col df m df' m' :
  handle_missing py_str col (df, m) = Ok (df', m') →
  columns df' = columns df ∧
  Forall2 (λ r r',
             same_except (columns df) col r r' ∧
             ∀ i, select col (columns df) = OneColumn i →
                  if bool_decide (col = "customer_id")
                  then astype_str py_str (at_pos i r')
                       = astype_str py_str (fillna (VStr "GUEST") (at_pos i r))
                  else at_pos i r' = fillna (VStr "UNKNOWN") (at_pos i r))
          (rows df) (rows df').
Proof.
  unfold handle_missing. destruct (select col (columns df)) as [|i|ps] eqn:Hsel.
  - intros H. injection H as <- <-. split; [done|].
    apply Forall_Forall2_diag, Forall_forall. intros r _.
    split; [apply same_except_refl|]. intros i Hi. discriminate.
  - apply select_one_lookup in Hsel as Hi.
    destruct (0 <? _)%nat eqn:Hn; intros H; injection H as <- <-; simpl; (split; [done|]).
    + apply Forall2_fmap_r, Forall_Forall2_diag, Forall_forall. intros r _.
      split; [by apply same_except_set_pos|].
      intros i' Hi'. injection Hi' as <-. unfold update_at. rewrite at_pos_set_pos.
      case_decide; [|done]. case_bool_decide; [apply astype_str_idemp|done].
    + apply Forall_Forall2_diag, Forall_forall. intros r Hr.
      split; [apply same_except_refl|].
      intros i' Hi'. injection Hi' as <-. apply Nat.ltb_ge in Hn.
      assert (isna (at_pos i r) = false) as Hna.
      { apply (count_true_zero_all (λ r, isna (at_pos i r)) (rows df)); [lia|done]. }
      unfold fillna. rewrite Hna. by case_bool_decide.
  - discriminate.
Qed.

Lemma convert_invoice_date_rows df m df' m' :
  convert_invoice_date parse_datetime (df, m) = Ok (df', m') →
  columns df' = columns df ∧
  Forall2 (λ r r',
             same_except (columns df) "invoice_date" r r' ∧
             ∀ i, select "invoice_date" (columns df) = OneColumn i →
                  to_datetime parse_datetime (at_pos i r) = Ok (at_pos i r'))
          (rows df) (rows df').
Proof.
  unfold convert_invoice_date.
  destruct (select "invoice_date" (columns df)) as [|i|ps] eqn:Hsel.
  - intros H. injection H as <- <-. split; [done|].
    apply Forall_Forall2_diag, Forall_forall. intros r _.
    split; [apply same_except_refl|]. intros i Hi. discriminate.
  - apply select_one_lookup in Hsel as Hi.
    destruct (mapM _ (rows df)) as [rows'|] eqn:HM; simpl; [|discriminate].
    intros H. injection H as <- <-. simpl. split; [done|].
    apply mapM_Forall2 in HM. eapply Forall2_impl; [exact HM|].
    intros r r' Hr. simpl in Hr.
    destruct (to_datetime parse_datetime (at_pos i r)) as [v|] eqn:Hv; simpl in Hr; [|discriminate].
    injection Hr as <-. split; [by apply same_except_set_pos|].
    intros i' Hi'. injection Hi' as <-. rewrite at_pos_set_pos. by case_decide.
  - discriminate.
Qed.

Lemma remove_test_transactions_rows df m df' m' :
  remove_test_transactions py_str (df, m) = Ok (df', m') →
  columns df' = columns df ∧
  ∃ keep : row → bool, rows df' = filter (λ r, keep r = true) (rows df).
Proof.
  intros H. apply remove_test_transactions_spec in H as (C & _ & _ & _ & S).
  split; [done|].
  destruct (select "invoice" (columns df)) as [|i|ps]; [| |done].
  - destruct S as [-> _]. exists (λ _, true). symmetry. apply filter_all.
    induction (rows df) as [|r l IH]; [done|]. rewrite filter_cons. simpl. by rewrite IH.
  - destruct S as (-> & _). exists (λ r, negb (is_test_transaction py_str (at_pos i r))).
    apply list_filter_iff. intros r. by destruct (is_test_transaction _ _).
Qed.

Lemma remove_invalid_rows col df m df' m' :
  remove_invalid col (df, m) = Ok (df', m') →
  columns df' = columns df ∧
  ∃ keep : row → bool, rows df' = filter (λ r, keep r = true) (rows df).
Proof.
  intros H. apply remove_invalid_spec in H as (C & _ & _ & _ & S).
  split; [done|].
  destruct (select col (columns df)) as [|i|ps]; [| |done].
  - destruct S as [-> _]. exists (λ _, true). symmetry. apply filter_all.
    induction (rows df) as [|r l IH]; [done|]. rewrite filter_cons. simpl. by rewrite IH.
  - destruct S as (_ & -> & _). exists (λ r, negb (le_zero_flag (at_pos i r))).
    apply list_filter_iff. intros r. by destruct (le_zero_flag _).
Qed.

Lemma at_pos_assign_column c cols v r j :
  columns_with c cols !! j = Some c → at_pos j (assign_column c cols v r) = v.
Proof.
  unfold columns_with, assign_column. case_bool_decide as Hin.
  - intros Hj.
    assert (j ∈ positions_from c cols 0) as Hp.
    { apply positions_from_spec. rewrite Nat.sub_0_r. split; [lia|done]. }
    destruct (positions_from c cols 0) as [|p ps]; [inversion Hp|].
    rewrite at_pos_foldr_set_pos. by case_decide.
  - intros Hj. apply lookup_app_Some in Hj as [Hj|[Hlen Hj]].
    + exfalso. apply Hin. by eapply list_elem_of_lookup_2.
    + assert (j = length cols) as ->.
      { destruct (j - length cols)%nat as [|k] eqn:Hk; [lia|]. simpl in Hj. by destruct k. }
      destruct (positions_from c cols 0) as [|p ps] eqn:Hp.
      * rewrite at_pos_set_pos. by case_decide.
      * exfalso. apply Hin.
        assert (p ∈ positions_from c cols 0) as Hp' by (rewrite Hp; by left).
        apply positions_from_spec in Hp' as [_ Hp']. by eapply list_elem_of_lookup_2.
Qed.

Lemma add_total_amount_rows df m df' m' iq ip :
  select "quantity" (columns df) = OneColumn iq →
  select "price" (columns df) = OneColumn ip →
  add_total_amount (df, m) = Ok (df', m') →
  columns df' = columns_with "total_amount" (columns df) ∧
  Forall2 (λ r r',
             same_except (columns df) "total_amount" r r' ∧
             ∀ j, columns df' !! j = Some "total_amount" →
                  mul_cells (at_pos iq r) (at_pos ip r) = Ok (at_pos j r'))
          (rows df) (rows df').
Proof.
  unfold add_total_amount. intros -> ->.
  destruct (mapM _ (rows df)) as [rows'|] eqn:HM; simpl; [|discriminate].
  intros H. injection H as <- <-. simpl. split; [done|].
  apply mapM_Forall2 in HM. eapply Forall2_impl; [exact HM|].
  intros r r' Hr. simpl in Hr.
  destruct (mul_cells (at_pos iq r) (at_pos ip r)) as [v|]; simpl in Hr; [|discriminate].
  injection Hr as <-. split; [apply assign_column_same_except|].
  intros j Hj. by rewrite at_pos_assign_column.
Qed.

Lemma filter_filter_elem {A} (P : A → Prop) `{!∀ a, Decision (P a)} (l : list A) (a : A) :
  a ∈ filter P l → a ∈ l.
Proof. intros Hin. by apply list_elem_of_filter in Hin as [_ Hin]. Qed.

(** What [clean_data] makes of a row that it keeps. *)
Lemma clean_data_rows df out m r' :
  rows df ≠ [] → clean_data py_str parse_datetime df = Ok (out, m) → r' ∈ rows out →
  let cols := std_columns (columns df) in
  columns out = columns_with "total_amount" cols ∧
  ∃ r, r ∈ rows df ∧ fst r' = fst r ∧
    (∀ j c, cols !! j = Some c →
            c ≠ "customer_id" → c ≠ "description" → c ≠ "invoice_date" →
            c ≠ "total_amount" → at_pos j r' = at_pos j r) ∧
    (∀ i, select "customer_id" cols = OneColumn i →
          at_pos i r' = astype_str py_str (fillna (VStr "GUEST") (at_pos i r))) ∧
    (∀ i, select "description" cols = OneColumn i →
          at_pos i r' = fillna (VStr "UNKNOWN") (at_pos i r)) ∧
    (∀ i, select "invoice_date" cols = OneColumn i →
          to_datetime parse_datetime (at_pos i r) = Ok (at_pos i r')) ∧
    (∀ iq ip j, select "quantity" cols = OneColumn iq → select "price" cols = OneColumn ip →
                columns out !! j = Some "total_amount" →
                mul_cells (at_pos iq r') (at_pos ip r') = Ok (at_pos j r')).
Proof.
  intros Hne Hclean Hout cols.
  pose proof (clean_data_nonempty py_str parse_datetime _ _ _ Hne Hclean) as Hc.
  destruct Hc as [ic iinv idate iq ip staged vi vq vp nt nq np cols'
            Hic Hiinv Hidate Hiq Hip _ _ _ _ _ _ _ _ _ _ _ Cout _ _ _ _ _ _ _].
  fold cols in cols'. subst cols'.
  destruct (clean_data_steps _ _ _ Hne Hclean)
    as ([df1 m1] & [df2 m2] & [df3 m3] & [df4 m4] & [df5 m5] & [df6 m6] & [df7 m7]
        & [df8 m8] & [df9 m9] & E1 & _ & E2 & E3 & E4 & E5 & E6 & E7 & E8 & E9 & Efin).
  apply standardize_columns_spec in E1 as (C1 & R1 & _). fold cols in C1.
  apply handle_missing_rows in E2 as [C2 F2]. rewrite C1 in C2, F2.
  apply handle_missing_rows in E3 as [C3 F3]. rewrite C2 in C3, F3.
  apply convert_invoice_date_rows in E4 as [C4 F4]. rewrite C3 in C4, F4.
  apply convert_customer_id_spec in E5 as (C5 & _ & _ & _ & _ & F5). rewrite C4 in C5, F5.
  apply remove_test_transactions_rows in E6 as (C6 & k6 & R6). rewrite C5 in C6.
  apply remove_invalid_rows in E7 as (C7 & k7 & R7). rewrite C6 in C7.
  apply remove_invalid_rows in E8 as (C8 & k8 & R8). rewrite C7 in C8.
  apply (add_total_amount_rows _ _ _ _ iq ip) in E9 as [C9 F9]; [|by rewrite C8..].
  rewrite C8 in C9, F9.
  unfold finalize in Efin. injection Efin as <- _.
  split; [done|].
  destruct (Forall2_elem_r _ _ _ _ F9 Hout) as (s & Hs & [[Hf9 K9] V9]).
  rewrite R8 in Hs. apply filter_filter_elem in Hs.
  rewrite R7 in Hs. apply filter_filter_elem in Hs.
  rewrite R6 in Hs. apply filter_filter_elem in Hs.
  destruct (Forall2_elem_r _ _ _ _ F5 Hs) as (r4 & Hr4 & [[Hf5 K5] V5]).
  destruct (Forall2_elem_r _ _ _ _ F4 Hr4) as (r3 & Hr3 & [[Hf4 K4] V4]).
  destruct (Forall2_elem_r _ _ _ _ F3 Hr3) as (r2 & Hr2 & [[Hf3 K3] V3]).
  destruct (Forall2_elem_r _ _ _ _ F2 Hr2) as (r1 & Hr1 & [[Hf2 K2] V2]).
  rewrite R1 in Hr1. exists r1. split; [done|]. split; [congruence|].
  split; [|split; [|split; [|split]]].
  - intros j c Hj N1 N2 N3 N4.
    rewrite (K9 j c Hj N4), (K5 j c Hj N1), (K4 j c Hj N3), (K3 j c Hj N2), (K2 j c Hj N1).
    done.
  - intros i Hi. pose proof (select_one_lookup _ _ _ Hi) as Li.
    rewrite (K9 i _ Li), (V5 i Hi) by done.
    rewrite (K4 i _ Li), (K3 i _ Li) by done.
    specialize (V2 i Hi). by rewrite bool_decide_eq_true_2 in V2.
  - intros i Hi. pose proof (select_one_lookup _ _ _ Hi) as Li.
    rewrite (K9 i _ Li), (K5 i _ Li), (K4 i _ Li) by done.
    specialize (V3 i Hi). rewrite bool_decide_eq_false_2 in V3 by done.
    rewrite V3, (K2 i _ Li) by done. done.
  - intros i Hi. pose proof (select_one_lookup _ _ _ Hi) as Li.
    rewrite (K9 i _ Li), (K5 i _ Li) by done.
    rewrite <- (V4 i Hi), (K3 i _ Li), (K2 i _ Li) by done. done.
  - intros iq' ip' j Hq Hp Hj. rewrite Hiq in Hq. rewrite Hip in Hp.
    injection Hq as <-. injection Hp as <-.
    rewrite (K9 iq "quantity"), (K9 ip "price"); try done; try by apply select_one_lookup.
    by apply V9.
Qed.

End CleaningSteps.

Section CleaningProperties.

Variable py_str : value → string.
Variable parse_datetime : value → option (option Z).

Lemma to_datetime_value v v' :
  to_datetime parse_datetime v = Ok v' → timestamp_or_missing v' = true.
Proof.
  destruct v; simpl; try (intros H; by injection H as <-);
    destruct (parse_datetime _) as [[t|]|]; intros H; try discriminate; by injection H as <-.
Qed.

Lemma to_datetime_timestamp v :
  timestamp_or_missing v = true → to_datetime parse_datetime v = Ok v.
Proof. by destruct v. Qed.

Lemma mul_cells_value a b v : mul_cells a b = Ok v → numeric_or_missing v = true.
Proof. destruct a, b; simpl; intros H; try discriminate; by injection H as <-. Qed.

Lemma clean_data_rows_of_empty df out m :
  clean_data py_str parse_datetime df = Ok (out, m) → rows df = [] → rows out = [].
Proof. intros H Hr. rewrite clean_data_empty in H by done. by injection H as <- _. Qed.

(** X2.  The cells that [clean_data] rewrites, in every row it keeps:
    the customer is the string it was, ["GUEST"] where it was missing
    and [str()] of any other value; the description is what it was and
    ["UNKNOWN"] where it was missing; the invoice date is what
    [pd.to_datetime] makes of the cell, a timestamp or a missing value. *)
Theorem clean_data_normalises_cells df out m :
  clean_data py_str parse_datetime df = Ok (out, m) →
  let cols := std_columns (columns df) in
  ∀ r', r' ∈ rows out →
    ∃ r, r ∈ rows df ∧ fst r' = fst r ∧
      (∀ i, select "customer_id" cols = OneColumn i →
            at_pos i r' = match at_pos i r with
                          | VNull => VStr "GUEST"
                          | VStr s => VStr s
                          | v => VStr (py_str v)
                          end) ∧
      (∀ i, select "description" cols = OneColumn i →
            at_pos i r' = match at_pos i r with
                          | VNull => VStr "UNKNOWN"
                          | v => v
                          end) ∧
      (∀ i, select "invoice_date" cols = OneColumn i →
            to_datetime parse_datetime (at_pos i r) = Ok (at_pos i r') ∧
            timestamp_or_missing (at_pos i r') = true).
Proof.
  intros H cols r' Hr'.
  destruct (rows df) as [|r0 rs] eqn:Hrows.
  { rewrite (clean_data_rows_of_empty _ _ _ H Hrows) in Hr'. inversion Hr'. }
  assert (rows df ≠ []) as Hne by (by rewrite Hrows).
  rewrite <- Hrows.
  destruct (clean_data_rows py_str parse_datetime _ _ _ _ Hne H Hr')
    as (_ & r & Hr & Hf & _ & Hc & Hd & Ht & _).
  exists r. split; [done|]. split; [done|]. split; [|split].
  - intros i Hi. rewrite (Hc i Hi). by destruct (at_pos i r).
  - intros i Hi. rewrite (Hd i Hi). by destruct (at_pos i r).
  - intros i Hi. split; [by apply Ht|]. eapply to_datetime_value. by apply Ht.
Qed.

(** X3.  [clean_data] returns a frame without rows as it received it,
    labels included.  Otherwise the header of the result is the
    standardised header, with [total_amount] added at the end when no
    column has that label (no column is dropped or moved), and in every
    row kept the cells of all columns other than [customer_id],
    [description], [invoice_date] and [total_amount] are those of the
    input row. *)
Theorem clean_data_keeps_other_columns df out m :
  clean_data py_str parse_datetime df = Ok (out, m) →
  let cols := std_columns (columns df) in
  (rows df = [] → out = df) ∧
  (rows df ≠ [] → columns out = columns_with "total_amount" cols) ∧
  (∀ r', r' ∈ rows out →
     ∃ r, r ∈ rows df ∧ fst r' = fst r ∧
       ∀ j c, cols !! j = Some c →
              c ∉ ["customer_id"; "description"; "invoice_date"; "total_amount"] →
              at_pos j r' = at_pos j r).
Proof.
  intros H cols. split; [|split].
  - intros Hr. rewrite clean_data_empty in H by done. by injection H as <- _.
  - intros Hne.
    pose proof (clean_data_nonempty py_str parse_datetime _ _ _ Hne H) as Hc. by destruct Hc.
  - intros r' Hr'.
    destruct (rows df) as [|r0 rs] eqn:Hrows.
    { rewrite (clean_data_rows_of_empty _ _ _ H Hrows) in Hr'. inversion Hr'. }
    assert (rows df ≠ []) as Hne by (by rewrite Hrows).
    rewrite <- Hrows.
    destruct (clean_data_rows py_str parse_datetime _ _ _ _ Hne H Hr')
      as (_ & r & Hr & Hf & Hk & _).
    exists r. split; [done|]. split; [done|].
    intros j c Hj Hc. apply (Hk j c Hj); intros ->; apply Hc; by repeat constructor.
Qed.

(** X4.  The result of [clean_data] on a frame with rows has a column
    [total_amount], and in every row each cell under that label is a
    number or missing, missing exactly when the quantity or the price of
    the row is missing.  For an integer quantity and an integer price
    whose product is below 2^53 in absolute value it is their product:
    within that bound an int64 product does not wrap and a float
    product is exact.  (Nothing is said of the value of other products,
    which the source computes in machine arithmetic.) *)
Theorem clean_data_total_amount df out m :
  clean_data py_str parse_datetime df = Ok (out, m) →
  (rows df ≠ [] → "total_amount" ∈ columns out) ∧
  (∀ r' j, r' ∈ rows out → columns out !! j = Some "total_amount" →
     ∃ q p, cell (columns out) "quantity" r' = Some q ∧
            cell (columns out) "price" r' = Some p ∧
            numeric_or_missing (at_pos j r') = true ∧
            (isna (at_pos j r') = true ↔ isna q = true ∨ isna p = true) ∧
            (∀ a b, q = VInt a → p = VInt b → (Z.abs (a * b) < 2 ^ 53)%Z →
                    at_pos j r' = VInt (a * b))).
Proof.
  intros H. split.
  - intros Hne.
    pose proof (clean_data_nonempty py_str parse_datetime _ _ _ Hne H) as Hc.
    assert (columns out = columns_with "total_amount" (std_columns (columns df))) as ->
      by (by destruct Hc).
    unfold columns_with. case_bool_decide; [done|].
    apply elem_of_app. right. by left.
  - intros r' j Hr' Hj.
    destruct (rows df) as [|r0 rs] eqn:Hrows.
    { rewrite (clean_data_rows_of_empty _ _ _ H Hrows) in Hr'. inversion Hr'. }
    assert (rows df ≠ []) as Hne by (by rewrite Hrows).
    pose proof (clean_data_nonempty py_str parse_datetime _ _ _ Hne H) as Hc.
    destruct Hc as [ic iinv idate iq ip staged vi vq vp nt nq np cols
            Hic Hiinv Hidate Hiq Hip _ _ _ _ _ _ _ _ _ _ _ Cout _ _ _ _ _ _ _].
    destruct (clean_data_rows py_str parse_datetime _ _ _ _ Hne H Hr')
      as (_ & r & _ & _ & _ & _ & _ & _ & Ht).
    specialize (Ht iq ip j Hiq Hip Hj).
    exists (at_pos iq r'), (at_pos ip r').
    rewrite Cout, !cell_columns_with by done.
    rewrite (cell_one _ _ _ _ Hiq), (cell_one _ _ _ _ Hip).
    split; [done|]. split; [done|]. split; [by eapply mul_cells_value|].
    split.
    + destruct (at_pos iq r') as [| | | |], (at_pos ip r') as [| | | |];
        simpl in Ht; try discriminate; injection Ht as <-; simpl;
        (split; [intros Hx; first [discriminate Hx | by left | by right]
                |intros [Hx|Hx]; first [discriminate Hx | done]]).
    + intros a b Hq Hp _. rewrite Hq, Hp in Ht. simpl in Ht. by injection Ht as <-.
Qed.

Lemma Forall2_fst_eq (R : row → row → Prop) l k :
  (∀ r r', R r r' → fst r' = fst r) → Forall2 R l k → map fst k = map fst l.
Proof.
  intros HR. induction 1 as [|r r' l k Hr _ IH]; [done|].
  simpl. by rewrite (HR _ _ Hr), IH.
Qed.

(** X5.  [clean_data] only removes rows: the index labels of the result
    are a sub-sequence of the index labels of the input, in the same
    order, so no row is added, repeated or moved. *)
Theorem clean_data_keeps_order df out m :
  clean_data py_str parse_datetime df = Ok (out, m) →
  map fst (rows out) `sublist_of` map fst (rows df) ∧
  (len out ≤ len df)%nat.
Proof.
  intros H. assert (map fst (rows out) `sublist_of` map fst (rows df)) as Hsub.
  { apply clean_data_cases in H as [(Hr & -> & ->)|[Hr Hc]]; [done|].
    destruct Hc as [ic iinv idate iq ip staged vi vq vp nt nq np cols
              _ _ _ _ _ _ Hprep Evi Evq Evp _ _ _ _ _ _ _ Fout _ _ _ _ _ _].
    rewrite (Forall2_fst_eq _ _ _ (λ r r' (Hs : same_except cols "total_amount" r r'), proj1 Hs) Fout).
    rewrite <- (Forall2_fst_eq _ _ _ (λ r r' (Hs : prepared cols r r'), proj1 Hs) Hprep).
    apply (fmap_sublist fst). subst vp vq vi.
    etrans; [apply sublist_filter|]. etrans; [apply sublist_filter|]. apply sublist_filter. }
  split; [done|]. apply sublist_length in Hsub. unfold len. by rewrite !length_map in Hsub.
Qed.

End CleaningProperties.

(** ** When cleaning returns *)

Section CleaningProgress.

Variable py_str : value → string.
Variable parse_datetime : value → option (option Z).

Lemma mapM_ok {A B} (f : A → result B) (l : list A) :
  (∀ a, a ∈ l → ∃ b, f a = Ok b) → ∃ l', mapM f l = Ok l'.
Proof.
  induction l as [|a l IH]; simpl; intros H; [by eexists|].
  destruct (H a) as [b ->]; [by left|].
  destruct IH as [bs ->]; [intros a' Ha'; apply H; by right|].
  simpl. by eexists.
Qed.

Lemma le_zero_numeric v : numeric_or_missing v = true → ∃ b, le_zero v = Ok b.
Proof. destruct v; simpl; try discriminate; by eexists. Qed.

Lemma mul_cells_numeric a b :
  numeric_or_missing a = true → numeric_or_missing b = true → ∃ v, mul_cells a b = Ok v.
Proof. destruct a, b; simpl; try discriminate; by eexists. Qed.

Lemma handle_missing_ok col df m :
  (∀ ps, select col (columns df) ≠ ManyColumns ps) →
  ∃ df' m', handle_missing py_str col (df, m) = Ok (df', m').
Proof.
  intros Hsel. unfold handle_missing.
  destruct (select col (columns df)) as [|i|ps]; [by eexists _, _| |by destruct (Hsel ps)].
  destruct (0 <? _)%nat; by eexists _, _.
Qed.

Lemma convert_invoice_date_ok df m i :
  select "invoice_date" (columns df) = OneColumn i →
  (∀ r, r ∈ rows df → ∃ v, to_datetime parse_datetime (at_pos i r) = Ok v) →
  ∃ df' m', convert_invoice_date parse_datetime (df, m) = Ok (df', m').
Proof.
  intros Hsel Hall. unfold convert_invoice_date. rewrite Hsel.
  destruct (mapM_ok (λ r, let! v := to_datetime parse_datetime (at_pos i r) in
                          Ok (set_pos i v r)) (rows df)) as [rows' ->].
  { intros r Hr. destruct (Hall r Hr) as [v ->]. simpl. by eexists. }
  simpl. by eexists _, _.
Qed.

Lemma convert_customer_id_ok df m i :
  select "customer_id" (columns df) = OneColumn i →
  ∃ df' m', convert_customer_id py_str (df, m) = Ok (df', m').
Proof. intros Hsel. unfold convert_customer_id. rewrite Hsel. by eexists _, _. Qed.

Lemma remove_test_transactions_ok df m i :
  select "invoice" (columns df) = OneColumn i →
  ∃ df' m', remove_test_transactions py_str (df, m) = Ok (df', m').
Proof.
  intros Hsel. unfold remove_test_transactions. rewrite Hsel.
  destruct (existsb _ _); by eexists _, _.
Qed.

Lemma remove_invalid_ok col df m i :
  select col (columns df) = OneColumn i →
  (∀ r, r ∈ rows df → numeric_or_missing (at_pos i r) = true) →
  ∃ df' m', remove_invalid col (df, m) = Ok (df', m').
Proof.
  intros Hsel Hall. unfold remove_invalid. rewrite Hsel.
  destruct (mapM_ok (λ r, le_zero (at_pos i r)) (rows df)) as [check ->].
  { intros r Hr. apply le_zero_numeric. by apply Hall. }
  simpl. destruct (0 <? _)%nat; by eexists _, _.
Qed.

Lemma add_total_amount_ok df m iq ip :
  select "quantity" (columns df) = OneColumn iq →
  select "price" (columns df) = OneColumn ip →
  (∀ r, r ∈ rows df → numeric_or_missing (at_pos iq r) = true ∧
                      numeric_or_missing (at_pos ip r) = true) →
  ∃ df' m', add_total_amount (df, m) = Ok (df', m').
Proof.
  intros Hq Hp Hall. unfold add_total_amount. rewrite Hq, Hp.
  destruct (mapM_ok (λ r, let! v := mul_cells (at_pos iq r) (at_pos ip r) in
                          Ok (assign_column "total_amount" (columns df) v r)) (rows df))
    as [rows' ->].
  { intros r Hr. destruct (Hall r Hr) as [Hnq Hnp].
    destruct (mul_cells_numeric _ _ Hnq Hnp) as [v ->]. simpl. by eexists. }
  simpl. by eexists _, _.
Qed.

(** A property of the cells of other columns goes through a step that
    rewrites the column [c]. *)
Lemma same_except_transport (P : row → Prop) (R : row → row → Prop) cols c l l' :
  Forall2 (λ r r', same_except cols c r r' ∧ R r r') l l' →
  (∀ r r', same_except cols c r r' → P r → P r') →
  (∀ r, r ∈ l → P r) → ∀ r', r' ∈ l' → P r'.
Proof.
  intros HF Hstep Hall r' Hr'.
  destruct (Forall2_elem_r _ _ _ _ HF Hr') as (r & Hr & [Hs _]).
  eapply Hstep; [exact Hs|]. by apply Hall.
Qed.

Lemma required_present cols :
  (∀ c, c ∈ ["customer_id"; "invoice"; "stock_code"; "invoice_date"; "quantity"; "price"] →
        c ∈ cols) →
  required_columns ∖ list_to_set (C := gset string) cols = ∅.
Proof.
  intros Hall. apply leibniz_equiv, elem_of_equiv_empty. intros c Hc.
  apply elem_of_difference in Hc as [Hreq Hnot]. apply Hnot.
  apply elem_of_list_to_set, Hall. unfold required_columns in Hreq.
  by apply elem_of_list_to_set in Hreq.
Qed.

Lemma select_one_elem c cols i : select c cols = OneColumn i → c ∈ cols.
Proof. intros H. apply select_one_lookup in H. by eapply list_elem_of_lookup_2. Qed.

Lemma clean_data_progress df i_customer i_invoice i_date i_quantity i_price :
  select "customer_id" (std_columns (columns df)) = OneColumn i_customer →
  select "invoice" (std_columns (columns df)) = OneColumn i_invoice →
  select "invoice_date" (std_columns (columns df)) = OneColumn i_date →
  select "quantity" (std_columns (columns df)) = OneColumn i_quantity →
  select "price" (std_columns (columns df)) = OneColumn i_price →
  "stock_code" ∈ std_columns (columns df) →
  (∀ ps, select "description" (std_columns (columns df)) ≠ ManyColumns ps) →
  (∀ r, r ∈ rows df →
        numeric_or_missing (at_pos i_quantity r) = true ∧
        numeric_or_missing (at_pos i_price r) = true ∧
        ∃ v, to_datetime parse_datetime (at_pos i_date r) = Ok v) →
  ∃ out m, clean_data py_str parse_datetime df = Ok (out, m).
Proof.
  set (cols := std_columns (columns df)).
  intros Hic Hiinv Hidate Hiq Hip Hstock Hdesc Hall.
  pose proof (select_one_lookup _ _ _ Hiq) as Lq.
  pose proof (select_one_lookup _ _ _ Hip) as Lp.
  pose proof (select_one_lookup _ _ _ Hidate) as Ld.
  unfold clean_data. destruct (len df =? 0)%nat; [by eexists _, _|].
  destruct (standardize_columns (df, initial_metrics (len df))) as [df1 m1] eqn:E1.
  apply standardize_columns_spec in E1 as (C1 & R1 & _). fold cols in C1.
  unfold verify_required, missing_columns. cbn [fst]. rewrite C1.
  rewrite bool_decide_eq_true_2.
  2: { apply required_present. intros c Hc.
       repeat (apply elem_of_cons in Hc as [->|Hc]; [by eauto using select_one_elem|]).
       inversion Hc. }
  cbn [bind].
  set (P := λ r : row, numeric_or_missing (at_pos i_quantity r) = true ∧
                       numeric_or_missing (at_pos i_price r) = true).
  set (D := λ r : row, ∃ v, to_datetime parse_datetime (at_pos i_date r) = Ok v).
  assert (∀ c, c ≠ "quantity" → c ≠ "price" → ∀ r r', same_except cols c r r' → P r → P r')
    as HP.
  { intros c N1 N2 r r' [_ K] [H1 H2]. unfold P.
    by rewrite (K _ _ Lq), (K _ _ Lp). }
  assert (∀ c, c ≠ "invoice_date" → ∀ r r', same_except cols c r r' → D r → D r') as HD.
  { intros c N1 r r' [_ K] [v Hv]. exists v. by rewrite (K _ _ Ld). }
  assert (∀ r, r ∈ rows df1 → P r) as P1 by (rewrite R1; intros r Hr; split; by apply Hall).
  assert (∀ r, r ∈ rows df1 → D r) as D1 by (rewrite R1; intros r Hr; by apply Hall).
  destruct (handle_missing_ok "customer_id" df1 m1) as (df2 & m2 & E2).
  { rewrite C1, Hic. done. }
  rewrite E2. cbn [bind]. apply handle_missing_rows in E2 as [C2 F2]. rewrite C1 in C2, F2.
  pose proof (same_except_transport P _ _ _ _ _ F2 (HP "customer_id" ltac:(done) ltac:(done)) P1) as P2.
  pose proof (same_except_transport D _ _ _ _ _ F2 (HD "customer_id" ltac:(done)) D1) as D2.
  destruct (handle_missing_ok "description" df2 m2) as (df3 & m3 & E3).
  { rewrite C2. done. }
  rewrite E3. cbn [bind]. apply handle_missing_rows in E3 as [C3 F3]. rewrite C2 in C3, F3.
  pose proof (same_except_transport P _ _ _ _ _ F3 (HP "description" ltac:(done) ltac:(done)) P2) as P3.
  pose proof (same_except_transport D _ _ _ _ _ F3 (HD "description" ltac:(done)) D2) as D3.
  destruct (convert_invoice_date_ok df3 m3 i_date) as (df4 & m4 & E4); [by rewrite C3|exact D3|].
  rewrite E4. cbn [bind]. apply convert_invoice_date_rows in E4 as [C4 F4].
  rewrite C3 in C4, F4.
  pose proof (same_except_transport P _ _ _ _ _ F4 (HP "invoice_date" ltac:(done) ltac:(done)) P3) as P4.
  destruct (convert_customer_id_ok df4 m4 i_customer) as (df5 & m5 & E5); [by rewrite C4|].
  rewrite E5. cbn [bind].
  apply convert_customer_id_spec in E5 as (C5 & _ & _ & _ & _ & F5). rewrite C4 in C5, F5.
  pose proof (same_except_transport P _ _ _ _ _ F5 (HP "customer_id" ltac:(done) ltac:(done)) P4) as P5.
  destruct (remove_test_transactions_ok df5 m5 i_invoice) as (df6 & m6 & E6); [by rewrite C5|].
  rewrite E6. cbn [bind]. apply remove_test_transactions_rows in E6 as (C6 & k6 & R6).
  rewrite C5 in C6.
  assert (∀ r, r ∈ rows df6 → P r) as P6.
  { intros r Hr. apply P5. rewrite R6 in Hr. by eapply filter_filter_elem. }
  destruct (remove_invalid_ok "quantity" df6 m6 i_quantity) as (df7 & m7 & E7);
    [by rewrite C6|intros r Hr; by apply P6|].
  rewrite E7. cbn [bind]. apply remove_invalid_rows in E7 as (C7 & k7 & R7). rewrite C6 in C7.
  assert (∀ r, r ∈ rows df7 → P r) as P7.
  { intros r Hr. apply P6. rewrite R7 in Hr. by eapply filter_filter_elem. }
  destruct (remove_invalid_ok "price" df7 m7 i_price) as (df8 & m8 & E8);
    [by rewrite C7|intros r Hr; by apply P7|].
  rewrite E8. cbn [bind]. apply remove_invalid_rows in E8 as (C8 & k8 & R8). rewrite C7 in C8.
  assert (∀ r, r ∈ rows df8 → P r) as P8.
  { intros r Hr. apply P7. rewrite R8 in Hr. by eapply filter_filter_elem. }
  destruct (add_total_amount_ok df8 m8 i_quantity i_price) as (df9 & m9 & E9);
    [by rewrite C8..|exact P8|].
  rewrite E9. cbn [bind]. unfold finalize. by eexists _, _.
Qed.

(** X6.  [clean_data] returns, without raising, on every frame in which
    [customer_id], [invoice], [invoice_date], [quantity] and [price]
    each name exactly one column after standardisation, [stock_code] is
    present, [description] is not repeated, every quantity and price is a
    number or missing, and every invoice date is a timestamp or missing
    (a column that [pd.to_datetime] takes as it is, without a format to
    infer). *)
Theorem clean_data_succeeds df i_customer i_invoice i_date i_quantity i_price :
  select "customer_id" (std_columns (columns df)) = OneColumn i_customer →
  select "invoice" (std_columns (columns df)) = OneColumn i_invoice →
  select "invoice_date" (std_columns (columns df)) = OneColumn i_date →
  select "quantity" (std_columns (columns df)) = OneColumn i_quantity →
  select "price" (std_columns (columns df)) = OneColumn i_price →
  "stock_code" ∈ std_columns (columns df) →
  (∀ ps, select "description" (std_columns (columns df)) ≠ ManyColumns ps) →
  (∀ r, r ∈ rows df →
        numeric_or_missing (at_pos i_quantity r) = true ∧
        numeric_or_missing (at_pos i_price r) = true ∧
        timestamp_or_missing (at_pos i_date r) = true) →
  ∃ out m, clean_data py_str parse_datetime df = Ok (out, m).
Proof.
  intros Hic Hiinv Hidate Hiq Hip Hstock Hdesc Hall.
  apply (clean_data_progress df i_customer i_invoice i_date i_quantity i_price);
    try done.
  intros r Hr. destruct (Hall r Hr) as (Hq & Hp & Ht). split; [done|]. split; [done|].
  exists (at_pos i_date r). by destruct (at_pos i_date r).
Qed.

End CleaningProgress.

(** ** Cleaning twice *)

Section Recleaning.

Variable py_str : value → string.
Variable parse_datetime : value → option (option Z).

Lemma std_columns_columns_with cols :
  std_columns (columns_with "total_amount" (std_columns cols))
  = columns_with "total_amount" (std_columns cols).
Proof.
  unfold columns_with. case_bool_decide.
  - apply std_columns_idemp.
  - rewrite (std_columns_map (_ ++ _)), map_app, <- std_columns_map.
    rewrite std_columns_idemp. f_equal.
Qed.

Lemma select_one_unique c cols i j :
  select c cols = OneColumn i → cols !! j = Some c → j = i.
Proof.
  unfold select. intros Hsel Hj.
  assert (j ∈ positions_from c cols 0) as Hp.
  { apply positions_from_spec. rewrite Nat.sub_0_r. split; [lia|done]. }
  destruct (positions_from c cols 0) as [|a [|b l]]; try discriminate.
  injection Hsel as <-. by apply list_elem_of_singleton in Hp.
Qed.

Lemma count_true_all_false {A} (g : A → bool) (l : list A) :
  (∀ a, a ∈ l → g a = false) → count_true (map g l) = 0%nat.
Proof.
  induction l as [|a l IH]; intros H; [done|].
  simpl. rewrite count_true_cons, (H a) by (by left). rewrite IH; [done|].
  intros a' Ha'. apply H. by right.
Qed.

Lemma filter_id {A} (P : A → Prop) `{!∀ a, Decision (P a)} (l : list A) :
  (∀ a, a ∈ l → P a) → filter P l = l.
Proof.
  induction l as [|a l IH]; intros Hall; [done|].
  rewrite filter_cons, decide_True by (apply Hall; by left).
  f_equal. apply IH. intros a' Ha'. apply Hall. by right.
Qed.

Lemma record_count_zero key d : record_count key 0 d = d.
Proof. done. Qed.

Lemma le_zero_false_numeric v : le_zero v = Ok false → numeric_or_missing v = true.
Proof. by destruct v. Qed.

Lemma null_count_zero i (l : list row) :
  (∀ r, r ∈ l → isna (at_pos i r) = false) → null_count i l = 0%nat.
Proof. intros H. unfold null_count. by apply count_true_all_false. Qed.

(** X7.  Cleaning a cleaned frame again returns; the second result has
    the same header and the same index, every cell under the header is
    unchanged, nothing is reported as filled or removed, and
    [cleaned_rows] equals [original_rows]. *)
Theorem clean_data_idempotent df out m :
  clean_data py_str parse_datetime df = Ok (out, m) →
  ∃ out' m',
    clean_data py_str parse_datetime out = Ok (out', m') ∧
    columns out' = columns out ∧
    map fst (rows out') = map fst (rows out) ∧
    (∀ r', r' ∈ rows out' →
       ∃ r, r ∈ rows out ∧ fst r' = fst r ∧
            ∀ j c, columns out !! j = Some c → at_pos j r' = at_pos j r) ∧
    cleaned_rows m' = original_rows m' ∧
    missing_values m' = ∅ ∧ invalid_values m' = ∅.
Proof.
  intros H.
  destruct (rows out) as [|o os] eqn:Hout.
  { exists out, (initial_metrics 0). rewrite clean_data_empty by done.
    rewrite Hout. repeat split; try done. intros r' Hr'. inversion Hr'. }
  assert (rows out ≠ []) as Hne' by (by rewrite Hout). rewrite <- Hout. clear o os Hout.
  assert (rows df ≠ []) as Hne.
  { intros Hr. apply Hne'. by eapply clean_data_rows_of_empty. }
  pose proof (clean_data_nonempty py_str parse_datetime _ _ _ Hne H) as Hc.
  set (cols := std_columns (columns df)).
  assert (∃ ic iinv idate iq ip,
            select "customer_id" cols = OneColumn ic ∧ select "invoice" cols = OneColumn iinv ∧
            select "invoice_date" cols = OneColumn idate ∧
            select "quantity" cols = OneColumn iq ∧ select "price" cols = OneColumn ip ∧
            (∀ ps, select "description" cols ≠ ManyColumns ps) ∧
            columns out = columns_with "total_amount" cols)
    as (ic & iinv & idate & iq & ip & Hic & Hiinv & Hidate & Hiq & Hip & Hdesc & Cout).
  { destruct Hc as [ic iinv idate iq ip staged vi vq vp nt nq np cols'
              Hic Hiinv Hidate Hiq Hip Hdesc _ _ _ _ _ _ _ _ _ _ Cout _ _ _ _ _ _ _].
    by exists ic, iinv, idate, iq, ip. }
  assert (std_columns (columns out) = columns out) as Hstd.
  { rewrite Cout. apply std_columns_columns_with. }
  assert ("stock_code" ∈ cols) as Hstock.
  { destruct (clean_data_steps py_str parse_datetime _ _ _ Hne H)
      as ([df1 m1] & st2 & st3 & st4 & st5 & st6 & st7 & st8 & st9 & E1 & Hreq & _).
    apply standardize_columns_spec in E1 as (C1 & _). simpl in Hreq.
    fold cols in C1. rewrite <- C1. apply missing_columns_empty; [done|].
    apply required_elem. by repeat constructor. }
  (* the rows of the result, as the first run left them *)
  assert (∀ r, r ∈ rows out →
            is_test_transaction py_str (at_pos iinv r) = false ∧
            le_zero (at_pos iq r) = Ok false ∧ le_zero (at_pos ip r) = Ok false ∧
            (∃ s, at_pos ic r = VStr s) ∧
            timestamp_or_missing (at_pos idate r) = true ∧
            (∀ i, select "description" cols = OneColumn i → isna (at_pos i r) = false) ∧
            (∀ j, columns out !! j = Some "total_amount" →
                  mul_cells (at_pos iq r) (at_pos ip r) = Ok (at_pos j r))) as Hrow.
  { intros r Hr.
    destruct (cleaned_provenance py_str _ _ _ _ Hc Hr) as (r0 & s & _ & _ & [_ Ks] & Ht & Hq & Hp).
    fold cols in Ks, Ht, Hq, Hp.
    destruct (clean_data_rows py_str parse_datetime _ _ _ _ Hne H Hr)
      as (_ & r1 & _ & _ & _ & Vc & Vd & Vt & Vm).
    fold cols in Vc, Vd, Vt, Vm.
    rewrite (Ks iinv "invoice"), (Ks iq "quantity"), (Ks ip "price");
      try done; try by apply select_one_lookup.
    split; [by apply Ht|]. split; [by apply Hq|]. split; [by apply Hp|].
    split; [|split; [|split]].
    - rewrite (Vc ic Hic). destruct (fillna _ _); simpl; by eexists.
    - eapply to_datetime_value. by apply Vt.
    - intros i Hi. rewrite (Vd i Hi). unfold fillna. by destruct (isna (at_pos i r1)) eqn:E.
    - intros j Hj. rewrite <- (Ks iq "quantity"), <- (Ks ip "price");
        try done; try by apply select_one_lookup. by apply (Vm iq ip j). }
  assert (∀ c i, c ≠ "total_amount" → select c cols = OneColumn i →
                 select c (columns out) = OneColumn i) as Hsel.
  { intros c i Hc' Hs. by rewrite Cout, select_columns_with. }
  pose proof (Hsel "customer_id" _ ltac:(done) Hic) as Sic.
  pose proof (Hsel "invoice" _ ltac:(done) Hiinv) as Siinv.
  pose proof (Hsel "invoice_date" _ ltac:(done) Hidate) as Sidate.
  pose proof (Hsel "quantity" _ ltac:(done) Hiq) as Siq.
  pose proof (Hsel "price" _ ltac:(done) Hip) as Sip.
  destruct (clean_data_progress py_str parse_datetime out ic iinv idate iq ip)
    as (out' & m' & H'); rewrite ?Hstd; try (by apply Hsel).
  { rewrite Cout. unfold columns_with. case_bool_decide; [done|].
    apply elem_of_app. by left. }
  { intros ps. rewrite Cout, select_columns_with by done. apply Hdesc. }
  { intros r Hr. destruct (Hrow r Hr) as (_ & Hq & Hp & _ & Ht & _).
    split; [by apply le_zero_false_numeric|]. split; [by apply le_zero_false_numeric|].
    exists (at_pos idate r). by apply to_datetime_timestamp. }
  exists out', m'. split; [done|].
  pose proof (clean_data_nonempty py_str parse_datetime _ _ _ Hne' H') as Hc'.
  assert ("total_amount" ∈ columns out) as Hta.
  { rewrite Cout. unfold columns_with. case_bool_decide; [done|].
    apply elem_of_app. right. by left. }
  assert (columns out' = columns out) as Cout'.
  { destruct Hc' as [? ? ? ? ? ? ? ? ? ? ? ? cols' _ _ _ _ _ _ _ _ _ _ _ _ _ _ _ _ Cout' _ _ _ _ _ _ _].
    subst cols'. rewrite Hstd in Cout'. rewrite Cout'. unfold columns_with.
    by rewrite bool_decide_eq_true_2. }
  split; [done|].
  (* nothing is removed by the second run *)
  destruct Hc' as [ic' iinv' idate' iq' ip' staged vi vq vp nt nq np cols'
            Hic' Hiinv' Hidate' Hiq' Hip' Hdesc' Hprep Evi Evq Evp _ _ Ent Lt Lq Lp _ Fout
            Ho Hj Hcl Hrate Hmiss Hinv].
  subst cols'. rewrite Hstd in *.
  rewrite Sic in Hic'. injection Hic' as <-.
  rewrite Siinv in Hiinv'. injection Hiinv' as <-.
  rewrite Siq in Hiq'. injection Hiq' as <-.
  rewrite Sip in Hip'. injection Hip' as <-.
  assert (∀ s, s ∈ staged →
            is_test_transaction py_str (at_pos iinv s) = false ∧
            le_zero_flag (at_pos iq s) = false ∧ le_zero_flag (at_pos ip s) = false) as Hst.
  { intros s Hs. destruct (Forall2_elem_r _ _ _ _ Hprep Hs) as (r & Hr & _ & K & _).
    destruct (Hrow r Hr) as (Ht & Hq & Hp & _).
    rewrite (K iinv "invoice"), (K iq "quantity"), (K ip "price");
      try done; try (apply select_one_lookup; by apply Hsel).
    unfold le_zero_flag. by rewrite Hq, Hp. }
  assert (vi = staged) as ->.
  { rewrite Evi. apply filter_id. intros s Hs. by apply Hst. }
  assert (vq = staged) as ->.
  { rewrite Evq. apply filter_id. intros s Hs. by apply Hst. }
  assert (vp = staged) as ->.
  { rewrite Evp. apply filter_id. intros s Hs. by apply Hst. }
  pose proof (Forall2_length _ _ _ Hprep) as Hlen.
  assert (nt = 0%nat) as -> by lia.
  assert (nq = 0%nat) as -> by lia.
  assert (np = 0%nat) as -> by lia.
  split; [|split; [|split; [|split]]].
  - rewrite (Forall2_fst_eq _ _ _ (λ r r' (Hs : same_except _ "total_amount" r r'), proj1 Hs) Fout).
    by rewrite (Forall2_fst_eq _ _ _ (λ r r' (Hs : prepared _ r r'), proj1 Hs) Hprep).
  - intros r' Hr'.
    destruct (clean_data_rows py_str parse_datetime _ _ _ _ Hne' H' Hr')
      as (_ & r & Hr & Hf & Vk & Vc & Vd & Vt & Vm).
    rewrite Hstd in Vk, Vc, Vd, Vt, Vm.
    destruct (Hrow r Hr) as (_ & _ & _ & [s Hs] & Hts & Hna & Hmul).
    exists r. split; [done|]. split; [done|]. intros j c Hj'.
    destruct (decide (c = "customer_id")) as [->|N1].
    { rewrite (select_one_unique _ _ _ _ Sic Hj').
      rewrite (Vc ic Sic), Hs. done. }
    destruct (decide (c = "description")) as [->|N2].
    { destruct (select "description" cols) as [|i|ps] eqn:Hd.
      - exfalso. apply (select_none_notin "description" (columns out)).
        + by rewrite Cout, select_columns_with.
        + by eapply list_elem_of_lookup_2.
      - rewrite (select_one_unique _ _ _ _ (Hsel "description" _ ltac:(done) Hd) Hj').
        rewrite (Vd i (Hsel "description" _ ltac:(done) Hd)). unfold fillna. by rewrite (Hna i).
      - by destruct (Hdesc ps). }
    destruct (decide (c = "invoice_date")) as [->|N3].
    { rewrite (select_one_unique _ _ _ _ Sidate Hj').
      pose proof (Vt idate Sidate) as Ht'.
      rewrite (to_datetime_timestamp parse_datetime _ Hts) in Ht'. by injection Ht'. }
    destruct (decide (c = "total_amount")) as [->|N4].
    { assert (columns out' !! j = Some "total_amount") as Hj'' by (by rewrite Cout').
      pose proof (Vm iq ip j Siq Sip Hj'') as Hm'.
      rewrite (Vk iq "quantity"), (Vk ip "price") in Hm';
        try done; try (apply select_one_lookup; by apply Hsel).
      rewrite (Hmul j Hj') in Hm'. by injection Hm'. }
    by apply (Vk j c).
  - rewrite Hcl, Ho. apply Forall2_length in Fout, Hprep. lia.
  - rewrite Hmiss.
    assert (null_count ic (rows out) = 0%nat) as ->.
    { apply null_count_zero. intros r Hr. destruct (Hrow r Hr) as (_ & _ & _ & [s ->] & _).
      done. }
    destruct (select "description" (columns out)) as [|i|ps] eqn:Hd; try done.
    rewrite null_count_zero; [done|].
    intros r Hr. destruct (Hrow r Hr) as (_ & _ & _ & _ & _ & Hna & _). apply Hna.
    by rewrite Cout, select_columns_with in Hd.
  - rewrite Hinv. done.
Qed.

End Recleaning.

(** ** The rows kept *)

Section KeptRows.

Variable py_str : value → string.
Variable parse_datetime : value → option (option Z).

Lemma Forall2_filter {A B} (R : A → B → Prop) (P : A → Prop) (Q : B → Prop)
    `{!∀ a, Decision (P a)} `{!∀ b, Decision (Q b)} (l : list A) (k : list B) :
  Forall2 R l k → (∀ a b, R a b → (P a ↔ Q b)) →
  Forall2 R (filter P l) (filter Q k).
Proof.
  intros HF HPQ. induction HF as [|a b l k Hab _ IH]; [constructor|].
  rewrite !filter_cons. destruct (decide (P a)) as [Ha|Ha].
  - rewrite decide_True by (by apply (HPQ a b Hab)). by constructor.
  - rewrite decide_False; [done|]. intros Hb. apply Ha. by apply (HPQ a b Hab).
Qed.

Lemma filter_valid_row ii iq ip (l : list row) :
  filter (λ r, le_zero_flag (at_pos ip r) = false)
    (filter (λ r, le_zero_flag (at_pos iq r) = false)
       (filter (λ r, is_test_transaction py_str (at_pos ii r) = false) l))
  = filter (λ r, valid_row py_str ii iq ip r = true) l.
Proof.
  rewrite !list_filter_filter. apply list_filter_iff. intros r. unfold valid_row.
  destruct (is_test_transaction py_str (at_pos ii r)), (le_zero_flag (at_pos iq r)),
    (le_zero_flag (at_pos ip r)); simpl;
    (split; [intros [[? ?] ?]; done | intros ?; try done; by repeat split]).
Qed.

(** The rows that [clean_data] keeps are the valid rows of the input,
    one for one. *)
Lemma clean_data_kept df out m ii iq ip :
  rows df ≠ [] → clean_data py_str parse_datetime df = Ok (out, m) →
  let cols := std_columns (columns df) in
  select "invoice" cols = OneColumn ii →
  select "quantity" cols = OneColumn iq →
  select "price" cols = OneColumn ip →
  Forall2 (λ r r', fst r' = fst r ∧
                   ∀ i, select "invoice_date" cols = OneColumn i →
                        to_datetime parse_datetime (at_pos i r) = Ok (at_pos i r'))
          (filter (λ r, valid_row py_str ii iq ip r = true) (rows df)) (rows out).
Proof.
  intros Hne Hclean cols Hii Hiq Hip.
  destruct (clean_data_steps py_str parse_datetime _ _ _ Hne Hclean)
    as ([df1 m1] & [df2 m2] & [df3 m3] & [df4 m4] & [df5 m5] & [df6 m6] & [df7 m7]
        & [df8 m8] & [df9 m9] & E1 & _ & E2 & E3 & E4 & E5 & E6 & E7 & E8 & E9 & Efin).
  apply standardize_columns_spec in E1 as (C1 & R1 & _). fold cols in C1.
  apply handle_missing_rows in E2 as [C2 F2]. rewrite C1 in C2, F2.
  apply handle_missing_rows in E3 as [C3 F3]. rewrite C2 in C3, F3.
  apply convert_invoice_date_rows in E4 as [C4 F4]. rewrite C3 in C4, F4.
  apply convert_customer_id_spec in E5 as (C5 & _ & _ & _ & _ & F5). rewrite C4 in C5, F5.
  apply remove_test_transactions_spec in E6 as (C6 & _ & _ & _ & S6).
  rewrite C5 in C6, S6. rewrite Hii in S6. destruct S6 as (R6 & _).
  apply remove_invalid_spec in E7 as (C7 & _ & _ & _ & S7).
  rewrite C6 in C7, S7. rewrite Hiq in S7. destruct S7 as (_ & R7 & _).
  apply remove_invalid_spec in E8 as (C8 & _ & _ & _ & S8).
  rewrite C7 in C8, S8. rewrite Hip in S8. destruct S8 as (_ & R8 & _).
  apply (add_total_amount_rows _ _ _ _ iq ip) in E9 as [C9 F9]; [|by rewrite C8..].
  rewrite C8 in C9, F9.
  unfold finalize in Efin. injection Efin as <- _.
  pose proof (select_one_lookup _ _ _ Hii) as Li.
  pose proof (select_one_lookup _ _ _ Hiq) as Lq.
  pose proof (select_one_lookup _ _ _ Hip) as Lp.
  (* the rows before the filters *)
  assert (Forall2 (λ r s : row,
                     fst s = fst r ∧
                     at_pos ii s = at_pos ii r ∧ at_pos iq s = at_pos iq r ∧
                     at_pos ip s = at_pos ip r ∧
                     ∀ i, select "invoice_date" cols = OneColumn i →
                          to_datetime parse_datetime (at_pos i r) = Ok (at_pos i s))
                  (rows df) (rows df5)) as F15.
  { rewrite <- R1.
    pose proof (Forall2_compose _ _ _ _ _
                  (Forall2_compose _ _ _ _ _ (Forall2_compose _ _ _ _ _ F2 F3) F4) F5) as HF.
    eapply Forall2_impl; [exact HF|].
    intros r r5 (r4 & (r3 & (r2 & [[E2' K2] _] & [[E3' K3] _]) & [[E4' K4] V4]) & [[E5' K5] _]).
    split; [congruence|]. split; [|split; [|split]].
    - by rewrite (K5 _ _ Li), (K4 _ _ Li), (K3 _ _ Li), (K2 _ _ Li).
    - by rewrite (K5 _ _ Lq), (K4 _ _ Lq), (K3 _ _ Lq), (K2 _ _ Lq).
    - by rewrite (K5 _ _ Lp), (K4 _ _ Lp), (K3 _ _ Lp), (K2 _ _ Lp).
    - intros i Hi. pose proof (select_one_lookup _ _ _ Hi) as Ld.
      rewrite (K5 _ _ Ld) by done. rewrite <- (V4 i Hi).
      by rewrite (K3 _ _ Ld), (K2 _ _ Ld). }
  assert (rows df8 = filter (λ r, valid_row py_str ii iq ip r = true) (rows df5)) as R58.
  { rewrite R8, R7, R6. apply filter_valid_row. }
  assert (Forall2 (λ r s : row,
                     fst s = fst r ∧
                     at_pos ii s = at_pos ii r ∧ at_pos iq s = at_pos iq r ∧
                     at_pos ip s = at_pos ip r ∧
                     ∀ i, select "invoice_date" cols = OneColumn i →
                          to_datetime parse_datetime (at_pos i r) = Ok (at_pos i s))
                  (filter (λ r, valid_row py_str ii iq ip r = true) (rows df))
                  (rows df8)) as F18.
  { rewrite R58. apply Forall2_filter; [done|].
    intros r s (_ & Hi & Hq & Hp & _). unfold valid_row. by rewrite Hi, Hq, Hp. }
  pose proof (Forall2_compose _ _ _ _ _ F18 F9) as HF.
  eapply Forall2_impl; [exact HF|].
  intros r r' (s & (Hf & _ & _ & _ & Hd) & [[Hf' K9] _]).
  split; [congruence|]. intros i Hi.
  rewrite (K9 i "invoice_date"); [by apply Hd|by apply select_one_lookup|done].
Qed.

(** X23.  The rows that [clean_data] keeps are exactly the valid rows of
    the input, in their order: those whose invoice, read as a string,
    does not start with C or A and whose quantity and price are not
    flagged by [x <= 0].  So a row with a genuine invoice and a positive
    or missing quantity and price is never dropped. *)
Theorem clean_data_keeps_exactly_valid_rows df out m i_invoice i_quantity i_price :
  clean_data py_str parse_datetime df = Ok (out, m) →
  select "invoice" (std_columns (columns df)) = OneColumn i_invoice →
  select "quantity" (std_columns (columns df)) = OneColumn i_quantity →
  select "price" (std_columns (columns df)) = OneColumn i_price →
  map fst (rows out)
  = map fst (filter (λ r, valid_row py_str i_invoice i_quantity i_price r = true) (rows df)) ∧
  (∀ r, r ∈ rows df →
        is_test_transaction py_str (at_pos i_invoice r) = false →
        positive_or_missing (at_pos i_quantity r) →
        positive_or_missing (at_pos i_price r) →
        fst r ∈ map fst (rows out)).
Proof.
  intros H Hii Hiq Hip.
  assert (map fst (rows out)
          = map fst (filter (λ r, valid_row py_str i_invoice i_quantity i_price r = true)
                            (rows df))) as Heq.
  { destruct (rows df) as [|x xs] eqn:Hrows.
    { by rewrite (clean_data_rows_of_empty py_str parse_datetime _ _ _ H Hrows). }
    assert (rows df ≠ []) as Hne by (by rewrite Hrows). rewrite <- Hrows.
    pose proof (clean_data_kept _ _ _ _ _ _ Hne H Hii Hiq Hip) as HF.
    apply (Forall2_fst_eq _ _ _ (λ r r' Hrr', proj1 Hrr') HF). }
  split; [done|].
  intros r Hr Ht Hq Hp. rewrite Heq.
  apply list_elem_of_In, in_map, list_elem_of_In, list_elem_of_filter. split; [|done].
  unfold valid_row, le_zero_flag. rewrite Ht.
  apply le_zero_false in Hq, Hp. by rewrite Hq, Hp.
Qed.

End KeptRows.

(** ** The log of the report *)

Section ReportLog.

Variable py_str : value → string.
Variable parse_datetime : value → option (option Z).

Lemma standardize_columns_log df m df' m' :
  standardize_columns (df, m) = (df', m') →
  transformations m'
  = transformations m ++
    (let renamed := renamed_cols (map normalize_label (columns df)) ∅ in
     if bool_decide (renamed = ∅) then [] else [RenamedColumns renamed]).
Proof.
  unfold standardize_columns. cbv zeta.
  destruct (bool_decide (renamed_cols (map normalize_label (columns df)) ∅ = ∅));
    intros H; injection H as <- <-; simpl; [by rewrite app_nil_r|done].
Qed.

Lemma handle_missing_log col df m df' m' :
  handle_missing py_str col (df, m) = Ok (df', m') →
  missing_values m !! col = None →
  transformations m'
  = transformations m ++
    match missing_values m' !! col with
    | Some n => [FilledMissing n col]
    | None => []
    end ∧
  (∀ c, c ≠ col → missing_values m' !! c = missing_values m !! c) ∧
  invalid_values m' = invalid_values m.
Proof.
  unfold handle_missing. intros H Hnone.
  destruct (select col (columns df)) as [|i|ps]; [| |discriminate].
  - injection H as <- <-. by rewrite Hnone, app_nil_r.
  - destruct (0 <? _)%nat; injection H as <- <-.
    + simpl. rewrite lookup_insert_eq. split; [done|]. split; [|done].
      intros c Hc. by rewrite lookup_insert_ne.
    + by rewrite Hnone, app_nil_r.
Qed.

Lemma convert_invoice_date_log df m df' m' i :
  select "invoice_date" (columns df) = OneColumn i →
  convert_invoice_date parse_datetime (df, m) = Ok (df', m') →
  transformations m' = transformations m ++ [ConvertedInvoiceDate] ∧
  missing_values m' = missing_values m ∧ invalid_values m' = invalid_values m.
Proof.
  unfold convert_invoice_date. intros ->.
  destruct (mapM _ (rows df)); cbn [bind]; [|discriminate].
  intros H. by injection H as <- <-.
Qed.

Lemma convert_customer_id_log df m df' m' i :
  select "customer_id" (columns df) = OneColumn i →
  convert_customer_id py_str (df, m) = Ok (df', m') →
  transformations m' = transformations m ++ [ConvertedCustomerId] ∧
  missing_values m' = missing_values m ∧ invalid_values m' = invalid_values m.
Proof.
  unfold convert_customer_id. intros ->. intros H. by injection H as <- <-.
Qed.

Lemma remove_test_transactions_log df m df' m' :
  remove_test_transactions py_str (df, m) = Ok (df', m') →
  invalid_values m !! "test_transactions" = None →
  transformations m'
  = transformations m ++
    match invalid_values m' !! "test_transactions" with
    | Some _ => [RemovedTestTransactions]
    | None => []
    end ∧
  (∀ c, c ≠ "test_transactions" → invalid_values m' !! c = invalid_values m !! c) ∧
  missing_values m' = missing_values m.
Proof.
  unfold remove_test_transactions. intros H Hnone.
  destruct (select "invoice" (columns df)) as [|i|ps]; [| |discriminate].
  - injection H as <- <-. by rewrite Hnone, app_nil_r.
  - destruct (existsb id _); injection H as <- <-.
    + simpl. rewrite lookup_insert_eq. split; [done|]. split; [|done].
      intros c Hc. by rewrite lookup_insert_ne.
    + by rewrite Hnone, app_nil_r.
Qed.

Lemma remove_invalid_log col df m df' m' :
  remove_invalid col (df, m) = Ok (df', m') →
  invalid_values m !! col = None →
  transformations m'
  = transformations m ++
    match invalid_values m' !! col with
    | Some _ => [RemovedInvalid col]
    | None => []
    end ∧
  (∀ c, c ≠ col → invalid_values m' !! c = invalid_values m !! c) ∧
  missing_values m' = missing_values m.
Proof.
  unfold remove_invalid. intros H Hnone.
  destruct (select col (columns df)) as [|i|ps].
  - injection H as <- <-. by rewrite Hnone, app_nil_r.
  - destruct (mapM _ (rows df)) as [check|]; cbn [bind] in H; [|discriminate].
    destruct (0 <? _)%nat; injection H as <- <-.
    + simpl. rewrite lookup_insert_eq. split; [done|]. split; [|done].
      intros c Hc. by rewrite lookup_insert_ne.
    + by rewrite Hnone, app_nil_r.
  - destruct (mapM _ (rows df)); cbn [bind] in H; discriminate.
Qed.

Lemma add_total_amount_log df m df' m' iq ip :
  select "quantity" (columns df) = OneColumn iq →
  select "price" (columns df) = OneColumn ip →
  add_total_amount (df, m) = Ok (df', m') →
  transformations m' = transformations m ++ [CalculatedTotalAmount] ∧
  missing_values m' = missing_values m ∧ invalid_values m' = invalid_values m.
Proof.
  unfold add_total_amount. intros -> ->.
  destruct (mapM _ (rows df)); cbn [bind]; [|discriminate].
  intros H. by injection H as <- <-.
Qed.

(** X27.  The log [transformations] of the report agrees with its
    counts.  On a frame with rows it lists, in this order: the renaming
    when a label was renamed; one entry per key of [missing_values],
    with the count stored there; the two type conversions; one entry
    per key of [invalid_values]; and the computation of [total_amount].
    The two conversions and the total are always logged. *)
Theorem clean_data_log df out m :
  rows df ≠ [] → clean_data py_str parse_datetime df = Ok (out, m) →
  transformations m
  = (let renamed := renamed_cols (map normalize_label (columns df)) ∅ in
     if bool_decide (renamed = ∅) then [] else [RenamedColumns renamed]) ++
    match missing_values m !! "customer_id" with
    | Some n => [FilledMissing n "customer_id"]
    | None => []
    end ++
    match missing_values m !! "description" with
    | Some n => [FilledMissing n "description"]
    | None => []
    end ++
    [ConvertedInvoiceDate; ConvertedCustomerId] ++
    match invalid_values m !! "test_transactions" with
    | Some _ => [RemovedTestTransactions]
    | None => []
    end ++
    match invalid_values m !! "quantity" with
    | Some _ => [RemovedInvalid "quantity"]
    | None => []
    end ++
    match invalid_values m !! "price" with
    | Some _ => [RemovedInvalid "price"]
    | None => []
    end ++
    [CalculatedTotalAmount].
Proof.
  intros Hne Hclean.
  pose proof (clean_data_nonempty py_str parse_datetime _ _ _ Hne Hclean) as Hc.
  destruct Hc as [ic iinv idate iq ip staged vi vq vp nt nq np cols
            Hic Hiinv Hidate Hiq Hip _ _ _ _ _ _ _ _ _ _ _ _ _ _ _ _ _ _ _].
  destruct (clean_data_steps py_str parse_datetime _ _ _ Hne Hclean)
    as ([df1 m1] & [df2 m2] & [df3 m3] & [df4 m4] & [df5 m5] & [df6 m6] & [df7 m7]
        & [df8 m8] & [df9 m9] & E1 & _ & E2 & E3 & E4 & E5 & E6 & E7 & E8 & E9 & Efin).
  pose proof (standardize_columns_log _ _ _ _ E1) as L1.
  apply standardize_columns_spec in E1 as (C1 & _ & _ & _ & M1 & I1).
  simpl in L1, M1, I1. fold cols in C1.
  pose proof (handle_missing_log _ _ _ _ _ E2) as (L2 & M2 & I2); [by rewrite M1|].
  apply handle_missing_rows in E2 as [C2 _]. rewrite C1 in C2.
  pose proof (handle_missing_log _ _ _ _ _ E3) as (L3 & M3 & I3).
  { rewrite M2 by done. by rewrite M1. }
  apply handle_missing_rows in E3 as [C3 _]. rewrite C2 in C3.
  pose proof (convert_invoice_date_log _ _ _ _ idate ltac:(by rewrite C3) E4) as (L4 & M4 & I4).
  apply convert_invoice_date_rows in E4 as [C4 _]. rewrite C3 in C4.
  pose proof (convert_customer_id_log _ _ _ _ ic ltac:(by rewrite C4) E5) as (L5 & M5 & I5).
  apply convert_customer_id_spec in E5 as (C5 & _). rewrite C4 in C5.
  pose proof (remove_test_transactions_log _ _ _ _ E6) as (L6 & I6 & M6).
  { by rewrite I5, I4, I3, I2, I1. }
  apply remove_test_transactions_spec in E6 as (C6 & _). rewrite C5 in C6.
  pose proof (remove_invalid_log _ _ _ _ _ E7) as (L7 & I7 & M7).
  { rewrite I6 by done. by rewrite I5, I4, I3, I2, I1. }
  apply remove_invalid_spec in E7 as (C7 & _). rewrite C6 in C7.
  pose proof (remove_invalid_log _ _ _ _ _ E8) as (L8 & I8 & M8).
  { rewrite I7 by done. rewrite I6 by done. by rewrite I5, I4, I3, I2, I1. }
  apply remove_invalid_spec in E8 as (C8 & _). rewrite C7 in C8.
  pose proof (add_total_amount_log _ _ _ _ iq ip ltac:(by rewrite C8) ltac:(by rewrite C8) E9)
    as (L9 & M9 & I9).
  unfold finalize in Efin. injection Efin as _ <-. cbn [transformations missing_values
    invalid_values set_cleaned_rows set_rejection_rate].
  rewrite L9, L8, L7, L6, L5, L4, L3, L2, L1.
  rewrite M9, M8, M7, M6, M5, M4, I9.
  rewrite (M3 "customer_id") by done.
  rewrite (I8 "quantity"), (I8 "test_transactions"), (I7 "test_transactions") by done.
  rewrite <- !app_assoc. done.
Qed.

End ReportLog.

(** ** The load *)

Section Loading.

Variable py_str : value → string.
Variable parse_datetime : value → option (option Z).

(** ** The watermark *)

Lemma max_option_ge a b : not_after (max_option a b) a ∧ not_after (max_option a b) b.
Proof. destruct a, b; simpl; try done; split; try done; lia. Qed.

Lemma not_after_trans a b d :
  not_after a d → not_after b a → not_after b d.
Proof. destruct a, b, d; simpl; try done; lia. Qed.

Lemma foldr_max_option_ge (l : list (option Z)) d :
  d ∈ l → not_after (foldr max_option None l) d.
Proof.
  induction l as [|x l IH]; intros Hd; [inversion Hd|].
  simpl. apply elem_of_cons in Hd as [->|Hd].
  - apply max_option_ge.
  - eapply not_after_trans; [by apply IH|]. apply max_option_ge.
Qed.

Lemma foldr_max_option_app (l k : list (option Z)) :
  foldr max_option None (l ++ k)
  = max_option (foldr max_option None l) (foldr max_option None k).
Proof.
  induction l as [|x l IH]; simpl.
  - by destruct (foldr max_option None k).
  - rewrite IH. destruct x, (foldr max_option None l), (foldr max_option None k); simpl;
      try done; f_equal; lia.
Qed.

(** ** The shape of a successful [load_data] *)

Lemma datetimelike_timestamps df i :
  select "invoice_date" (columns df) = OneColumn i →
  datetimelike df = Ok tt →
  Forall (λ r, timestamp_or_missing (at_pos i r) = true) (rows df).
Proof.
  unfold datetimelike, position. intros ->. cbn [bind].
  destruct (mapM _ (rows df)) as [l|] eqn:HM; [|discriminate]. intros _.
  apply mapM_Forall2 in HM. clear -HM.
  induction HM as [|r o rs l Hr _ IH]; constructor; [|done].
  destruct (at_pos i r); simpl in *; done.
Qed.

Lemma load_data_inv conn df fr conn' :
  empty df = false →
  load_data py_str parse_datetime conn df fr = Ok conn' →
  ∃ i sel cs ps ts,
    select "invoice_date" (columns df) = OneColumn i ∧
    Forall (λ r, timestamp_or_missing (at_pos i r) = true) (rows df) ∧
    datetimelike df = Ok tt ∧
    load_required_columns ∖ list_to_set (C := gset string) (columns df) = ∅ ∧
    columns sel = columns df ∧
    rows sel = selected_rows fr (max_invoice_date (session conn)) i (rows df) ∧
    customer_rows py_str sel = Ok cs ∧
    product_rows py_str sel = Ok ps ∧
    transaction_rows py_str sel = Ok ts ∧
    session conn' =
      {| customers := foldl upsert_customer (customers (session conn)) cs;
         products := foldl upsert_product (products (session conn)) ps;
         transactions := transactions (session conn) ++ ts |} ∧
    committed conn' = session conn' ∧
    executed conn' =
      executed conn ++ (if fr then [] else [SelectMaxInvoiceDate]) ++
      [UpsertCustomers (length cs); UpsertProducts (length ps);
       InsertTransactions (length ts); Commit].
Proof.
  intros Hne. unfold load_data. rewrite Hne.
  case_bool_decide as Hreq; cbn [negb]; [|discriminate].
  destruct (incremental parse_datetime conn df fr) as [[sel conn0]|] eqn:Hinc;
    cbn [bind]; [|discriminate].
  destruct (customer_rows py_str sel) as [cs|] eqn:Hcs; cbn [bind]; [|discriminate].
  destruct (datetimelike df) as [[]|] eqn:Hdt; cbn [bind]; [|discriminate].
  destruct (product_rows py_str sel) as [ps|] eqn:Hps; cbn [bind]; [|discriminate].
  destruct (transaction_rows py_str sel) as [ts|] eqn:Hts; cbn [bind]; [|discriminate].
  intros H. injection H as <-.
  assert (∃ i, select "invoice_date" (columns df) = OneColumn i) as [i Hi].
  { unfold datetimelike, position in Hdt.
    destruct (select "invoice_date" (columns df)) as [|i|]; try discriminate. by exists i. }
  pose proof (datetimelike_timestamps _ _ Hi Hdt) as Hall.
  exists i, sel, cs, ps, ts. split; [done|]. split; [done|]. split; [done|]. split; [done|].
  assert (columns sel = columns df ∧
          rows sel = selected_rows fr (max_invoice_date (session conn)) i (rows df) ∧
          session conn0 = session conn ∧
          executed conn0 = executed conn ++ (if fr then [] else [SelectMaxInvoiceDate]))
    as (Hc & Hr & Hs & He).
  { unfold incremental, get_max_invoice_date in Hinc. unfold selected_rows.
    destruct fr; cbn [negb] in Hinc.
    - injection Hinc as <- <-. by rewrite app_nil_r.
    - destruct (max_invoice_date (session conn)) as [wm|].
      + destruct (newer_than parse_datetime wm df) as [sel'|] eqn:Hsel; cbn [bind] in Hinc;
          [|discriminate].
        injection Hinc as <- <-.
        destruct (newer_than_filter parse_datetime _ _ _ _ Hi
                    (datetimelike_cells parse_datetime _ _ Hi Hdt) Hsel) as [Hc Hr].
        done.
      + injection Hinc as <- <-. done. }
  split; [done|]. split; [done|]. split; [done|]. split; [done|]. split; [done|].
  simpl. rewrite Hs. split; [done|]. split; [done|].
  rewrite He, <- !app_assoc. done.
Qed.

Lemma load_data_of_empty conn df fr conn' :
  empty df = true →
  load_data py_str parse_datetime conn df fr = Ok conn' → conn' = commit conn.
Proof. intros He. unfold load_data. rewrite He. by intros [= <-]. Qed.

Lemma transaction_rows_dates df ts i :
  select "invoice_date" (columns df) = OneColumn i →
  transaction_rows py_str df = Ok ts →
  Forall2 (λ r t, as_timestamp (at_pos i r) = Ok (t_invoice_date t)) (rows df) ts.
Proof.
  intros Hi. unfold transaction_rows, position. rewrite Hi.
  repeat match goal with
  | |- context [select ?c (columns df)] =>
      destruct (select c (columns df)); cbn [bind]; try discriminate
  end.
  intros H. apply mapM_Forall2 in H. eapply Forall2_impl; [exact H|].
  intros r t Hr. simpl in Hr.
  destruct (as_timestamp (at_pos i r)) as [d|]; simpl in Hr; [|discriminate].
  by injection Hr as <-.
Qed.

End Loading.

Section LoadProperties.

Variable py_str : value → string.
Variable parse_datetime : value → option (option Z).

Lemma foldl_upsert_customer_kept (l : list (string * Customer)) cs key old :
  cs !! key = Some old →
  ∃ c, foldl upsert_customer cs l !! key = Some c ∧
       first_purchase_date c = first_purchase_date old ∧
       c_schema_version c = c_schema_version old ∧
       (total_transactions old ≤ total_transactions c)%nat.
Proof.
  revert cs old. induction l as [|[k c0] l IH]; intros cs old Hold; simpl.
  - by exists old.
  - destruct (decide (k = key)) as [->|Hne].
    + edestruct (IH (upsert_customer cs (key, c0))) as (c & Hc & H1 & H2 & H3).
      { unfold upsert_customer. rewrite Hold. apply lookup_insert_eq. }
      exists c. simpl in *. repeat split; try done. lia.
    + apply IH. unfold upsert_customer. destruct (cs !! k); by rewrite lookup_insert_ne.
Qed.

Lemma foldl_upsert_product_kept (l : list (string * Product)) ps key old :
  ps !! key = Some old →
  ∃ p, foldl upsert_product ps l !! key = Some p ∧
       p_schema_version p = p_schema_version old.
Proof.
  revert ps old. induction l as [|[k p0] l IH]; intros ps old Hold; simpl.
  - by exists old.
  - destruct (decide (k = key)) as [->|Hne].
    + edestruct (IH (upsert_product ps (key, p0))) as (p & Hp & H1).
      { unfold upsert_product. rewrite Hold. apply lookup_insert_eq. }
      exists p. simpl in *. done.
    + apply IH. unfold upsert_product. destruct (ps !! k); by rewrite lookup_insert_ne.
Qed.

Lemma selected_rows_length fr wm i (rs : list row) :
  (length (selected_rows fr wm i rs) ≤ length rs)%nat.
Proof.
  unfold selected_rows. destruct fr; [done|]. destruct wm; [|done]. apply length_filter.
Qed.

Lemma transaction_rows_length df ts :
  transaction_rows py_str df = Ok ts → length ts = length (rows df).
Proof.
  unfold transaction_rows.
  repeat match goal with
  | |- bind ?x _ = Ok _ → _ => destruct x; cbn [bind]; [|discriminate]
  end.
  intros H. apply mapM_Forall2, Forall2_length in H. done.
Qed.

Lemma max_invoice_date_app s ts :
  foldr max_option None (map t_invoice_date (transactions s ++ ts))
  = max_option (max_invoice_date s) (foldr max_option None (map t_invoice_date ts)).
Proof. unfold max_invoice_date. by rewrite map_app, foldr_max_option_app. Qed.

(** X9.  What a successful [load_data] never takes away: everything it
    wrote is committed; the transactions already stored stay, in their
    order, and at most one transaction per row of the frame is appended;
    the watermark does not move back; a customer that was stored is
    still stored, with its [first_purchase_date] and [schema_version]
    unchanged and a transaction count that did not decrease; a product
    that was stored is still stored with its [schema_version]. *)
Theorem load_data_keeps_history conn df fr conn' :
  load_data py_str parse_datetime conn df fr = Ok conn' →
  committed conn' = session conn' ∧
  (∃ added,
     transactions (committed conn') = transactions (session conn) ++ added ∧
     (length added ≤ len df)%nat) ∧
  (∀ wm, max_invoice_date (session conn) = Some wm →
         ∃ wm', max_invoice_date (committed conn') = Some wm' ∧ (wm ≤ wm')%Z) ∧
  (∀ key old, customers (session conn) !! key = Some old →
     ∃ c, customers (committed conn') !! key = Some c ∧
          first_purchase_date c = first_purchase_date old ∧
          c_schema_version c = c_schema_version old ∧
          (total_transactions old ≤ total_transactions c)%nat) ∧
  (∀ key old, products (session conn) !! key = Some old →
     ∃ p, products (committed conn') !! key = Some p ∧
          p_schema_version p = p_schema_version old).
Proof.
  intros H. destruct (empty df) eqn:He.
  - apply load_data_of_empty in H as ->; [|done]. simpl.
    split; [done|]. split; [|split; [|split]].
    + exists []. rewrite app_nil_r. split; [done|]. simpl. lia.
    + intros wm Hwm. exists wm. split; [done|lia].
    + intros key old Hold. by exists old.
    + intros key old Hold. by exists old.
  - apply load_data_inv in H as (i & sel & cs & ps & ts & Hi & Hall & Hdt & Hreq & Hc & Hr
                                 & Hcs & Hps & Hts & Hs & Hcm & Hex); [|done].
    rewrite Hcm, Hs. simpl. split; [done|]. split; [|split; [|split]].
    + exists ts. split; [done|]. rewrite (transaction_rows_length _ _ Hts), Hr.
      apply selected_rows_length.
    + intros wm Hwm. unfold max_invoice_date at 1. simpl.
      rewrite max_invoice_date_app, Hwm.
      destruct (foldr max_option None (map t_invoice_date ts)) as [x|]; simpl.
      * exists (Z.max wm x). split; [done|lia].
      * exists wm. split; [done|lia].
    + intros key old Hold. by apply foldl_upsert_customer_kept.
    + intros key old Hold. by apply foldl_upsert_product_kept.
Qed.

(** X10.  With [full_refresh] set, or when the store holds no dated
    transaction, [load_data] inserts one transaction for every row of a
    frame that is not empty; with [full_refresh] set it does not query
    the watermark: the statements it runs are the three writes and the
    commit. *)
Theorem load_data_loads_every_row conn df fr conn' :
  empty df = false →
  fr = true ∨ max_invoice_date (session conn) = None →
  load_data py_str parse_datetime conn df fr = Ok conn' →
  ∃ added,
    transaction_rows py_str df = Ok added ∧ length added = len df ∧
    transactions (committed conn') = transactions (session conn) ++ added ∧
    (fr = true →
     ∃ nc np, executed conn' =
              executed conn ++ [UpsertCustomers nc; UpsertProducts np;
                                InsertTransactions (len df); Commit]).
Proof.
  intros He Hmode H.
  apply load_data_inv in H as (i & sel & cs & ps & ts & Hi & Hall & Hdt & Hreq & Hc & Hr
                               & Hcs & Hps & Hts & Hs & Hcm & Hex); [|done].
  assert (sel = df) as ->.
  { destruct sel as [c r], df as [c' r']. simpl in *. subst c. f_equal. rewrite Hr.
    unfold selected_rows. destruct Hmode as [->| ->]; [done|]. by destruct fr. }
  exists ts. split; [done|]. pose proof (transaction_rows_length _ _ Hts) as Hlen.
  split; [done|]. split; [by rewrite Hcm, Hs|].
  intros ->. exists (length cs), (length ps). rewrite Hex, Hlen. done.
Qed.

End LoadProperties.

(** ** Loading twice *)

Section Reloading.

Variable py_str : value → string.
Variable parse_datetime : value → option (option Z).

Lemma customer_rows_no_rows df cs :
  customer_rows py_str df = Ok cs →
  customer_rows py_str {| columns := columns df; rows := [] |} = Ok [].
Proof.
  unfold customer_rows, position. simpl columns.
  repeat match goal with
  | |- context [select ?c (columns df)] =>
      destruct (select c (columns df)); cbn [bind]; try discriminate
  end.
  done.
Qed.

Lemma product_rows_no_rows df ps :
  product_rows py_str df = Ok ps →
  product_rows py_str {| columns := columns df; rows := [] |} = Ok [].
Proof.
  unfold product_rows, position. simpl columns.
  repeat match goal with
  | |- context [select ?c (columns df)] =>
      destruct (select c (columns df)); cbn [bind]; try discriminate
  end.
  done.
Qed.

Lemma transaction_rows_no_rows df ts :
  transaction_rows py_str df = Ok ts →
  transaction_rows py_str {| columns := columns df; rows := [] |} = Ok [].
Proof.
  unfold transaction_rows, position. simpl columns.
  repeat match goal with
  | |- context [select ?c (columns df)] =>
      destruct (select c (columns df)); cbn [bind]; try discriminate
  end.
  done.
Qed.

Lemma newer_than_nothing w df i :
  select "invoice_date" (columns df) = OneColumn i →
  Forall (λ r, timestamp_or_missing (at_pos i r) = true ∧ after w (at_pos i r) = false)
         (rows df) →
  newer_than parse_datetime w df = Ok {| columns := columns df; rows := [] |}.
Proof.
  intros Hi Hall. unfold newer_than, position. rewrite Hi. cbn [bind].
  assert (∃ mask, mapM (λ r, let! v := to_datetime parse_datetime (at_pos i r) in
                             Ok (after w v)) (rows df) = Ok mask ∧
                  select_rows mask (rows df) = []) as (mask & -> & Hm).
  { induction Hall as [|r l [Ht Ha] _ (mask & IH & Hs)]; [by exists []|].
    exists (false :: mask). simpl.
    rewrite (to_datetime_timestamp parse_datetime _ Ht). simpl. rewrite Ha, IH. done. }
  cbn [bind]. by rewrite Hm.
Qed.

Lemma Forall2_elem_l {A B} (R : A → B → Prop) l k a :
  Forall2 R l k → a ∈ l → ∃ b, b ∈ k ∧ R a b.
Proof.
  intros HF Ha. apply list_elem_of_lookup in Ha as [i Hi].
  destruct (Forall2_lookup_l _ _ _ _ _ HF Hi) as (b & Hb & HR).
  exists b. split; [|done]. by eapply list_elem_of_lookup_2.
Qed.

(** An incremental load of a frame that was loaded, over any connection
    that sees what the first load committed. *)
Lemma incremental_reload conn df fr conn1 conn1' :
  load_data py_str parse_datetime conn df fr = Ok conn1 →
  empty df = true ∨ max_invoice_date (committed conn1) ≠ None →
  session conn1' = committed conn1 →
  ∃ conn2,
    load_data py_str parse_datetime conn1' df false = Ok conn2 ∧
    committed conn2 = committed conn1.
Proof.
  intros H Hwm Hsame. destruct (empty df) eqn:He.
  { apply load_data_of_empty in H as ->; [|done].
    exists (commit conn1'). unfold load_data. rewrite He. split; [done|]. simpl.
    by rewrite Hsame. }
  destruct Hwm as [|Hwm]; [done|].
  apply load_data_inv in H as (i & sel & cs & ps & ts & Hi & Hall & Hdt & Hreq & Hc & Hr
                               & Hcs & Hps & Hts & Hs & Hcm & Hex); [|done].
  rewrite Hcm in Hsame, Hwm.
  destruct (max_invoice_date (session conn1)) as [w1|] eqn:Hw1; [clear Hwm|done].
  pose proof Hw1 as Hw1'. unfold max_invoice_date in Hw1'. rewrite Hs in Hw1'.
  simpl in Hw1'. rewrite max_invoice_date_app in Hw1'.
  assert (Forall (λ r, timestamp_or_missing (at_pos i r) = true ∧
                       after w1 (at_pos i r) = false) (rows df)) as Hnone.
  { rewrite Forall_forall in Hall. apply Forall_forall. intros r Hr0.
    split; [by apply Hall|].
    destruct (at_pos i r) as [| | | |t] eqn:Hcell; try done. simpl. apply Z.ltb_ge.
    assert (r ∈ rows sel ∨
            ∃ w0, max_invoice_date (session conn) = Some w0 ∧ (t ≤ w0)%Z) as [Hsel|Hold].
    { rewrite Hr. unfold selected_rows. destruct fr; [by left|].
      destruct (max_invoice_date (session conn)) as [w0|]; [|by left].
      destruct (after w0 (at_pos i r)) eqn:Ha.
      - left. apply list_elem_of_filter. done.
      - right. exists w0. split; [done|]. rewrite Hcell in Ha. simpl in Ha.
        by apply Z.ltb_ge in Ha. }
    - assert (select "invoice_date" (columns sel) = OneColumn i) as Hi' by (by rewrite Hc).
      pose proof (transaction_rows_dates py_str _ _ _ Hi' Hts) as HF.
      destruct (Forall2_elem_l _ _ _ _ HF Hsel) as (tr & Htr & Hd).
      rewrite Hcell in Hd. simpl in Hd. injection Hd as Hd.
      assert (not_after (foldr max_option None (map t_invoice_date ts)) (Some t)) as Hle.
      { apply foldr_max_option_ge. rewrite Hd. apply list_elem_of_In, in_map, list_elem_of_In.
        done. }
      destruct (foldr max_option None (map t_invoice_date ts)) as [x|]; [|done].
      simpl in Hle. destruct (max_invoice_date (session conn)); simpl in Hw1';
        injection Hw1' as <-; lia.
    - destruct Hold as (w0 & Hw0 & Hle). rewrite Hw0 in Hw1'.
      destruct (foldr max_option None (map t_invoice_date ts)); simpl in Hw1';
        injection Hw1' as <-; lia. }
  eexists. split.
  - unfold load_data. rewrite He, Hreq.
    rewrite bool_decide_eq_true_2 by done. cbn [negb].
    assert (max_invoice_date (session conn1') = Some w1) as Hw1'' by (by rewrite Hsame).
    unfold incremental, get_max_invoice_date. cbn [negb]. rewrite Hw1''.
    rewrite (newer_than_nothing _ _ _ Hi Hnone). cbn [bind].
    rewrite <- Hc, (customer_rows_no_rows _ _ Hcs). cbn [bind]. rewrite Hdt. cbn [bind].
    rewrite (product_rows_no_rows _ _ Hps). cbn [bind].
    rewrite (transaction_rows_no_rows _ _ Hts). cbn [bind]. reflexivity.
  - simpl. rewrite Hcm, Hsame. destruct (session conn1). simpl. by rewrite app_nil_r.
Qed.

(** X11.  Loading the same frame again in incremental mode changes
    nothing: after a load that left a watermark in the store (or of an
    empty frame), [load_data] without [full_refresh] on the same frame
    returns and the committed data are those of the first load,
    provided no date of the frame lies strictly inside the second that
    starts at that watermark.  (The dates are stored cut to whole
    seconds, so such a row would be newer than the watermark it left;
    timestamps in whole seconds never are.) *)
Theorem incremental_reload_adds_nothing conn df fr conn1 :
  load_data py_str parse_datetime conn df fr = Ok conn1 →
  empty df = true ∨ max_invoice_date (committed conn1) ≠ None →
  (∀ w i r d, max_invoice_date (committed conn1) = Some w →
              select "invoice_date" (columns df) = OneColumn i →
              r ∈ rows df → at_pos i r = VDate d → ¬ (w < d < w + 1)%Z) →
  ∃ conn2,
    load_data py_str parse_datetime conn1 df false = Ok conn2 ∧
    committed conn2 = committed conn1.
Proof.
  intros H Hwm _. apply (incremental_reload conn df fr conn1 conn1 H Hwm).
  destruct (empty df) eqn:He.
  - apply load_data_of_empty in H as ->; [|done]. done.
  - apply load_data_inv in H as (i & sel & cs & ps & ts & _ & _ & _ & _ & _ & _
                                 & _ & _ & _ & _ & Hcm & _); [|done].
    by rewrite Hcm.
Qed.

End Reloading.

(** ** The watermark after a load *)

Section Watermark.

Variable py_str : value → string.
Variable parse_datetime : value → option (option Z).

(** After an incremental load the watermark covers every date of the
    frame. *)
Lemma load_data_covers conn clean fr conn' i r t :
  load_data py_str parse_datetime conn clean fr = Ok conn' →
  select "invoice_date" (columns clean) = OneColumn i →
  r ∈ rows clean → at_pos i r = VDate t →
  not_after (max_invoice_date (committed conn')) (Some t).
Proof.
  intros H Hi Hr Ht.
  assert (empty clean = false) as He.
  { unfold empty. destruct (rows clean); [inversion Hr|].
    destruct (columns clean); [discriminate|done]. }
  apply load_data_inv in H as (i' & sel & cs & ps & ts & Hi' & Hall & Hdt & Hreq & Hc & Hrows
                               & Hcs & Hps & Hts & Hs & Hcm & Hex); [|done].
  rewrite Hi in Hi'. injection Hi' as <-.
  rewrite Hcm, Hs. unfold max_invoice_date at 1. cbn [transactions].
  rewrite max_invoice_date_app.
  assert (select "invoice_date" (columns sel) = OneColumn i) as Hisel by (by rewrite Hc).
  pose proof (transaction_rows_dates py_str _ _ _ Hisel Hts) as HF.
  assert (r ∈ rows sel →
          not_after (foldr max_option None (map t_invoice_date ts)) (Some t)) as Hin.
  { intros Hrs. destruct (Forall2_elem_l _ _ _ _ HF Hrs) as (tx & Htx & Hd).
    rewrite Ht in Hd. simpl in Hd. injection Hd as Hd.
    rewrite Hd. apply foldr_max_option_ge. apply list_elem_of_fmap. by exists tx. }
  rewrite Hrows in Hin. unfold selected_rows in Hin.
  destruct fr.
  { eapply not_after_trans; [by apply Hin|apply max_option_ge]. }
  destruct (max_invoice_date (session conn)) as [w0|] eqn:Hw0.
  - destruct (decide (w0 < t)%Z) as [Hlt|Hge].
    + eapply not_after_trans; [|apply max_option_ge].
      apply Hin. apply list_elem_of_filter. split; [|done]. apply after_spec. eauto.
    + destruct (foldr max_option None (map t_invoice_date ts)); simpl; lia.
  - apply Hin. done.
Qed.

(** A load never lowers the watermark. *)
Lemma load_data_watermark conn clean fr conn' w0 :
  load_data py_str parse_datetime conn clean fr = Ok conn' →
  max_invoice_date (session conn) = Some w0 →
  not_after (max_invoice_date (committed conn')) (Some w0).
Proof.
  intros H Hw0. destruct (empty clean) eqn:He.
  { apply load_data_of_empty in H as ->; [|done]. simpl. rewrite Hw0. simpl. lia. }
  apply load_data_inv in H as (i' & sel & cs & ps & ts & Hi' & Hall & Hdt & Hreq & Hc & Hrows
                               & Hcs & Hps & Hts & Hs & Hcm & Hex); [|done].
  rewrite Hcm, Hs. unfold max_invoice_date at 1. cbn [transactions].
  rewrite max_invoice_date_app, Hw0.
  destruct (foldr max_option None (map t_invoice_date ts)); simpl; lia.
Qed.

(** A load that selects no row leaves the store as it is. *)
Lemma load_data_nothing_new conn clean conn' w i :
  load_data py_str parse_datetime conn clean false = Ok conn' →
  committed conn = session conn →
  max_invoice_date (session conn) = Some w →
  select "invoice_date" (columns clean) = OneColumn i →
  (∀ r, r ∈ rows clean → after w (at_pos i r) = false) →
  committed conn' = session conn.
Proof.
  intros H Hcommitted Hw Hi Hnone. destruct (empty clean) eqn:He.
  { apply load_data_of_empty in H as ->; [|done]. done. }
  apply load_data_inv in H as (i' & sel & cs & ps & ts & Hi' & Hall & Hdt & Hreq & Hc & Hrows
                               & Hcs & Hps & Hts & Hs & Hcm & Hex); [|done].
  rewrite Hi in Hi'. injection Hi' as <-.
  assert (rows sel = []) as Hnil.
  { rewrite Hrows, Hw. unfold selected_rows.
    destruct (filter _ (rows clean)) as [|x l] eqn:Hfl; [done|exfalso].
    assert (x ∈ filter (λ r, after w (at_pos i r) = true) (rows clean)) as Hx
      by (rewrite Hfl; left).
    apply list_elem_of_filter in Hx as [Hx Hin]. by rewrite (Hnone x Hin) in Hx. }
  assert (sel = {| columns := columns sel; rows := [] |}) as Hsel.
  { clear -Hnil. destruct sel as [c rs]. simpl in Hnil. by rewrite Hnil. }
  pose proof (customer_rows_no_rows py_str _ _ Hcs) as Hcs'.
  pose proof (product_rows_no_rows py_str _ _ Hps) as Hps'.
  pose proof (transaction_rows_no_rows py_str _ _ Hts) as Hts'.
  rewrite <- Hsel in Hcs', Hps', Hts'.
  rewrite Hcs in Hcs'. rewrite Hps in Hps'. rewrite Hts in Hts'.
  injection Hcs' as ->. injection Hps' as ->. injection Hts' as ->.
  rewrite Hcm, Hs. simpl. rewrite app_nil_r. by destruct (session conn).
Qed.

(** X24.  After a [load_data] that returns, in either mode, the
    watermark [MAX(invoice_date)] of the committed store is less than
    one second behind every timestamp in the [invoice_date] column of
    the frame: rows not loaded were already covered, and a row loaded
    is stored with its date cut to whole seconds. *)
Theorem load_data_watermark_covers_frame conn df fr conn' i r t :
  load_data py_str parse_datetime conn df fr = Ok conn' →
  select "invoice_date" (columns df) = OneColumn i →
  r ∈ rows df → at_pos i r = VDate t →
  ∃ w, max_invoice_date (committed conn') = Some w ∧ (t < w + 1)%Z.
Proof.
  intros H Hi Hr Ht. pose proof (load_data_covers _ _ _ _ _ _ _ H Hi Hr Ht) as Hcov.
  destruct (max_invoice_date (committed conn')) as [w|]; [|done].
  exists w. split; [done|]. simpl in Hcov. lia.
Qed.

End Watermark.

(** ** Cleaning, then loading *)

Section CleanThenLoad.

Variable py_str : value → string.
Variable parse_datetime : value → option (option Z).

Lemma as_number_numeric v : numeric_or_missing v = true → ∃ x, as_number v = Ok x.
Proof. destruct v; simpl; try discriminate; by eexists. Qed.

Lemma as_timestamp_ok v : timestamp_or_missing v = true → ∃ d, as_timestamp v = Ok d.
Proof. destruct v; simpl; try discriminate; by eexists. Qed.

Lemma position_one c df i : select c (columns df) = OneColumn i → position c df = Ok i.
Proof. unfold position. by intros ->. Qed.

Lemma newer_than_ok w df i :
  select "invoice_date" (columns df) = OneColumn i →
  (∀ r, r ∈ rows df → timestamp_or_missing (at_pos i r) = true) →
  ∃ sel, newer_than parse_datetime w df = Ok sel ∧ columns sel = columns df ∧
         ∀ r, r ∈ rows sel → r ∈ rows df.
Proof.
  intros Hi Hall. unfold newer_than. rewrite (position_one _ _ _ Hi). cbn [bind].
  destruct (mapM_ok (λ r, let! v := to_datetime parse_datetime (at_pos i r) in
                          Ok (after w v)) (rows df)) as [mask HM].
  { intros r Hr. rewrite (to_datetime_timestamp parse_datetime _ (Hall r Hr)). simpl.
    by eexists. }
  rewrite HM. cbn [bind]. eexists. split; [done|]. split; [done|]. simpl.
  clear. revert mask. induction (rows df) as [|r l IH]; intros [|b mask] r' Hr';
    simpl in Hr'; try by inversion Hr'.
  destruct b.
  - apply elem_of_cons in Hr' as [->|Hr']; [by left|]. right. by eapply IH.
  - right. by eapply IH.
Qed.

Lemma customer_rows_ok df i_customer i_country i_date i_total i_invoice :
  select "customer_id" (columns df) = OneColumn i_customer →
  select "country" (columns df) = OneColumn i_country →
  select "invoice_date" (columns df) = OneColumn i_date →
  select "total_amount" (columns df) = OneColumn i_total →
  select "invoice" (columns df) = OneColumn i_invoice →
  (∀ r, r ∈ rows df → numeric_or_missing (at_pos i_total r) = true) →
  ∃ cs, customer_rows py_str df = Ok cs.
Proof.
  intros H1 H2 H3 H4 H5 Hall. unfold customer_rows.
  rewrite (position_one _ _ _ H1), (position_one _ _ _ H2), (position_one _ _ _ H3),
    (position_one _ _ _ H4), (position_one _ _ _ H5). cbn [bind].
  match goal with
  | |- ∃ cs, bind (mapM ?f ?l) _ = _ => destruct (mapM_ok f l) as [cs ->]
  end.
  - intros key _.
    destruct (mapM_ok (λ r, as_number (at_pos i_total r))
                (group i_customer key (rows df))) as [amounts ->].
    { intros r Hr. apply as_number_numeric, Hall.
      unfold group in Hr. by apply list_elem_of_filter in Hr as [_ Hr]. }
    cbn [bind]. by eexists.
  - cbn [bind]. by eexists.
Qed.

Lemma datetimelike_ok df i :
  select "invoice_date" (columns df) = OneColumn i →
  (∀ r, r ∈ rows df → timestamp_or_missing (at_pos i r) = true) →
  datetimelike df = Ok tt.
Proof.
  intros Hi Hall. unfold datetimelike. rewrite (position_one _ _ _ Hi). cbn [bind].
  destruct (mapM_ok (λ r, as_timestamp (at_pos i r)) (rows df)) as [l ->]; [|done].
  intros r Hr. by apply as_timestamp_ok, Hall.
Qed.

Lemma product_rows_ok df i_stock i_description :
  select "stock_code" (columns df) = OneColumn i_stock →
  select "description" (columns df) = OneColumn i_description →
  ∃ ps, product_rows py_str df = Ok ps.
Proof.
  intros H1 H2. unfold product_rows.
  rewrite (position_one _ _ _ H1), (position_one _ _ _ H2). cbn [bind]. by eexists.
Qed.

Lemma transaction_rows_ok df i1 i2 i3 i4 i5 i6 i7 i8 :
  select "invoice" (columns df) = OneColumn i1 →
  select "invoice_date" (columns df) = OneColumn i2 →
  select "customer_id" (columns df) = OneColumn i3 →
  select "stock_code" (columns df) = OneColumn i4 →
  select "quantity" (columns df) = OneColumn i5 →
  select "price" (columns df) = OneColumn i6 →
  select "total_amount" (columns df) = OneColumn i7 →
  select "country" (columns df) = OneColumn i8 →
  (∀ r, r ∈ rows df → timestamp_or_missing (at_pos i2 r) = true) →
  ∃ ts, transaction_rows py_str df = Ok ts.
Proof.
  intros H1 H2 H3 H4 H5 H6 H7 H8 Hall. unfold transaction_rows.
  rewrite (position_one _ _ _ H1), (position_one _ _ _ H2), (position_one _ _ _ H3),
    (position_one _ _ _ H4), (position_one _ _ _ H5), (position_one _ _ _ H6),
    (position_one _ _ _ H7), (position_one _ _ _ H8). cbn [bind].
  apply mapM_ok. intros r Hr.
  destruct (as_timestamp_ok _ (Hall r Hr)) as [d ->]. cbn [bind]. by eexists.
Qed.

Lemma load_required_present cols :
  (∀ c, c ∈ ["customer_id"; "invoice"; "stock_code"; "invoice_date";
             "quantity"; "price"; "country"; "description"] → c ∈ cols) →
  load_required_columns ∖ list_to_set (C := gset string) cols = ∅.
Proof.
  intros Hall. apply leibniz_equiv, elem_of_equiv_empty. intros c Hc.
  apply elem_of_difference in Hc as [Hreq Hnot]. apply Hnot.
  apply elem_of_list_to_set, Hall. unfold load_required_columns in Hreq.
  by apply elem_of_list_to_set in Hreq.
Qed.

(** X15.  The frame that [clean_data] returns can be loaded: when it is
    not empty, [stock_code], [country], [description] and
    [total_amount] each name exactly one of its columns and every
    description is a string (so that the column has the [.str]
    accessor), [load_data] returns without raising, in either mode and
    whatever the store holds. *)
Theorem cleaned_frame_loads df out m conn fr :
  clean_data py_str parse_datetime df = Ok (out, m) →
  empty out = false →
  (∀ c, c ∈ ["stock_code"; "country"; "description"; "total_amount"] →
        ∃ i, select c (columns out) = OneColumn i) →
  (∀ i r, select "description" (columns out) = OneColumn i → r ∈ rows out →
          ∃ s, at_pos i r = VStr s) →
  ∃ conn', load_data py_str parse_datetime conn out fr = Ok conn'.
Proof.
  intros H He Huniq _.
  assert (rows out ≠ []) as Hne'.
  { unfold empty in He. by destruct (rows out). }
  assert (rows df ≠ []) as Hne.
  { intros Hr. apply Hne'. by eapply clean_data_rows_of_empty. }
  pose proof (clean_data_nonempty py_str parse_datetime _ _ _ Hne H) as Hc.
  destruct Hc as [ic iinv idate iq ip staged vi vq vp nt nq np cols
            Hic Hiinv Hidate Hiq Hip _ _ _ _ _ _ _ _ _ _ _ Cout _ _ _ _ _ _ _].
  assert (∀ c i, c ≠ "total_amount" → select c cols = OneColumn i →
                 select c (columns out) = OneColumn i) as Hsel.
  { intros c i Hc' Hs. by rewrite Cout, select_columns_with. }
  pose proof (Hsel "customer_id" _ ltac:(done) Hic) as Sic.
  pose proof (Hsel "invoice" _ ltac:(done) Hiinv) as Siinv.
  pose proof (Hsel "invoice_date" _ ltac:(done) Hidate) as Sidate.
  pose proof (Hsel "quantity" _ ltac:(done) Hiq) as Siq.
  pose proof (Hsel "price" _ ltac:(done) Hip) as Sip.
  destruct (Huniq "stock_code") as [istock Sistock]; [by repeat constructor|].
  destruct (Huniq "country") as [icountry Sicountry]; [by repeat constructor|].
  destruct (Huniq "description") as [idesc Sidesc]; [by repeat constructor|].
  destruct (Huniq "total_amount") as [itotal Sitotal]; [by repeat constructor|].
  assert (∀ r, r ∈ rows out →
            timestamp_or_missing (at_pos idate r) = true ∧
            numeric_or_missing (at_pos itotal r) = true) as Hrow.
  { intros r Hr.
    destruct (clean_data_rows py_str parse_datetime _ _ _ _ Hne H Hr)
      as (_ & r0 & _ & _ & _ & _ & _ & Vt & Vm).
    split.
    - eapply (to_datetime_value parse_datetime). by apply Vt.
    - eapply mul_cells_value. apply (Vm iq ip itotal); try done.
      by apply select_one_lookup. }
  unfold load_data. rewrite He.
  rewrite bool_decide_eq_true_2.
  2: { apply load_required_present. intros c Hc'.
       repeat (apply elem_of_cons in Hc' as [->|Hc']; [by eauto using select_one_elem|]).
       inversion Hc'. }
  cbn [negb].
  assert (∃ sel conn0, incremental parse_datetime conn out fr = Ok (sel, conn0) ∧
                       columns sel = columns out ∧ ∀ r, r ∈ rows sel → r ∈ rows out)
    as (sel & conn0 & -> & Csel & Hsub).
  { unfold incremental, get_max_invoice_date. destruct fr; cbn [negb]; [by eexists _, _|].
    destruct (max_invoice_date (session conn)) as [w|]; [|by eexists _, _].
    destruct (newer_than_ok w out idate Sidate) as (sel & -> & Csel & Hsub).
    { intros r Hr. by apply Hrow. }
    cbn [bind]. by eexists _, _. }
  cbn [bind].
  destruct (customer_rows_ok sel ic icountry idate itotal iinv) as [cs ->];
    rewrite ?Csel; try done.
  { intros r Hr. by apply Hrow, Hsub. }
  cbn [bind].
  rewrite (datetimelike_ok out idate Sidate) by (intros r Hr; by apply Hrow). cbn [bind].
  destruct (product_rows_ok sel istock idesc) as [ps ->]; rewrite ?Csel; try done.
  cbn [bind].
  destruct (transaction_rows_ok sel iinv idate ic istock iq ip itotal icountry) as [ts ->];
    rewrite ?Csel; try done.
  { intros r Hr. by apply Hrow, Hsub. }
  cbn [bind]. by eexists.
Qed.

End CleanThenLoad.

(** ** The upserts *)

Section Upserts.

Variable py_str : value → string.
Variable parse_datetime : value → option (option Z).

Lemma upsert_customer_lookup cs key c key' :
  upsert_customer cs (key, c) !! key'
  = if decide (key' = key) then merge_customer (cs !! key) c else cs !! key'.
Proof.
  unfold upsert_customer, merge_customer. case_decide as Hk.
  - subst key'. destruct (cs !! key); by rewrite lookup_insert_eq.
  - destruct (cs !! key); by rewrite lookup_insert_ne.
Qed.

Lemma upsert_product_lookup ps key p key' :
  upsert_product ps (key, p) !! key'
  = if decide (key' = key) then merge_product (ps !! key) p else ps !! key'.
Proof.
  unfold upsert_product, merge_product. case_decide as Hk.
  - subst key'. destruct (ps !! key); by rewrite lookup_insert_eq.
  - destruct (ps !! key); by rewrite lookup_insert_ne.
Qed.

Lemma foldl_upsert_customer_other (l : list (string * Customer)) cs key :
  key ∉ map fst l → foldl upsert_customer cs l !! key = cs !! key.
Proof.
  revert cs. induction l as [|[k c] l IH]; intros cs Hk; cbn [foldl]; [done|].
  simpl in Hk. apply not_elem_of_cons in Hk as [Hne Hk].
  rewrite IH by done. rewrite upsert_customer_lookup. by case_decide.
Qed.

Lemma foldl_upsert_product_other (l : list (string * Product)) ps key :
  key ∉ map fst l → foldl upsert_product ps l !! key = ps !! key.
Proof.
  revert ps. induction l as [|[k p] l IH]; intros ps Hk; cbn [foldl]; [done|].
  simpl in Hk. apply not_elem_of_cons in Hk as [Hne Hk].
  rewrite IH by done. rewrite upsert_product_lookup. by case_decide.
Qed.

Lemma sql_key_text v : isna v = false → sql_text py_str v = Some (sql_key py_str v).
Proof. unfold sql_key. by destruct v. Qed.

Lemma customer_rows_keys df cs i key :
  select "customer_id" (columns df) = OneColumn i →
  customer_rows py_str df = Ok cs → key ∈ map fst cs →
  ∃ r, r ∈ rows df ∧ sql_text py_str (at_pos i r) = Some key.
Proof.
  intros Hi. unfold customer_rows, position. rewrite Hi.
  repeat match goal with
  | |- context [select ?c (columns df)] =>
      destruct (select c (columns df)); cbn [bind]; try discriminate
  end.
  match goal with
  | |- bind (mapM ?f ?l) _ = _ → _ => destruct (mapM f l) as [cs'|] eqn:HM
  end; cbn [bind]; [|discriminate].
  intros H. injection H as <-. intros Hk.
  apply list_elem_of_In, in_map_iff in Hk as ([k c] & <- & Hin).
  apply list_elem_of_In in Hin. apply mapM_Forall2 in HM.
  destruct (Forall2_elem_r _ _ _ _ HM Hin) as (v & Hv & Hf).
  apply distinct_elem in Hv as [Hv Hna].
  apply list_elem_of_In, in_map_iff in Hv as (r & <- & Hr). apply list_elem_of_In in Hr.
  simpl in Hf. destruct (mapM _ _); simpl in Hf; [|discriminate]. injection Hf as <- _.
  exists r. split; [done|]. by apply sql_key_text.
Qed.

Lemma product_rows_keys df ps i key :
  select "stock_code" (columns df) = OneColumn i →
  product_rows py_str df = Ok ps → key ∈ map fst ps →
  ∃ r, r ∈ rows df ∧ sql_text py_str (at_pos i r) = Some key.
Proof.
  intros Hi. unfold product_rows, position. rewrite Hi.
  destruct (select "description" (columns df)); cbn [bind]; try discriminate.
  intros H. injection H as <-. intros Hk. rewrite map_map in Hk. simpl in Hk.
  apply list_elem_of_In, in_map_iff in Hk as (v & <- & Hv).
  apply list_elem_of_In, distinct_elem in Hv as [Hv Hna].
  apply list_elem_of_In, in_map_iff in Hv as (r & <- & Hr). apply list_elem_of_In in Hr.
  exists r. split; [done|]. by apply sql_key_text.
Qed.

(** X12.  [load_data] writes only the keys of the rows it loads: a
    customer id carried by none of the loaded rows has the customer row
    it had before (or still none), and so has a stock code in the
    products.  The loaded rows are the rows after the watermark in
    incremental mode, all rows otherwise. *)
Theorem load_data_touches_only_loaded_keys conn df fr conn' i_date i_customer i_stock :
  empty df = false →
  load_data py_str parse_datetime conn df fr = Ok conn' →
  select "invoice_date" (columns df) = OneColumn i_date →
  select "customer_id" (columns df) = OneColumn i_customer →
  select "stock_code" (columns df) = OneColumn i_stock →
  let loaded := selected_rows fr (max_invoice_date (session conn)) i_date (rows df) in
  (∀ key, (∀ r, r ∈ loaded → sql_text py_str (at_pos i_customer r) ≠ Some key) →
          customers (committed conn') !! key = customers (session conn) !! key) ∧
  (∀ key, (∀ r, r ∈ loaded → sql_text py_str (at_pos i_stock r) ≠ Some key) →
          products (committed conn') !! key = products (session conn) !! key).
Proof.
  intros He H Hid Hic His loaded.
  apply load_data_inv in H as (i & sel & cs & ps & ts & Hi & Hall & Hdt & Hreq & Hc & Hr
                               & Hcs & Hps & Hts & Hs & Hcm & Hex); [|done].
  rewrite Hid in Hi. injection Hi as <-. fold loaded in Hr.
  rewrite Hcm, Hs. simpl. split.
  - intros key Hkey. apply foldl_upsert_customer_other. intros Hin.
    destruct (customer_rows_keys sel cs i_customer key) as (r & Hrin & Hk);
      [by rewrite Hc|done..|].
    rewrite Hr in Hrin. by apply (Hkey r).
  - intros key Hkey. apply foldl_upsert_product_other. intros Hin.
    destruct (product_rows_keys sel ps i_stock key) as (r & Hrin & Hk);
      [by rewrite Hc|done..|].
    rewrite Hr in Hrin. by apply (Hkey r).
Qed.

(** ** Loading the same products twice *)

Lemma last_default {A} (q : list A) d d' : q ≠ [] → List.last q d = List.last q d'.
Proof.
  induction q as [|a q IH]; [done|]. intros _. destruct q as [|b q]; [done|].
  change (List.last (b :: q) d = List.last (b :: q) d'). by apply IH.
Qed.

Lemma foldl_merge_product q x :
  foldl merge_product (Some x) q = Some (last_write q x).
Proof.
  revert x. induction q as [|p q IH]; intros x.
  - by destruct x.
  - cbn [foldl]. unfold merge_product at 2. rewrite IH. f_equal. unfold last_write.
    destruct q as [|a q]; [done|]. cbn [p_schema_version]. f_equal;
      change (List.last (p :: a :: q) x) with (List.last (a :: q) x);
      f_equal; by apply last_default.
Qed.

Lemma foldl_merge_product_idemp q stored :
  foldl merge_product (foldl merge_product stored q) q = foldl merge_product stored q.
Proof.
  destruct q as [|p q]; [done|]. cbn [foldl].
  assert (∃ y, merge_product stored p = Some y ∧ p_description y = p_description p ∧
               category y = category p) as (y & -> & Hd & Hc).
  { unfold merge_product. destruct stored; by eexists. }
  rewrite !foldl_merge_product. cbn [foldl]. unfold merge_product at 2.
  rewrite foldl_merge_product. f_equal. unfold last_write. cbn [p_schema_version].
  destruct q as [|a q]; [simpl; by rewrite Hd, Hc|].
  f_equal; f_equal; by apply last_default.
Qed.

Lemma foldl_upsert_product_lookup (l : list (string * Product)) ps key :
  foldl upsert_product ps l !! key
  = foldl merge_product (ps !! key) (map snd (filter (λ kp, kp.1 = key) l)).
Proof.
  revert ps. induction l as [|[k p] l IH]; intros ps; [done|].
  cbn [foldl]. rewrite IH, upsert_product_lookup, filter_cons. cbn [fst].
  destruct (decide (key = k)) as [->|Hne].
  - rewrite decide_True by done. done.
  - rewrite decide_False by done. done.
Qed.

Lemma foldl_upsert_product_idemp (l : list (string * Product)) ps :
  foldl upsert_product (foldl upsert_product ps l) l = foldl upsert_product ps l.
Proof.
  apply map_eq. intros key.
  rewrite !foldl_upsert_product_lookup. apply foldl_merge_product_idemp.
Qed.

(** X13.  A full refresh of the same frame a second time returns and
    inserts every row once more, so that the transactions of the frame
    are stored twice, while the products table is the same after the
    second load as after the first. *)
Theorem full_refresh_reload conn df conn1 :
  empty df = false →
  load_data py_str parse_datetime conn df true = Ok conn1 →
  ∃ conn2 added,
    load_data py_str parse_datetime conn1 df true = Ok conn2 ∧
    length added = len df ∧
    transactions (committed conn1) = transactions (session conn) ++ added ∧
    transactions (committed conn2) = transactions (committed conn1) ++ added ∧
    products (committed conn2) = products (committed conn1).
Proof.
  intros He H.
  apply load_data_inv in H as (i & sel & cs & ps & ts & Hi & Hall & Hdt & Hreq & Hc & Hr
                               & Hcs & Hps & Hts & Hs & Hcm & Hex); [|done].
  assert (sel = df) as ->.
  { destruct sel as [c r], df as [c' r']. simpl in *. by subst. }
  eexists _, ts. split; [|split; [|split; [|split]]].
  - unfold load_data. rewrite He, Hreq. rewrite bool_decide_eq_true_2 by done.
    unfold incremental. cbn [negb bind]. rewrite Hcs. cbn [bind]. rewrite Hdt. cbn [bind].
    rewrite Hps. cbn [bind]. rewrite Hts. cbn [bind]. reflexivity.
  - by apply (transaction_rows_length py_str).
  - by rewrite Hcm, Hs.
  - simpl. by rewrite Hcm.
  - simpl. rewrite Hcm, Hs. simpl. apply foldl_upsert_product_idemp.
Qed.

End Upserts.

(** ** The customer rows *)

Section Aggregation.

Variable py_str : value → string.
Variable parse_datetime : value → option (option Z).

Lemma same_value_str s v : same_value (VStr s) v = true ↔ v = VStr s.
Proof.
  destruct v as [|t| | |]; simpl; try (split; [discriminate|discriminate]).
  rewrite bool_decide_eq_true. split; [by intros ->|by intros [= ->]].
Qed.

Lemma existsb_same_value_str s seen :
  existsb (same_value (VStr s)) seen = true ↔ VStr s ∈ seen.
Proof.
  rewrite existsb_exists. split.
  - intros (x & Hx & Hs). apply same_value_str in Hs as ->. by apply list_elem_of_In.
  - intros Hin. exists (VStr s). split; [by apply list_elem_of_In|]. by apply same_value_str.
Qed.

(** The distinct values of a column of strings. *)
Lemma distinct_strings seen vals :
  (∀ v, v ∈ vals → string_or_missing v = true) →
  ∃ keys, distinct seen vals = map VStr keys ∧ NoDup keys ∧
          (∀ k, k ∈ keys → VStr k ∉ seen) ∧
          (∀ s, VStr s ∈ vals → VStr s ∈ seen ∨ s ∈ keys).
Proof.
  revert seen. induction vals as [|v vals IH]; intros seen Hall.
  - exists []. split; [done|]. split; [constructor|].
    split; [intros k Hk; inversion Hk|intros s0 Hs; inversion Hs].
  - assert (∀ v', v' ∈ vals → string_or_missing v' = true) as Hall'.
    { intros v' Hv'. apply Hall. by right. }
    assert (string_or_missing v = true) as Hv by (apply Hall; by left).
    destruct v as [|s| | |]; try discriminate; cbn [distinct isna orb].
    + destruct (IH seen Hall') as (keys & -> & Hnd & Hnot & Hcov).
      exists keys. repeat split; try done.
      intros s0 Hs. apply elem_of_cons in Hs as [?|Hs]; [discriminate|]. by apply Hcov.
    + destruct (existsb (same_value (VStr s)) seen) eqn:Hex.
      * apply existsb_same_value_str in Hex.
        destruct (IH seen Hall') as (keys & -> & Hnd & Hnot & Hcov).
        exists keys. repeat split; try done.
        intros s' Hs'. apply elem_of_cons in Hs' as [[= ->]|Hs']; [by left|]. by apply Hcov.
      * assert (VStr s ∉ seen) as Hnew.
        { intros Hin. apply existsb_same_value_str in Hin. congruence. }
        destruct (IH (VStr s :: seen) Hall') as (keys & -> & Hnd & Hnot & Hcov).
        exists (s :: keys). split; [done|]. split; [|split].
        -- apply NoDup_cons. split; [|done]. intros Hin. apply (Hnot s Hin). by left.
        -- intros k Hk. apply elem_of_cons in Hk as [->|Hk]; [done|].
           intros Hin. apply (Hnot k Hk). by right.
        -- intros s' Hs'. apply elem_of_cons in Hs' as [[= ->]|Hs']; [right; by left|].
           destruct (Hcov s' Hs') as [Hin|Hin].
           ++ apply elem_of_cons in Hin as [[= ->]|Hin]; [right; by left|by left].
           ++ right. by right.
Qed.

Lemma foldl_upsert_customer_lookup (l : list (string * Customer)) cs key c :
  NoDup (map fst l) → (key, c) ∈ l →
  foldl upsert_customer cs l !! key = merge_customer (cs !! key) c.
Proof.
  revert cs. induction l as [|[k0 c0] l IH]; intros cs Hnd Hin; [inversion Hin|].
  cbn [foldl]. simpl in Hnd. apply NoDup_cons in Hnd as [Hk0 Hnd].
  apply elem_of_cons in Hin as [[= <- <-]|Hin].
  - rewrite foldl_upsert_customer_other by done.
    rewrite upsert_customer_lookup. by rewrite decide_True.
  - rewrite IH by done. rewrite upsert_customer_lookup.
    rewrite decide_False; [done|]. intros ->. apply Hk0.
    apply list_elem_of_In. apply (in_map fst _ (k0, c)). by apply list_elem_of_In.
Qed.

(** X14.  What [load_data] writes for one customer, for a frame whose
    customer ids are strings: from the loaded rows [g] of that customer
    it computes the first country that is not missing, the earliest and
    the latest invoice date, the sum of [total_amount] and the number of
    distinct invoices, and merges them into the stored row as the
    statement says: a new customer is stored as computed; for a stored
    customer the country and the last purchase date are overwritten, the
    two totals are added, and the first purchase date is kept. *)
Theorem load_data_customer_aggregate conn df fr conn'
    i_customer i_country i_date i_total i_invoice key :
  empty df = false →
  load_data py_str parse_datetime conn df fr = Ok conn' →
  select "customer_id" (columns df) = OneColumn i_customer →
  select "country" (columns df) = OneColumn i_country →
  select "invoice_date" (columns df) = OneColumn i_date →
  select "total_amount" (columns df) = OneColumn i_total →
  select "invoice" (columns df) = OneColumn i_invoice →
  (∀ r, r ∈ rows df → string_or_missing (at_pos i_customer r) = true) →
  group i_customer (VStr key)
    (selected_rows fr (max_invoice_date (session conn)) i_date (rows df)) ≠ [] →
  let loaded := selected_rows fr (max_invoice_date (session conn)) i_date (rows df) in
  let g := group i_customer (VStr key) loaded in
  ∃ amounts,
    mapM (λ r, as_number (at_pos i_total r)) g = Ok amounts ∧
    customers (committed conn') !! key =
      merge_customer (customers (session conn) !! key)
        {| c_country := sql_text py_str (first_notna (map (at_pos i_country) g));
           first_purchase_date :=
             foldr min_option None (map (λ r, timestamp_of (at_pos i_date r)) g);
           last_purchase_date :=
             foldr max_option None (map (λ r, timestamp_of (at_pos i_date r)) g);
           total_spent := sum_numbers amounts;
           total_transactions := length (distinct [] (map (at_pos i_invoice) g));
           c_schema_version := SCHEMA_VERSION |}.
Proof.
  intros He H Hic Hicountry Hid Hit Hiinv Hstr Hg loaded g. fold loaded in Hg. fold g in Hg.
  apply load_data_inv in H as (i & sel & cs & ps & ts & Hi & Hall & Hdt & Hreq & Hc & Hr
                               & Hcs & Hps & Hts & Hs & Hcm & Hex); [|done].
  rewrite Hid in Hi. injection Hi as <-. fold loaded in Hr.
  assert (∀ r, r ∈ loaded → r ∈ rows df) as Hsub.
  { intros r. unfold loaded, selected_rows. destruct fr; [done|].
    destruct (max_invoice_date (session conn)); [|done].
    intros Hin. by apply list_elem_of_filter in Hin as [_ Hin]. }
  unfold customer_rows, position in Hcs. rewrite Hc, Hic, Hicountry, Hid, Hit, Hiinv in Hcs.
  cbn [bind] in Hcs. rewrite Hr in Hcs.
  match type of Hcs with
  | bind (mapM ?f ?l) _ = _ => destruct (mapM f l) as [cs'|] eqn:HM
  end; cbn [bind] in Hcs; [|discriminate].
  injection Hcs as ->. apply mapM_Forall2 in HM.
  destruct (distinct_strings [] (map (at_pos i_customer) loaded)) as (keys & Hkeys & Hnd & _ & Hcov).
  { intros v Hv. apply list_elem_of_In, in_map_iff in Hv as (r & <- & Hrin).
    apply Hstr, Hsub. by apply list_elem_of_In. }
  rewrite Hkeys in HM.
  assert (map fst cs = keys) as Hfst.
  { clear -HM. revert cs HM. induction keys as [|k keys IH]; intros cs HM;
      inversion HM as [|? kc ? cs0 Hk HM']; subst; [done|].
    simpl. rewrite (IH _ HM'). f_equal. simpl in Hk.
    destruct (mapM _ _); simpl in Hk; [|discriminate]. by injection Hk as <-. }
  assert (key ∈ keys) as Hkey.
  { destruct g as [|r g'] eqn:Eg; [done|].
    assert (r ∈ group i_customer (VStr key) loaded) as Hrin.
    { fold g. rewrite Eg. by left. }
    apply list_elem_of_filter in Hrin as [Hcell Hrin]. apply same_value_str in Hcell.
    destruct (Hcov key) as [Hin|Hin]; [|inversion Hin|done].
    rewrite <- Hcell. apply list_elem_of_In, in_map, list_elem_of_In. done. }
  assert (VStr key ∈ map VStr keys) as Hkv.
  { apply list_elem_of_In, in_map, list_elem_of_In. done. }
  destruct (Forall2_elem_l _ _ _ _ HM Hkv) as (kc & Hkc & Hf).
  simpl in Hf. fold g in Hf.
  destruct (mapM (λ r, as_number (at_pos i_total r)) g) as [amounts|]; simpl in Hf;
    [|discriminate].
  injection Hf as <-. exists amounts. split; [done|].
  rewrite Hcm, Hs. simpl.
  apply foldl_upsert_customer_lookup; [by rewrite Hfst|done].
Qed.

End Aggregation.

(** ** The product rows *)

Section ProductRows.

Variable py_str : value → string.
Variable parse_datetime : value → option (option Z).

Lemma upper_prefix_capitals s : capitals (upper_prefix s) = true.
Proof.
  induction s as [|c s IH]; [done|]. simpl.
  destruct (is_upper c) eqn:Hc; [|done]. simpl. by rewrite Hc, IH.
Qed.

Lemma first_upper_run_capitals s run :
  first_upper_run s = Some run → run ≠ EmptyString ∧ capitals run = true.
Proof.
  induction s as [|c s IH]; [discriminate|]. simpl.
  destruct (is_upper c) eqn:Hc; [|done].
  intros [= <-]. split; [done|]. simpl. by rewrite Hc, upper_prefix_capitals.
Qed.

Lemma extract_category_capitals d :
  extract_category d ≠ EmptyString ∧ capitals (extract_category d) = true.
Proof.
  destruct d as [|s| | |]; try (split; [done|by vm_compute]).
  unfold extract_category.
  destruct (first_upper_run s) as [run|] eqn:Hrun; cbn [from_option id].
  - by apply (first_upper_run_capitals s).
  - split; [done|by vm_compute].
Qed.

Lemma foldl_upsert_product_once (l : list (string * Product)) ps key p :
  NoDup (map fst l) → (key, p) ∈ l →
  foldl upsert_product ps l !! key = merge_product (ps !! key) p.
Proof.
  revert ps. induction l as [|[k0 p0] l IH]; intros ps Hnd Hin; [inversion Hin|].
  cbn [foldl]. simpl in Hnd. apply NoDup_cons in Hnd as [Hk0 Hnd].
  apply elem_of_cons in Hin as [[= <- <-]|Hin].
  - rewrite foldl_upsert_product_other by done.
    rewrite upsert_product_lookup. by rewrite decide_True.
  - rewrite IH by done. rewrite upsert_product_lookup.
    rewrite decide_False; [done|]. intros ->. apply Hk0.
    apply list_elem_of_In. apply (in_map fst _ (k0, p)). by apply list_elem_of_In.
Qed.

(** X26.  What [load_data] writes for one product, for a frame whose
    stock codes are strings: the first description that is not missing
    among the loaded rows of that stock code, and the category drawn
    from it.  A new product is stored as computed; for a stored product
    the description and the category are overwritten and the schema
    version is kept.  The category is never empty and made of capital
    letters only: the first run of capitals of the description, or
    ["OTHER"] when there is none or no description. *)
Theorem load_data_product_row conn df fr conn' i_stock i_description i_date key :
  empty df = false →
  load_data py_str parse_datetime conn df fr = Ok conn' →
  select "stock_code" (columns df) = OneColumn i_stock →
  select "description" (columns df) = OneColumn i_description →
  select "invoice_date" (columns df) = OneColumn i_date →
  (∀ r, r ∈ rows df → string_or_missing (at_pos i_stock r) = true) →
  group i_stock (VStr key)
    (selected_rows fr (max_invoice_date (session conn)) i_date (rows df)) ≠ [] →
  let loaded := selected_rows fr (max_invoice_date (session conn)) i_date (rows df) in
  let description :=
    first_notna (map (at_pos i_description) (group i_stock (VStr key) loaded)) in
  products (committed conn') !! key =
    merge_product (products (session conn) !! key)
      {| p_description := sql_text py_str description;
         category := extract_category description;
         p_schema_version := SCHEMA_VERSION |} ∧
  extract_category description ≠ EmptyString ∧
  capitals (extract_category description) = true ∧
  (isna description = true → extract_category description = "OTHER").
Proof.
  intros He H His Hidesc Hid Hstr Hg loaded description. fold loaded in Hg.
  split; [|split; [apply extract_category_capitals|split;
                   [apply extract_category_capitals|by destruct description]]].
  apply load_data_inv in H as (i & sel & cs & ps & ts & Hi & Hall & Hdt & Hreq & Hc & Hr
                               & Hcs & Hps & Hts & Hs & Hcm & Hex); [|done].
  rewrite Hid in Hi. injection Hi as <-. fold loaded in Hr.
  assert (∀ r, r ∈ loaded → r ∈ rows df) as Hsub.
  { intros r. unfold loaded, selected_rows. destruct fr; [done|].
    destruct (max_invoice_date (session conn)); [|done].
    intros Hin. by apply list_elem_of_filter in Hin as [_ Hin]. }
  unfold product_rows, position in Hps. rewrite Hc, His, Hidesc in Hps.
  cbn [bind] in Hps. rewrite Hr in Hps. injection Hps as <-.
  destruct (distinct_strings [] (map (at_pos i_stock) loaded))
    as (keys & Hkeys & Hnd & _ & Hcov).
  { intros v Hv. apply list_elem_of_In, in_map_iff in Hv as (r & <- & Hrin).
    apply Hstr, Hsub. by apply list_elem_of_In. }
  assert (key ∈ keys) as Hkey.
  { destruct (group i_stock (VStr key) loaded) as [|r g'] eqn:Eg; [done|].
    assert (r ∈ group i_stock (VStr key) loaded) as Hrin by (rewrite Eg; by left).
    apply list_elem_of_filter in Hrin as [Hcell Hrin]. apply same_value_str in Hcell.
    destruct (Hcov key) as [Hin|Hin]; [|inversion Hin|done].
    rewrite <- Hcell. apply list_elem_of_In, in_map, list_elem_of_In. done. }
  rewrite Hcm, Hs. cbn [products]. rewrite Hkeys.
  apply foldl_upsert_product_once.
  - rewrite !map_map. rewrite (map_ext _ id); [by rewrite map_id|done].
  - rewrite map_map. apply list_elem_of_In, in_map_iff. exists key.
    split; [done|]. by apply list_elem_of_In.
Qed.

End ProductRows.

(** ** The foreign keys *)

Section ForeignKeys.

Variable py_str : value → string.
Variable parse_datetime : value → option (option Z).

Lemma transaction_rows_keys df ts i_customer i_stock :
  select "customer_id" (columns df) = OneColumn i_customer →
  select "stock_code" (columns df) = OneColumn i_stock →
  transaction_rows py_str df = Ok ts →
  Forall2 (λ r t, t_customer_id t = sql_text py_str (at_pos i_customer r) ∧
                  t_stock_code t = sql_text py_str (at_pos i_stock r)) (rows df) ts.
Proof.
  intros Hic His. unfold transaction_rows, position. rewrite Hic, His.
  repeat match goal with
  | |- context [select ?c (columns df)] =>
      destruct (select c (columns df)); cbn [bind]; try discriminate
  end.
  intros H. apply mapM_Forall2 in H. eapply Forall2_impl; [exact H|].
  intros r t Hr. simpl in Hr.
  destruct (as_timestamp _) as [d|]; simpl in Hr; [|discriminate].
  by injection Hr as <-.
Qed.

Lemma foldl_upsert_customer_written (l : list (string * Customer)) cs key :
  key ∈ map fst l → is_Some (foldl upsert_customer cs l !! key).
Proof.
  revert cs. induction l as [|[k c] l IH]; intros cs Hk; [inversion Hk|].
  cbn [foldl]. simpl in Hk. apply elem_of_cons in Hk as [->|Hk]; [|by apply IH].
  assert (is_Some (upsert_customer cs (k, c) !! k)) as [old Hold].
  { rewrite upsert_customer_lookup, decide_True by done. by eexists. }
  destruct (foldl_upsert_customer_kept l _ _ _ Hold) as (new & -> & _). by eexists.
Qed.

Lemma foldl_upsert_product_written (l : list (string * Product)) ps key :
  key ∈ map fst l → is_Some (foldl upsert_product ps l !! key).
Proof.
  revert ps. induction l as [|[k p] l IH]; intros ps Hk; [inversion Hk|].
  cbn [foldl]. simpl in Hk. apply elem_of_cons in Hk as [->|Hk]; [|by apply IH].
  assert (is_Some (upsert_product ps (k, p) !! k)) as [old Hold].
  { rewrite upsert_product_lookup, decide_True by done. by eexists. }
  destruct (foldl_upsert_product_kept l _ _ _ Hold) as (new & -> & _). by eexists.
Qed.

Lemma distinct_strings_covers vals key :
  (∀ v, v ∈ vals → string_or_missing v = true) → VStr key ∈ vals →
  VStr key ∈ distinct [] vals.
Proof.
  intros Hall Hin.
  destruct (distinct_strings [] vals Hall) as (keys & -> & _ & _ & Hcov).
  destruct (Hcov key Hin) as [Hnil|Hk]; [inversion Hnil|].
  by apply list_elem_of_In, in_map, list_elem_of_In.
Qed.

Lemma customer_rows_covers df cs i r key :
  select "customer_id" (columns df) = OneColumn i →
  customer_rows py_str df = Ok cs →
  (∀ r, r ∈ rows df → string_or_missing (at_pos i r) = true) →
  r ∈ rows df → at_pos i r = VStr key → key ∈ map fst cs.
Proof.
  intros Hi Hcs Hstr Hr Hcell. unfold customer_rows, position in Hcs. rewrite Hi in Hcs.
  repeat match type of Hcs with
  | context [select ?c (columns df)] =>
      destruct (select c (columns df)); cbn [bind] in Hcs; try discriminate
  end.
  match type of Hcs with
  | bind (mapM ?f ?l) _ = _ => destruct (mapM f l) as [cs'|] eqn:HM
  end; cbn [bind] in Hcs; [|discriminate].
  injection Hcs as <-. apply mapM_Forall2 in HM.
  assert (VStr key ∈ distinct [] (map (at_pos i) (rows df))) as Hk.
  { apply distinct_strings_covers.
    - intros v Hv. apply list_elem_of_In, in_map_iff in Hv as (r' & <- & Hr').
      by apply Hstr, list_elem_of_In.
    - rewrite <- Hcell. by apply list_elem_of_In, in_map, list_elem_of_In. }
  destruct (Forall2_elem_l _ _ _ _ HM Hk) as ([k c] & Hin & Hf).
  simpl in Hf. destruct (mapM _ _); simpl in Hf; [|discriminate]. injection Hf as <- _.
  apply list_elem_of_In, in_map_iff. exists (key, c). split; [done|].
  by apply list_elem_of_In.
Qed.

Lemma product_rows_covers df ps i r key :
  select "stock_code" (columns df) = OneColumn i →
  product_rows py_str df = Ok ps →
  (∀ r, r ∈ rows df → string_or_missing (at_pos i r) = true) →
  r ∈ rows df → at_pos i r = VStr key → key ∈ map fst ps.
Proof.
  intros Hi Hps Hstr Hr Hcell. unfold product_rows, position in Hps. rewrite Hi in Hps.
  destruct (select "description" (columns df)); cbn [bind] in Hps; try discriminate.
  injection Hps as <-. rewrite map_map. cbn [fst].
  apply list_elem_of_In, in_map_iff. exists (VStr key). split; [done|].
  apply list_elem_of_In, distinct_strings_covers.
  - intros v Hv. apply list_elem_of_In, in_map_iff in Hv as (r' & <- & Hr').
    by apply Hstr, list_elem_of_In.
  - rewrite <- Hcell. by apply list_elem_of_In, in_map, list_elem_of_In.
Qed.

(** X28.  What [load_data] inserts respects the foreign keys of
    [create_tables]: for a frame whose customer ids and stock codes are
    strings or missing, every transaction it appends names, when it
    names one, a customer and a product that the committed store holds. *)
Theorem load_data_references conn df fr conn' i_customer i_stock :
  load_data py_str parse_datetime conn df fr = Ok conn' →
  select "customer_id" (columns df) = OneColumn i_customer →
  select "stock_code" (columns df) = OneColumn i_stock →
  (∀ r, r ∈ rows df → string_or_missing (at_pos i_customer r) = true ∧
                      string_or_missing (at_pos i_stock r) = true) →
  ∃ added,
    transactions (committed conn') = transactions (session conn) ++ added ∧
    ∀ t, t ∈ added →
      (∀ key, t_customer_id t = Some key → is_Some (customers (committed conn') !! key)) ∧
      (∀ key, t_stock_code t = Some key → is_Some (products (committed conn') !! key)).
Proof.
  intros H Hic His Hstr. destruct (empty df) eqn:He.
  { apply load_data_of_empty in H as ->; [|done]. exists []. simpl.
    split; [by rewrite app_nil_r|]. intros t Ht. inversion Ht. }
  apply load_data_inv in H as (i & sel & cs & ps & ts & Hi & Hall & Hdt & Hreq & Hc & Hr
                               & Hcs & Hps & Hts & Hs & Hcm & Hex); [|done].
  exists ts. rewrite Hcm, Hs. cbn [transactions customers products]. split; [done|].
  assert (∀ r, r ∈ rows sel → r ∈ rows df) as Hsub.
  { intros r. rewrite Hr. unfold selected_rows. destruct fr; [done|].
    destruct (max_invoice_date (session conn)); [|done].
    intros Hin. by apply list_elem_of_filter in Hin as [_ Hin]. }
  rewrite <- Hc in Hic, His.
  intros t Ht.
  destruct (Forall2_elem_r _ _ _ _ (transaction_rows_keys _ _ _ _ Hic His Hts) Ht)
    as (r & Hrsel & Hcust & Hstock).
  destruct (Hstr r (Hsub r Hrsel)) as [Sc Ss].
  split; intros key Hkey.
  - apply foldl_upsert_customer_written.
    apply (customer_rows_covers sel cs i_customer r key Hic Hcs); [|done|].
    + intros r' Hr'. by apply Hstr, Hsub.
    + rewrite Hcust in Hkey. by destruct (at_pos i_customer r); try discriminate;
        injection Hkey as ->.
  - apply foldl_upsert_product_written.
    apply (product_rows_covers sel ps i_stock r key His Hps); [|done|].
    + intros r' Hr'. by apply Hstr, Hsub.
    + rewrite Hstock in Hkey. by destruct (at_pos i_stock r); try discriminate;
        injection Hkey as ->.
Qed.

End ForeignKeys.

(** ** Runs of the pipeline *)

Section Orchestration.

Variable py_str : value → string.
Variable parse_datetime : value → option (option Z).

Lemma get_incremental_date_range_spec db args :
  ∃ conn,
    get_incremental_date_range (get_connection db) args
    = (if full_refresh args then None
       else match start_date args, max_invoice_date db with
            | Some s, _ => Some (s, end_date args)
            | None, Some d => Some (d, end_date args)
            | None, None => None
            end, conn) ∧
    close conn = db.
Proof.
  unfold get_incremental_date_range, get_max_invoice_date.
  destruct (full_refresh args); [by eexists|]. simpl.
  destruct (start_date args), (max_invoice_date db); by eexists.
Qed.

Lemma load_session db :
  session (create_tables (get_connection db)) = db ∧
  committed (create_tables (get_connection db)) = db.
Proof. done. Qed.

Lemma load_raise db clean_df e db' :
  load py_str parse_datetime db clean_df = (Raise e, db') → db' = db.
Proof.
  unfold load. destruct (load_data _ _ _ _ _); intros H; [discriminate|].
  by injection H as _ <-.
Qed.

(** X16.  A run that fails, a [--dry-run] and an [--only-clean] run
    leave the database as it was. *)
Theorem run_pipeline_leaves_database args raw db :
  success (run_pipeline py_str parse_datetime args raw db) = false ∨
  dry_run args = true ∨ only_clean args = true →
  database (run_pipeline py_str parse_datetime args raw db) = db.
Proof.
  unfold run_pipeline.
  destruct (get_incremental_date_range_spec db args) as (conn & -> & Hclose).
  set (range := if full_refresh args then None else _). clearbody range.
  destruct (match range with Some _ => _ | None => _ end) as [[df|]|]; simpl; try done.
  unfold transform.
  destruct (clean_data py_str parse_datetime df) as [[clean_df metrics]|]; simpl; try done.
  destruct (dry_run args), (only_clean args); simpl; try done.
  rewrite Hclose.
  destruct (load py_str parse_datetime db clean_df) as [[[]|e] db'] eqn:Hload; simpl.
  - intros [?|[?|?]]; discriminate.
  - intros _. by eapply load_raise.
Qed.

Lemma filter_date_range_spec lo hi df df' :
  filter_date_range (lo, hi) df = Ok df' → rows df' ≠ [] →
  ∃ i, select "InvoiceDate" (columns df) = OneColumn i ∧ columns df' = columns df ∧
       ∀ r, r ∈ rows df' → r ∈ rows df ∧ ∃ t, at_pos i r = VDate t ∧ (lo ≤ t ≤ hi)%Z.
Proof.
  unfold filter_date_range.
  destruct (select "InvoiceDate" (columns df)) as [|i|ps]; [discriminate| |].
  - destruct (mapM _ (rows df)) as [mask|] eqn:HM; cbn [bind]; [|discriminate].
    intros H _. injection H as <-. exists i. split; [done|]. split; [done|]. simpl.
    apply mapM_Forall2 in HM. clear -HM. simpl in HM.
    induction HM as [|r b l mask Hb _ IH]; simpl; [intros r Hr; inversion Hr|].
    destruct b.
    + intros r' Hr'. apply elem_of_cons in Hr' as [->|Hr'].
      * split; [by left|]. destruct (at_pos i r) as [| | | |t]; try discriminate.
        exists t. split; [done|]. simpl in Hb. injection Hb as Hb.
        apply andb_true_iff in Hb as [H1 H2]. apply Z.leb_le in H1, H2. lia.
      * destruct (IH r' Hr') as [Hin Ht]. split; [by right|done].
    + intros r' Hr'. destruct (IH r' Hr') as [Hin Ht]. split; [by right|done].
  - destruct (rows df) eqn:Hr; [|discriminate]. intros H Hne. injection H as <-. done.
Qed.

Lemma std_columns_lookup cols j c :
  cols !! j = Some c → std_columns cols !! j = Some (std_label c).
Proof. intros H. rewrite std_columns_map. by rewrite list_lookup_fmap, H. Qed.

Lemma load_data_added_after conn df conn' wm :
  max_invoice_date (session conn) = Some wm →
  load_data py_str parse_datetime conn df false = Ok conn' →
  ∃ added,
    transactions (committed conn') = transactions (session conn) ++ added ∧
    ∀ t, t ∈ added →
      ∃ r d i, r ∈ rows df ∧ select "invoice_date" (columns df) = OneColumn i ∧
               at_pos i r = VDate d ∧ t_invoice_date t = Some d ∧ (wm < d)%Z.
Proof.
  intros Hwm H. destruct (empty df) eqn:He.
  { apply load_data_of_empty in H as ->; [|done]. exists []. simpl.
    split; [by rewrite app_nil_r|]. intros t Ht. inversion Ht. }
  apply load_data_inv in H as (i & sel & cs & ps & ts & Hi & Hall & Hdt & Hreq & Hc & Hr
                               & Hcs & Hps & Hts & Hs & Hcm & Hex); [|done].
  exists ts. split; [by rewrite Hcm, Hs|].
  intros t Ht.
  assert (select "invoice_date" (columns sel) = OneColumn i) as Hi' by (by rewrite Hc).
  pose proof (transaction_rows_dates py_str _ _ _ Hi' Hts) as HF.
  destruct (Forall2_elem_r _ _ _ _ HF Ht) as (r & Hrsel & Hd).
  rewrite Hr, Hwm in Hrsel. unfold selected_rows in Hrsel.
  apply list_elem_of_filter in Hrsel as [Hafter Hin].
  apply after_spec in Hafter as (d & Hcell & Hlt).
  exists r, d, i. rewrite Hcell in Hd. simpl in Hd. injection Hd as Hd. done.
Qed.

Lemma load_added db clean_df wm res db' :
  max_invoice_date db = Some wm →
  load py_str parse_datetime db clean_df = (res, db') →
  ∃ added,
    transactions db' = transactions db ++ added ∧
    ∀ t, t ∈ added →
      ∃ r d i, r ∈ rows clean_df ∧
               select "invoice_date" (columns clean_df) = OneColumn i ∧
               at_pos i r = VDate d ∧ t_invoice_date t = Some d ∧ (wm < d)%Z.
Proof.
  intros Hwm. unfold load.
  destruct (load_data _ _ _ clean_df false) as [conn'|e] eqn:Hload; intros H;
    injection H as <- <-.
  - apply (load_data_added_after _ _ _ wm) in Hload; done.
  - exists []. simpl. split; [by rewrite app_nil_r|]. intros t Ht. inversion Ht.
Qed.

Lemma std_label_invoice_date : std_label "InvoiceDate" = "invoice_date".
Proof. by vm_compute. Qed.

(** The date of a row of the cleaned frame is the date the raw row had
    in [InvoiceDate]. *)
Lemma cleaned_date_of_raw df out m r i :
  clean_data py_str parse_datetime df = Ok (out, m) →
  r ∈ rows out → select "invoice_date" (columns out) = OneColumn i →
  ∀ d, at_pos i r = VDate d →
       ∀ i0, select "InvoiceDate" (columns df) = OneColumn i0 →
             (∀ r0, r0 ∈ rows df → timestamp_or_missing (at_pos i0 r0) = true) →
             ∃ r0, r0 ∈ rows df ∧ at_pos i0 r0 = VDate d.
Proof.
  intros H Hr Hi d Hd i0 Hi0 Hraw.
  destruct (rows df) as [|x xs] eqn:Hrows.
  { rewrite (clean_data_rows_of_empty py_str parse_datetime _ _ _ H Hrows) in Hr. inversion Hr. }
  assert (rows df ≠ []) as Hne by (by rewrite Hrows). rewrite <- Hrows in *.
  destruct (clean_data_rows py_str parse_datetime _ _ _ _ Hne H Hr)
    as (Cout & r0 & Hr0 & _ & _ & _ & _ & Vt & _).
  rewrite Cout, select_columns_with in Hi by done.
  assert (i0 = i) as ->.
  { apply (select_one_unique "invoice_date" (std_columns (columns df))); [done|].
    rewrite <- std_label_invoice_date. apply std_columns_lookup. by apply select_one_lookup. }
  exists r0. split; [done|]. specialize (Vt i Hi).
  rewrite (to_datetime_timestamp parse_datetime _ (Hraw r0 Hr0)), Hd in Vt. by injection Vt.
Qed.

(** X17.  Whatever its arguments, a run against a store with a
    watermark only appends transactions, none dated before the
    watermark (a stored date is the date of a row newer than the
    watermark, cut to whole seconds, so it can equal the watermark);
    without [--full-refresh] their dates are also at most the end date
    and at least the start date when one is given. *)
Theorem run_pipeline_adds_after_watermark args raw db wm :
  max_invoice_date db = Some wm →
  let run := run_pipeline py_str parse_datetime args raw db in
  ∃ added,
    transactions (database run) = transactions db ++ added ∧
    ∀ t, t ∈ added →
      ∃ d, t_invoice_date t = Some d ∧ (wm ≤ d)%Z ∧
           (full_refresh args = false →
            (d ≤ end_date args)%Z ∧ ∀ s, start_date args = Some s → (s ≤ d)%Z).
Proof.
  intros Hwm. cbv zeta.
  assert (∀ o : Outcome, database o = db →
            ∃ added, transactions (database o) = transactions db ++ added ∧
              ∀ t, t ∈ added →
                ∃ d, t_invoice_date t = Some d ∧ (wm ≤ d)%Z ∧
                     (full_refresh args = false →
                      (d ≤ end_date args)%Z ∧ ∀ s, start_date args = Some s → (s ≤ d)%Z))
    as Hsame.
  { intros o ->. exists []. split; [by rewrite app_nil_r|]. intros t Ht. inversion Ht. }
  unfold run_pipeline.
  destruct (get_incremental_date_range_spec db args) as (conn & -> & Hclose).
  rewrite Hwm.
  destruct (full_refresh args) eqn:Hfr.
  - (* --full-refresh: the whole table is cleaned and handed to [load] *)
    unfold transform.
    destruct (clean_data py_str parse_datetime raw) as [[clean_df metrics]|]; [|by apply Hsame].
    destruct (negb (dry_run args) && negb (only_clean args)); [|by apply Hsame].
    rewrite Hclose.
    destruct (load py_str parse_datetime db clean_df) as [res db'] eqn:Hload.
    destruct (load_added _ _ _ _ _ Hwm Hload) as (added & Happ & Hadded).
    exists added. split; [by destruct res as [[]|]|].
    intros t Ht. destruct (Hadded t Ht) as (r & d & i & _ & _ & _ & Hd & Hlt).
    exists d. split; [done|]. split; [lia|done].
  - (* a date range: from the start date or the watermark to the end date *)
    set (lo := match start_date args with Some s => s | None => wm end).
    assert (match start_date args with
            | Some s => Some (s, end_date args)
            | None => Some (wm, end_date args)
            end = Some (lo, end_date args)) as -> by (subst lo; by destruct (start_date args)).
    destruct (filter_date_range (lo, end_date args) raw) as [df|] eqn:Hfilter; cbn [bind];
      [|by apply Hsame].
    destruct (len df =? 0)%nat eqn:Hlen; [by apply Hsame|].
    assert (rows df ≠ []) as Hne.
    { unfold len in Hlen. destruct (rows df); [done|]. done. }
    destruct (filter_date_range_spec _ _ _ _ Hfilter Hne) as (i0 & Hi0 & Cdf & Hrange).
    unfold transform.
    destruct (clean_data py_str parse_datetime df) as [[clean_df metrics]|] eqn:Hclean;
      [|by apply Hsame].
    destruct (negb (dry_run args) && negb (only_clean args)); [|by apply Hsame].
    rewrite Hclose.
    destruct (load py_str parse_datetime db clean_df) as [res db'] eqn:Hload.
    destruct (load_added _ _ _ _ _ Hwm Hload) as (added & Happ & Hadded).
    exists added. split; [by destruct res as [[]|]|].
    intros t Ht. destruct (Hadded t Ht) as (r & d & i & Hr & Hi & Hcell & Hd & Hlt).
    exists d. split; [done|]. split; [lia|]. intros _.
    destruct (cleaned_date_of_raw _ _ _ _ _ Hclean Hr Hi d Hcell i0) as (r0 & Hr0 & Hd0).
    { by rewrite Cdf. }
    { intros r0 Hr0. destruct (Hrange r0 Hr0) as (_ & t0 & -> & _). done. }
    destruct (Hrange r0 Hr0) as (_ & t0 & Ht0 & Hlo & Hhi).
    rewrite Hd0 in Ht0. injection Ht0 as <-.
    split; [done|]. intros s Hs. subst lo. by rewrite Hs in Hlo.
Qed.

End Orchestration.

(** ** Running the pipeline again *)

Section Rerun.

Variable py_str : value → string.
Variable parse_datetime : value → option (option Z).

Lemma date_range_spec args db :
  date_range args db
  = if full_refresh args then None
    else match start_date args, max_invoice_date db with
         | Some s, _ => Some (s, end_date args)
         | None, Some d => Some (d, end_date args)
         | None, None => None
         end.
Proof.
  unfold date_range.
  by destruct (get_incremental_date_range_spec db args) as (conn & -> & _).
Qed.

(** A run either leaves the database as it is, or commits the load of
    the cleaned frame. *)
Lemma run_pipeline_database args raw db :
  database (run_pipeline py_str parse_datetime args raw db) = db ∨
  ∃ df clean m conn',
    match date_range args db with
    | None => df = raw
    | Some range => filter_date_range range raw = Ok df ∧ rows df ≠ []
    end ∧
    clean_data py_str parse_datetime df = Ok (clean, m) ∧
    load_data py_str parse_datetime (create_tables (get_connection db)) clean false
    = Ok conn' ∧
    database (run_pipeline py_str parse_datetime args raw db) = committed conn'.
Proof.
  unfold run_pipeline, date_range.
  destruct (get_incremental_date_range_spec db args) as (conn & -> & Hclose). cbn [fst].
  set (range := if full_refresh args then None else _). clearbody range.
  assert (∀ df,
    let o := match transform py_str parse_datetime df with
             | Raise _ => {| success := false; database := close conn; saved_metrics := None |}
             | Ok (clean_df, metrics) =>
                 if negb (dry_run args) && negb (only_clean args) then
                   match load py_str parse_datetime (close conn) clean_df with
                   | (Ok _, db') =>
                       {| success := true; database := db'; saved_metrics := Some metrics |}
                   | (Raise _, db') =>
                       {| success := false; database := db'; saved_metrics := Some metrics |}
                   end
                 else {| success := true; database := close conn;
                         saved_metrics := Some metrics |}
             end in
    database o = db ∨
    ∃ clean m conn',
      clean_data py_str parse_datetime df = Ok (clean, m) ∧
      load_data py_str parse_datetime (create_tables (get_connection db)) clean false
      = Ok conn' ∧
      database o = committed conn') as Htail.
  { intros df. cbv zeta. unfold transform.
    destruct (clean_data py_str parse_datetime df) as [[clean m]|]; [|by left].
    destruct (negb (dry_run args) && negb (only_clean args)); [|by left].
    rewrite Hclose. unfold load.
    destruct (load_data _ _ _ clean false) as [conn'|e] eqn:Hload; [|by left].
    right. by exists clean, m, conn'. }
  destruct range as [range|].
  - destruct (filter_date_range range raw) as [df|] eqn:Hf; cbn [bind]; [|by left].
    destruct (len df =? 0)%nat eqn:Hlen; [by left|].
    assert (rows df ≠ []) as Hne.
    { unfold len in Hlen. by destruct (rows df). }
    destruct (Htail df) as [H|(clean & m & conn' & H1 & H2 & H3)]; [by left|].
    right. by exists df, clean, m, conn'.
  - destruct (Htail raw) as [H|(clean & m & conn' & H1 & H2 & H3)]; [by left|].
    right. by exists raw, clean, m, conn'.
Qed.

Lemma filter_date_range_complete lo hi df df' i r t :
  filter_date_range (lo, hi) df = Ok df' →
  select "InvoiceDate" (columns df) = OneColumn i →
  r ∈ rows df → at_pos i r = VDate t → (lo ≤ t ≤ hi)%Z → r ∈ rows df'.
Proof.
  unfold filter_date_range. intros H Hi. rewrite Hi in H.
  destruct (mapM _ (rows df)) as [mask|] eqn:HM; cbn [bind] in H; [|discriminate].
  injection H as <-. simpl. apply mapM_Forall2 in HM. simpl in HM.
  intros Hr Ht Hrange.
  induction HM as [|a b l mask Hb _ IH]; [inversion Hr|].
  apply elem_of_cons in Hr as [->|Hr].
  - rewrite Ht in Hb. simpl in Hb. injection Hb as <-.
    assert ((lo <=? t)%Z && (t <=? hi)%Z = true) as ->.
    { apply andb_true_iff. split; apply Z.leb_le; lia. }
    simpl. by left.
  - simpl. destruct b; [right|]; by apply IH.
Qed.

(** X25.  Running the pipeline a second time with the same arguments
    (the end date included) on the same table changes nothing in the
    database, provided the first run leaves a dated transaction and no
    invoice date of the table, once converted, lies strictly inside the
    second that starts at the watermark the first run left: whatever
    the flags, the second run then selects no row after that watermark.
    (Dates in whole seconds meet the condition.) *)
Theorem run_pipeline_again args raw db :
  max_invoice_date (database (run_pipeline py_str parse_datetime args raw db)) ≠ None →
  (∀ w i r d,
     max_invoice_date (database (run_pipeline py_str parse_datetime args raw db)) = Some w →
     select "invoice_date" (std_columns (columns raw)) = OneColumn i →
     r ∈ rows raw → to_datetime parse_datetime (at_pos i r) = Ok (VDate d) →
     ¬ (w < d < w + 1)%Z) →
  database (run_pipeline py_str parse_datetime args raw
              (database (run_pipeline py_str parse_datetime args raw db)))
  = database (run_pipeline py_str parse_datetime args raw db).
Proof.
  intros Hwm _.
  destruct (run_pipeline_database args raw db)
    as [Hsame | (df & clean & m & conn1 & Hrange & Hclean & Hload & Hdb)].
  { rewrite Hsame. exact Hsame. }
  destruct (empty clean) eqn:He.
  { assert (database (run_pipeline py_str parse_datetime args raw db) = db) as Hsame.
    { rewrite Hdb. by rewrite (load_data_of_empty py_str parse_datetime _ _ _ _ He Hload). }
    rewrite Hsame. exact Hsame. }
  rewrite Hdb in Hwm |- *.
  set (db1 := committed conn1) in *.
  destruct (run_pipeline_database args raw db1)
    as [Hsame | (df2 & clean2 & m2 & conn2 & Hrange2 & Hclean2 & Hload2 & Hdb2)]; [done|].
  rewrite Hdb2.
  assert (df2 = df → committed conn2 = db1) as Hsameframe.
  { intros ->. rewrite Hclean in Hclean2. injection Hclean2 as <- <-.
    destruct (incremental_reload py_str parse_datetime _ _ _ _
                (create_tables (get_connection db1)) Hload (or_intror Hwm) eq_refl)
      as (c & Hc & Hcc).
    rewrite Hload2 in Hc. injection Hc as <-. done. }
  rewrite date_range_spec in Hrange, Hrange2.
  destruct (full_refresh args) eqn:Hfr.
  { apply Hsameframe. by subst. }
  destruct (start_date args) as [s|] eqn:Hs.
  { apply Hsameframe. destruct Hrange as [Hf1 _], Hrange2 as [Hf2 _].
    rewrite Hf1 in Hf2. by injection Hf2. }
  (* the second run starts from the watermark that the first one left *)
  destruct (max_invoice_date db1) as [w1|] eqn:Hw1; [|done].
  destruct Hrange2 as [Hf2 Hne2].
  destruct (filter_date_range_spec _ _ _ _ Hf2 Hne2) as (i0 & Hi0 & Cdf2 & Hin2).
  destruct (clean_data_nonempty py_str parse_datetime _ _ _ Hne2 Hclean2)
    as [ic ii id iq ip staged vi vq vp nt nq np cols2
          Hic Hii Hid Hiq Hip _ _ _ _ _ _ _ _ _ _ _ Cout2 _ _ _ _ _ _ _].
  subst cols2. rewrite Cdf2 in Hic, Hii, Hid, Hiq, Hip, Cout2.
  assert (i0 = id) as ->.
  { apply (select_one_unique "invoice_date" (std_columns (columns raw))); [done|].
    rewrite <- std_label_invoice_date. apply std_columns_lookup. by apply select_one_lookup. }
  assert (select "invoice_date" (columns clean2) = OneColumn id) as Hid2
    by (by rewrite Cout2, select_columns_with).
  apply (load_data_nothing_new py_str parse_datetime _ _ _ w1 id) in Hload2; [done|done|done|done|].
  intros x Hx. destruct (after w1 (at_pos id x)) eqn:Hafter; [exfalso|done].
  apply after_spec in Hafter as (t & Hcell & Hlt).
  (* the raw row behind [x] *)
  pose proof (clean_data_kept py_str parse_datetime df2 clean2 m2 ii iq ip Hne2 Hclean2) as HF2.
  cbv zeta in HF2. rewrite Cdf2 in HF2. specialize (HF2 Hii Hiq Hip).
  destruct (Forall2_elem_r _ _ _ _ HF2 Hx) as (r0 & Hr0 & _ & Hd0).
  apply list_elem_of_filter in Hr0 as [Hvalid Hr0].
  destruct (Hin2 r0 Hr0) as (Hraw & t0 & Hcell0 & Hlo & Hhi).
  specialize (Hd0 id Hid). rewrite Hcell0, Hcell in Hd0. simpl in Hd0.
  injection Hd0 as ->.
  (* it was in the first run *)
  assert (columns df = columns raw ∧ r0 ∈ rows df) as [Cdf1 Hr1].
  { destruct (max_invoice_date db) as [w0|] eqn:Hw0; [|by subst].
    destruct Hrange as [Hf1 Hne1].
    destruct (filter_date_range_spec _ _ _ _ Hf1 Hne1) as (_ & _ & Cdf1 & _).
    split; [done|].
    apply (filter_date_range_complete _ _ _ _ _ _ _ Hf1 Hi0 Hraw Hcell0).
    pose proof (load_data_watermark py_str parse_datetime _ _ _ _ w0 Hload Hw0) as Hmono.
    fold db1 in Hmono. rewrite Hw1 in Hmono. simpl in Hmono. lia. }
  assert (rows df ≠ []) as Hne1 by (intros Hnil; rewrite Hnil in Hr1; inversion Hr1).
  pose proof (clean_data_kept py_str parse_datetime df clean m ii iq ip Hne1 Hclean) as HF1.
  cbv zeta in HF1. rewrite Cdf1 in HF1. specialize (HF1 Hii Hiq Hip).
  assert (r0 ∈ filter (λ r, valid_row py_str ii iq ip r = true) (rows df)) as Hv1
    by (by apply list_elem_of_filter).
  destruct (Forall2_elem_l _ _ _ _ HF1 Hv1) as (x1 & Hx1 & _ & Hd1).
  specialize (Hd1 id Hid). rewrite Hcell0 in Hd1. simpl in Hd1. injection Hd1 as Hd1.
  destruct (clean_data_nonempty py_str parse_datetime _ _ _ Hne1 Hclean)
    as [_ _ _ _ _ _ _ _ _ _ _ _ cols1 _ _ _ _ _ _ _ _ _ _ _ _ _ _ _ _ Cout1 _ _ _ _ _ _ _].
  subst cols1. rewrite Cdf1 in Cout1.
  assert (select "invoice_date" (columns clean) = OneColumn id) as Hid1
    by (by rewrite Cout1, select_columns_with).
  pose proof (load_data_covers py_str parse_datetime _ _ _ _ _ _ _ Hload Hid1 Hx1 (eq_sym Hd1)) as Hcov.
  fold db1 in Hcov. rewrite Hw1 in Hcov. simpl in Hcov. lia.
Qed.

End Rerun.

(** ** The download *)

Section Download.

Variable requests_get : string → nat → response.

Lemma verify_file_integrity_iff f expected_size :
  verify_file_integrity f expected_size = true ↔
  ∃ content, f = Some content ∧
    (∀ n, expected_size = Some n → (0 < n)%Z → Z.of_nat (length content) = n) ∧
    (content = [] → expected_size = Some 0%Z).
Proof.
  unfold verify_file_integrity. destruct f as [content|];
    [|split; [discriminate|intros (c & H & _); discriminate]].
  assert (Z.of_nat (length content) = 0%Z ↔ content = []) as Hnil.
  { destruct content; simpl; [done|]. split; [lia|discriminate]. }
  destruct expected_size as [n|].
  - destruct (0 <? n)%Z eqn:Hpos, (Z.of_nat (length content) =? n)%Z eqn:Heq,
      (Z.of_nat (length content) =? 0)%Z eqn:H0, (n =? 0)%Z eqn:Hn; simpl;
      rewrite ?Z.ltb_lt, ?Z.ltb_ge, ?Z.eqb_eq, ?Z.eqb_neq in *;
      try lia;
      (split;
       [ (discriminate || (intros _; exists content; split; [done|]; split;
            [ intros n' Hn' Hlt; injection Hn' as <-; lia
            | intros Hc; apply Hnil in Hc; first [lia | by f_equal]]))
       | intros (c & Hc & Hsize & Hempty); injection Hc as <-;
         first [done | specialize (Hsize n eq_refl); lia
               | apply Hnil in H0; specialize (Hempty H0); injection Hempty; lia] ]).
  - simpl. destruct (Z.of_nat (length content) =? 0)%Z eqn:H0; simpl;
      rewrite ?Z.eqb_eq, ?Z.eqb_neq in *.
    + split; [discriminate|]. intros (c & Hc & _ & Hempty). injection Hc as <-.
      apply Hnil in H0. by specialize (Hempty H0).
    + split; [|done]. intros _. exists content. split; [done|]. split; [discriminate|].
      intros Hc. apply Hnil in Hc. lia.
Qed.

(** X18.  [verify_file_integrity] accepts a file if and only if it
    exists, has the expected size when a positive size is expected, and
    is not empty unless the expected size is 0.  An expected size of 0,
    which is what [download_with_retry] reports for a response without
    [Content-Length], accepts every existing file, the empty one too; a
    negative expected size is treated as no expectation. *)
Theorem verify_file_integrity_accepts f expected_size :
  (verify_file_integrity f expected_size = true ↔
   ∃ content, f = Some content ∧
     (∀ n, expected_size = Some n → (0 < n)%Z → Z.of_nat (length content) = n) ∧
     (content = [] → expected_size = Some 0%Z)) ∧
  (∀ content, verify_file_integrity (Some content) (Some 0%Z) = true) ∧
  (∀ content n, (n < 0)%Z →
     verify_file_integrity (Some content) (Some n)
     = verify_file_integrity (Some content) None).
Proof.
  split; [apply verify_file_integrity_iff|]. split.
  - intros content. apply verify_file_integrity_iff. exists content.
    split; [done|]. split; [|done]. intros n Hn Hlt. injection Hn as <-. lia.
  - intros content n Hn. unfold verify_file_integrity.
    assert ((0 <? n)%Z = false) as -> by (apply Z.ltb_ge; lia).
    assert ((n =? 0)%Z = false) as -> by (apply Z.eqb_neq; lia). done.
Qed.

Lemma concat_nonempty {A} (l : list (list A)) :
  concat (filter (λ chunk, chunk ≠ []) l) = concat l.
Proof.
  induction l as [|x l IH]; [done|].
  rewrite filter_cons. case_decide as Hx; simpl.
  - by rewrite IH.
  - destruct x; [|done]. simpl. exact IH.
Qed.

Lemma waits_snoc k : waits (S k) = waits k ++ [(k + 1) * 5]%nat.
Proof. unfold waits. rewrite seq_S, map_app. done. Qed.

(** The loop, from attempt [a] on, with [k] attempts left. *)
Lemma retry_inv url n k a w res w' :
  (a + k = n)%nat →
  retry requests_get url n (seq a k) w = (res, w') →
  ∃ sent,
    (sent ≤ k)%nat ∧ requests w' = (requests w + sent)%nat ∧
    (∀ j, (j < sent - 1)%nat → transient (requests_get url (requests w + j)) = true) ∧
    slept w' = slept w ++ map (λ attempt, (attempt + 1) * 5)%nat (seq a (sent - 1)) ∧
    match res with
    | Returned None =>
        sent = k ∧
        (∀ j, (j < k)%nat → transient (requests_get url (requests w + j)) = true)
    | Returned (Some size) =>
        ∃ header chunks,
          (0 < sent)%nat ∧
          requests_get url (requests w + (sent - 1)) = Response header chunks true ∧
          expected_size_of header = Some size ∧
          file w' = Some (concat chunks)
    | Raised e =>
        e = InvalidContentLength ∧
        ∃ chunks complete,
          (0 < sent)%nat ∧
          requests_get url (requests w + (sent - 1)) = Response NotAnInteger chunks complete
    end.
Proof.
  revert a w. induction k as [|k IH]; intros a w Han; simpl.
  - intros H. injection H as <- <-. exists 0%nat. simpl.
    repeat split; try lia; try (intros; lia). by rewrite app_nil_r.
  - assert (∀ w1, requests w1 = S (requests w) → slept w1 = slept w →
              transient (requests_get url (requests w)) = true →
              retry requests_get url n (seq (S a) k) (back_off n a w1) = (res, w') →
              ∃ sent,
                (sent ≤ S k)%nat ∧ requests w' = (requests w + sent)%nat ∧
                (∀ j, (j < sent - 1)%nat →
                      transient (requests_get url (requests w + j)) = true) ∧
                slept w' = slept w ++ map (λ attempt, (attempt + 1) * 5)%nat (seq a (sent - 1)) ∧
                match res with
                | Returned None =>
                    sent = S k ∧
                    (∀ j, (j < S k)%nat →
                          transient (requests_get url (requests w + j)) = true)
                | Returned (Some size) =>
                    ∃ header chunks,
                      (0 < sent)%nat ∧
                      requests_get url (requests w + (sent - 1)) = Response header chunks true ∧
                      expected_size_of header = Some size ∧
                      file w' = Some (concat chunks)
                | Raised e =>
                    e = InvalidContentLength ∧
                    ∃ chunks complete,
                      (0 < sent)%nat ∧
                      requests_get url (requests w + (sent - 1))
                      = Response NotAnInteger chunks complete
                end) as Hfail.
    { intros w1 Hreq Hsl Htr H. apply IH in H; [|lia].
      destruct H as (sent & Hle & Hreq' & Htr' & Hsl' & Hres).
      assert (requests (back_off n a w1) = S (requests w)) as Hreq1.
      { unfold back_off. by destruct (a <? n - 1)%nat. }
      rewrite Hreq1 in Hreq', Htr', Hres.
      assert (∀ j, (j < sent)%nat →
                requests_get url (requests w + S j) = requests_get url (S (requests w) + j))
        as Hshift.
      { intros j _. f_equal. lia. }
      assert (∀ j, (j < S sent - 1)%nat →
                   transient (requests_get url (requests w + j)) = true) as Htr1.
      { intros [|j] Hj; [by rewrite Nat.add_0_r|].
        rewrite Hshift by lia. apply Htr'. lia. }
      assert ((0 < sent)%nat →
              slept w' = slept w ++ map (λ attempt, (attempt + 1) * 5)%nat
                                        (seq a (S sent - 1))) as Hsl1.
      { intros Hpos. rewrite Hsl'. unfold back_off.
        assert ((a <? n - 1)%nat = true) as -> by (apply Nat.ltb_lt; lia).
        unfold sleep. cbn [slept]. rewrite Hsl.
        destruct sent as [|s]; [lia|]. replace (S (S s) - 1)%nat with (S s) by lia.
        replace (S s - 1)%nat with s by lia.
        cbn [seq map]. by rewrite <- app_assoc. }
      exists (S sent). split; [lia|]. split; [lia|]. split; [done|].
      destruct res as [[size|]|e].
      - destruct Hres as (header & chunks & Hpos & Hget & Hexp & Hfile).
        split; [by apply Hsl1|]. exists header, chunks. split; [lia|].
        split; [|done]. rewrite <- Hget. replace (S sent - 1)%nat with (S (sent - 1)) by lia.
        apply Hshift. lia.
      - destruct Hres as [-> Hall].
        split.
        + destruct k as [|k]; [|apply Hsl1; lia].
          rewrite Hsl'. unfold back_off.
          assert ((a <? n - 1)%nat = false) as -> by (apply Nat.ltb_ge; lia).
          by rewrite Hsl.
        + split; [done|]. intros [|j] Hj; [by rewrite Nat.add_0_r|].
          rewrite Hshift by lia. apply Hall. lia.
      - destruct Hres as (-> & chunks & complete & Hpos & Hget).
        split; [by apply Hsl1|]. split; [done|]. exists chunks, complete. split; [lia|].
        rewrite <- Hget. replace (S sent - 1)%nat with (S (sent - 1)) by lia.
        apply Hshift. lia. }
    unfold get. destruct (requests_get url (requests w)) as [|header chunks complete] eqn:Hget.
    + apply Hfail; done.
    + destruct (expected_size_of header) as [size|] eqn:Hexp.
      * destruct complete.
        -- intros H. injection H as <- <-. exists 1%nat. simpl.
           split; [lia|]. split; [lia|]. split; [intros; lia|].
           split; [by rewrite app_nil_r|].
           exists header, chunks. rewrite Nat.add_0_r, concat_nonempty.
           split; [lia|]. split; [exact Hget|]. split; [exact Hexp|reflexivity].
        -- apply Hfail; try done. simpl. by rewrite Hexp.
      * intros H. injection H as <- <-. exists 1%nat. simpl.
        split; [lia|]. split; [lia|]. split; [intros; lia|].
        split; [by rewrite app_nil_r|]. split; [done|].
        exists chunks, complete. rewrite Nat.add_0_r. split; [lia|].
        destruct header; try discriminate. done.
Qed.

Lemma download_with_retry_inv url n w res w' :
  download_with_retry requests_get url n w = (res, w') →
  ∃ sent,
    (sent ≤ n)%nat ∧ requests w' = (requests w + sent)%nat ∧
    (∀ j, (j < sent - 1)%nat → transient (requests_get url (requests w + j)) = true) ∧
    slept w' = slept w ++ waits (sent - 1) ∧
    match res with
    | Returned None =>
        sent = n ∧
        (∀ j, (j < n)%nat → transient (requests_get url (requests w + j)) = true)
    | Returned (Some size) =>
        ∃ header chunks,
          (0 < sent)%nat ∧
          requests_get url (requests w + (sent - 1)) = Response header chunks true ∧
          expected_size_of header = Some size ∧
          file w' = Some (concat chunks)
    | Raised e =>
        e = InvalidContentLength ∧
        ∃ chunks complete,
          (0 < sent)%nat ∧
          requests_get url (requests w + (sent - 1)) = Response NotAnInteger chunks complete
    end.
Proof. unfold download_with_retry, waits. by apply retry_inv. Qed.

Lemma sum_list_app (l k : list nat) : sum_list (l ++ k) = (sum_list l + sum_list k)%nat.
Proof. induction l as [|x l IH]; simpl; lia. Qed.

Lemma sum_waits k : (2 * sum_list (waits k) = 5 * k * (k + 1))%nat.
Proof.
  induction k as [|k IH]; [done|].
  rewrite waits_snoc, sum_list_app. simpl. lia.
Qed.

(** X19.  [download_with_retry] sends at most [max_retries] requests,
    all of them when it returns [None]; before the k-th retry it waits
    5 k seconds (5, 10, 15, ...), and it does not wait after its last
    request, so that [n] requests cost 5 n (n - 1) / 2 seconds of
    waiting. *)
Theorem download_with_retry_effort url max_retries w :
  let out := download_with_retry requests_get url max_retries w in
  ∃ sent,
    (sent ≤ max_retries)%nat ∧
    requests (snd out) = (requests w + sent)%nat ∧
    slept (snd out) = slept w ++ waits (sent - 1) ∧
    (2 * sum_list (waits (sent - 1)) = 5 * (sent - 1) * sent)%nat ∧
    (fst out = Returned None → sent = max_retries).
Proof.
  cbv zeta. destruct (download_with_retry requests_get url max_retries w) as [res w'] eqn:H.
  apply download_with_retry_inv in H as (sent & Hle & Hreq & _ & Hsl & Hres).
  exists sent. cbn [fst snd]. split; [done|]. split; [done|]. split; [done|]. split.
  - rewrite sum_waits. destruct sent; [done|]. replace (S sent - 1)%nat with sent by lia. lia.
  - intros ->. by destruct Hres.
Qed.

Lemma transient_complete header chunks : transient (Response header chunks true) = false.
Proof. simpl. by destruct (expected_size_of header). Qed.

Lemma transient_not_an_integer chunks complete :
  transient (Response NotAnInteger chunks complete) = false.
Proof. done. Qed.

(** The first response that is not transient decides the call. *)
Lemma first_final_unique (net : nat → response) a b :
  (∀ j, (j < a)%nat → transient (net j) = true) → transient (net a) = false →
  (∀ j, (j < b)%nat → transient (net j) = true) → transient (net b) = false →
  a = b.
Proof.
  intros Ha Fa Hb Fb. destruct (Nat.lt_trichotomy a b) as [Hlt|[Heq|Hgt]]; [|done|].
  - rewrite (Hb a Hlt) in Fa. discriminate.
  - rewrite (Ha b Hgt) in Fb. discriminate.
Qed.

(** X20.  The outcome of [download_with_retry] is decided by the first
    response that is not transient (a response is transient when the
    request failed or the body broke off): the call returns [None] if
    and only if the [max_retries] responses are all transient; it returns
    a size if and only if the first other response is complete, the size
    being its [Content-Length] (0 without the header), and the file then
    holds exactly the chunks of that response; it raises if and only if
    the first other response carries a [Content-Length] that is not an
    integer, and the error is then the [ValueError]. *)
Theorem download_with_retry_outcome url max_retries w :
  let out := download_with_retry requests_get url max_retries w in
  let response_to j := requests_get url (requests w + j) in
  (fst out = Returned None ↔
   ∀ j, (j < max_retries)%nat → transient (response_to j) = true) ∧
  (∀ size,
     fst out = Returned (Some size) ↔
     ∃ a header chunks,
       (a < max_retries)%nat ∧ (∀ j, (j < a)%nat → transient (response_to j) = true) ∧
       response_to a = Response header chunks true ∧
       expected_size_of header = Some size ∧
       file (snd out) = Some (concat chunks) ∧
       requests (snd out) = (requests w + S a)%nat) ∧
  (∀ e,
     fst out = Raised e ↔
     e = InvalidContentLength ∧
     ∃ a chunks complete,
       (a < max_retries)%nat ∧ (∀ j, (j < a)%nat → transient (response_to j) = true) ∧
       response_to a = Response NotAnInteger chunks complete).
Proof.
  cbv zeta. destruct (download_with_retry requests_get url max_retries w) as [res w'] eqn:H.
  apply download_with_retry_inv in H as (sent & Hle & Hreq & Htr & Hsl & Hres). cbn [fst snd].
  pose (net := λ j, requests_get url (requests w + j)%nat).
  assert (∀ a, (∀ j, (j < a)%nat → transient (requests_get url (requests w + j)) = true) →
               transient (requests_get url (requests w + a)) = false →
               transient (requests_get url (requests w + (sent - 1))) = false →
               a = (sent - 1)%nat) as Huniq.
  { intros a Ha Fa Fs. by apply (first_final_unique net). }
  destruct res as [[size|]|e].
  - destruct Hres as (header & chunks & Hpos & Hget & Hexp & Hfile).
    assert (transient (requests_get url (requests w + (sent - 1))) = false) as Hfin.
    { rewrite Hget. apply transient_complete. }
    split; [|split].
    + split; [discriminate|]. intros Hall. rewrite Hall in Hfin by lia. discriminate.
    + intros size'. split.
      * intros Hs. injection Hs as <-. exists (sent - 1)%nat, header, chunks.
        repeat split; try done; lia.
      * intros (a & h & c & Ha & Hprior & Hresp & Hexp' & _).
        assert (a = (sent - 1)%nat) as ->.
        { apply Huniq; try done. rewrite Hresp. apply transient_complete. }
        rewrite Hget in Hresp. injection Hresp as <- <-. congruence.
    + intros e. split; [discriminate|].
      intros (-> & a & c & b & Ha & Hprior & Hresp).
      assert (a = (sent - 1)%nat) as ->.
      { apply Huniq; try done. by rewrite Hresp. }
      rewrite Hget in Hresp. injection Hresp as -> _ _. discriminate.
  - destruct Hres as [-> Hall]. split; [|split].
    + done.
    + intros size. split; [discriminate|].
      intros (a & h & c & Ha & _ & Hresp & _).
      specialize (Hall a Ha). rewrite Hresp, transient_complete in Hall.
      discriminate.
    + intros e. split; [discriminate|].
      intros (-> & a & c & b & Ha & _ & Hresp).
      specialize (Hall a Ha). rewrite Hresp in Hall. discriminate.
  - destruct Hres as (-> & chunks & complete & Hpos & Hget).
    assert (transient (requests_get url (requests w + (sent - 1))) = false) as Hfin.
    { by rewrite Hget. }
    split; [|split].
    + split; [discriminate|]. intros Hall. rewrite Hall in Hfin by lia. discriminate.
    + intros size. split; [discriminate|].
      intros (a & h & c & Ha & Hprior & Hresp & Hexp & _).
      assert (a = (sent - 1)%nat) as ->.
      { apply Huniq; try done. rewrite Hresp. apply transient_complete. }
      rewrite Hget in Hresp. injection Hresp as <- _ _. discriminate.
    + intros e. split.
      * intros He. injection He as <-. split; [done|].
        exists (sent - 1)%nat, chunks, complete. repeat split; try done; lia.
      * intros [-> _]. done.
Qed.

(** The loop of [download_dataset]. *)
Lemma try_urls_inv urls w res w' :
  try_urls requests_get urls w = (res, w') →
  (requests w ≤ requests w' ≤ requests w + 3 * length urls)%nat ∧
  match res with
  | Returned _ =>
      ∃ url i header chunks size,
        url ∈ urls ∧ (requests w ≤ i)%nat ∧ requests w' = S i ∧
        requests_get url i = Response header chunks true ∧
        expected_size_of header = Some size ∧
        file w' = Some (concat chunks) ∧
        verify_file_integrity (Some (concat chunks)) (Some size) = true
  | Raised InvalidContentLength =>
      ∃ url i chunks complete,
        url ∈ urls ∧ (requests w ≤ i)%nat ∧ requests w' = S i ∧
        requests_get url i = Response NotAnInteger chunks complete
  | Raised AllDownloadsFailed => True
  end.
Proof.
  revert w. induction urls as [|url urls IH]; intros w; simpl.
  - intros H. injection H as <- <-. split; [lia|done].
  - destruct (download_with_retry requests_get url 3 w) as [r w1] eqn:Hd.
    apply download_with_retry_inv in Hd as (sent & Hle & Hreq & _ & _ & Hres).
    assert (∀ w2, requests w2 = requests w1 →
              try_urls requests_get urls w2 = (res, w') →
              (requests w ≤ requests w' ≤ requests w + 3 * S (length urls))%nat ∧
              match res with
              | Returned _ =>
                  ∃ url' i header chunks size,
                    url' ∈ url :: urls ∧ (requests w ≤ i)%nat ∧ requests w' = S i ∧
                    requests_get url' i = Response header chunks true ∧
                    expected_size_of header = Some size ∧
                    file w' = Some (concat chunks) ∧
                    verify_file_integrity (Some (concat chunks)) (Some size) = true
              | Raised InvalidContentLength =>
                  ∃ url' i chunks complete,
                    url' ∈ url :: urls ∧ (requests w ≤ i)%nat ∧ requests w' = S i ∧
                    requests_get url' i = Response NotAnInteger chunks complete
              | Raised AllDownloadsFailed => True
              end) as Hnext.
    { intros w2 Hw2 H. apply IH in H as [Hb Hr]. rewrite Hw2, Hreq in Hb.
      split; [lia|]. rewrite Hw2, Hreq in Hr. destruct res as [[]|[]].
      - destruct Hr as (u & i & h & c & s & Hu & Hi & Hr).
        exists u, i, h, c, s. split; [by right|]. split; [lia|done].
      - destruct Hr as (u & i & c & b & Hu & Hi & Hr).
        exists u, i, c, b. split; [by right|]. split; [lia|done].
      - done. }
    destruct r as [[size|]|e].
    + destruct Hres as (header & chunks & Hpos & Hget & Hexp & Hfile).
      destruct (verify_file_integrity (file w1) (Some size)) eqn:Hv.
      * intros H. injection H as <- <-. split; [lia|].
        exists url, (requests w + (sent - 1))%nat, header, chunks, size.
        rewrite Hfile in Hv. repeat split; try done; try lia. by left.
      * by apply Hnext.
    + by apply Hnext.
    + intros H. injection H as <- <-. split; [lia|].
      destruct Hres as (-> & chunks & complete & Hpos & Hget).
      exists url, (requests w + (sent - 1))%nat, chunks, complete.
      repeat split; try done; try lia. by left.
Qed.

Lemma download_with_retry_unreachable url w :
  (∀ i, transient (requests_get url i) = true) →
  ∃ w', download_with_retry requests_get url 3 w = (Returned None, w') ∧
        requests w' = (requests w + 3)%nat ∧ slept w' = slept w ++ [5; 10]%nat.
Proof.
  intros Hall. destruct (download_with_retry requests_get url 3 w) as [res w'] eqn:H.
  exists w'. apply download_with_retry_inv in H as (sent & Hle & Hreq & _ & Hsl & Hres).
  destruct res as [[size|]|e].
  - destruct Hres as (header & chunks & _ & Hget & _).
    specialize (Hall (requests w + (sent - 1))%nat).
    rewrite Hget, transient_complete in Hall. discriminate.
  - destruct Hres as [-> _]. done.
  - destruct Hres as (_ & chunks & complete & _ & Hget).
    specialize (Hall (requests w + (sent - 1))%nat). rewrite Hget in Hall. discriminate.
Qed.

(** X21.  When the loop of [download_dataset] returns, the file holds
    the complete body of a response to one of its requests, and that
    body has the size the response declared when it declared a positive
    one; it is empty only when the declared size is 0 or absent.  For
    [n] URLs at most [3 n] requests were sent. *)
Theorem download_returns_verified_file urls w w' :
  try_urls requests_get urls w = (Returned tt, w') →
  ∃ url i header chunks size,
    url ∈ urls ∧ (requests w ≤ i < requests w + 3 * length urls)%nat ∧
    requests w' = S i ∧
    requests_get url i = Response header chunks true ∧
    expected_size_of header = Some size ∧
    file w' = Some (concat chunks) ∧
    ((0 < size)%Z → Z.of_nat (length (concat chunks)) = size) ∧
    (concat chunks = [] → size = 0%Z).
Proof.
  intros H. apply try_urls_inv in H as [Hb (url & i & header & chunks & size & Hu & Hi & Hw & Hget & Hexp & Hfile & Hv)].
  exists url, i, header, chunks, size.
  apply verify_file_integrity_iff in Hv as (content & Hc & Hsize & Hempty).
  injection Hc as <-.
  repeat split; try done; try lia.
  - intros Hpos. by apply Hsize.
  - intros Hnil. specialize (Hempty Hnil). by injection Hempty.
Qed.

(** X22.  On a network where every request fails or breaks off, the
    loop of [download_dataset] raises ["All download attempts failed"]
    after exactly three requests per URL, having waited 5 and 10 seconds
    for each of them. *)
Theorem download_gives_up urls w :
  (∀ url i, url ∈ urls → transient (requests_get url i) = true) →
  ∃ w', try_urls requests_get urls w = (Raised AllDownloadsFailed, w') ∧
        requests w' = (requests w + 3 * length urls)%nat ∧
        slept w' = slept w ++ concat (replicate (length urls) [5; 10]%nat).
Proof.
  revert w. induction urls as [|url urls IH]; intros w Hall; simpl.
  - exists w. split; [done|]. split; [lia|]. by rewrite app_nil_r.
  - destruct (download_with_retry_unreachable url w) as (w1 & -> & Hreq & Hsl).
    { intros i. apply Hall. by left. }
    destruct (IH w1) as (w' & -> & Hreq' & Hsl').
    { intros u i Hu. apply Hall. by right. }
    exists w'. split; [done|]. split; [lia|].
    rewrite Hsl', Hsl, <- app_assoc. done.
Qed.

End Download.

(** * The further properties at concrete inputs *)

(** ** Cleaning, on the sale without customer and description *)

Lemma clean_data_normalises_cells_witness :
  ∃ r, r ∈ rows anonymous_sale ∧
    fst (7%nat, [VStr "536370"; VStr "22728"; VStr "UNKNOWN"; VInt 3; VDate 1764599160;
                 VFloat (125 # 100); VStr "GUEST"; VStr "France"; VFloat (375 # 100)])
    = fst r ∧
    (∀ i, select "customer_id" (std_columns (columns anonymous_sale)) = OneColumn i →
          at_pos i (7%nat, [VStr "536370"; VStr "22728"; VStr "UNKNOWN"; VInt 3;
                            VDate 1764599160; VFloat (125 # 100); VStr "GUEST";
                            VStr "France"; VFloat (375 # 100)])
          = match at_pos i r with
            | VNull => VStr "GUEST"
            | VStr s => VStr s
            | v => VStr (example_str v)
            end) ∧
    (∀ i, select "description" (std_columns (columns anonymous_sale)) = OneColumn i →
          at_pos i (7%nat, [VStr "536370"; VStr "22728"; VStr "UNKNOWN"; VInt 3;
                            VDate 1764599160; VFloat (125 # 100); VStr "GUEST";
                            VStr "France"; VFloat (375 # 100)])
          = match at_pos i r with
            | VNull => VStr "UNKNOWN"
            | v => v
            end) ∧
    (∀ i, select "invoice_date" (std_columns (columns anonymous_sale)) = OneColumn i →
          to_datetime example_parse (at_pos i r)
          = Ok (at_pos i (7%nat, [VStr "536370"; VStr "22728"; VStr "UNKNOWN"; VInt 3;
                                  VDate 1764599160; VFloat (125 # 100); VStr "GUEST";
                                  VStr "France"; VFloat (375 # 100)])) ∧
          timestamp_or_missing
            (at_pos i (7%nat, [VStr "536370"; VStr "22728"; VStr "UNKNOWN"; VInt 3;
                               VDate 1764599160; VFloat (125 # 100); VStr "GUEST";
                               VStr "France"; VFloat (375 # 100)])) = true).
Proof.
  apply (clean_data_normalises_cells example_str example_parse
           anonymous_sale anonymous_sale_cleaned anonymous_sale_report
           anonymous_sale_is_cleaned).
  apply list_elem_of_singleton. reflexivity.
Defined.

Lemma clean_data_keeps_other_columns_witness :
  (rows anonymous_sale = [] → anonymous_sale_cleaned = anonymous_sale) ∧
  (rows anonymous_sale ≠ [] →
   columns anonymous_sale_cleaned
   = columns_with "total_amount" (std_columns (columns anonymous_sale))) ∧
  (∀ r', r' ∈ rows anonymous_sale_cleaned →
     ∃ r, r ∈ rows anonymous_sale ∧ fst r' = fst r ∧
       ∀ j c, std_columns (columns anonymous_sale) !! j = Some c →
              c ∉ ["customer_id"; "description"; "invoice_date"; "total_amount"] →
              at_pos j r' = at_pos j r).
Proof.
  apply (clean_data_keeps_other_columns example_str example_parse
           anonymous_sale anonymous_sale_cleaned anonymous_sale_report).
  vm_compute. reflexivity.
Defined.

Lemma clean_data_total_amount_witness :
  (rows sample_data ≠ [] → "total_amount" ∈ columns cleaned_sample) ∧
  (∀ r' j, r' ∈ rows cleaned_sample → columns cleaned_sample !! j = Some "total_amount" →
     ∃ q p, cell (columns cleaned_sample) "quantity" r' = Some q ∧
            cell (columns cleaned_sample) "price" r' = Some p ∧
            numeric_or_missing (at_pos j r') = true ∧
            (isna (at_pos j r') = true ↔ isna q = true ∨ isna p = true) ∧
            (∀ a b, q = VInt a → p = VInt b → (Z.abs (a * b) < 2 ^ 53)%Z →
                    at_pos j r' = VInt (a * b))).
Proof.
  apply (clean_data_total_amount example_str example_parse
           sample_data cleaned_sample sample_report).
  vm_compute. reflexivity.
Defined.

Lemma clean_data_keeps_order_witness :
  map fst (rows cleaned_sample) `sublist_of` map fst (rows sample_data) ∧
  (len cleaned_sample ≤ len sample_data)%nat.
Proof.
  apply (clean_data_keeps_order example_str example_parse
           sample_data cleaned_sample sample_report).
  vm_compute. reflexivity.
Defined.

Lemma clean_data_keeps_exactly_valid_rows_witness :
  map fst (rows cleaned_sample)
  = map fst (filter (λ r, valid_row example_str 0 3 5 r = true) (rows sample_data)) ∧
  (∀ r, r ∈ rows sample_data →
        is_test_transaction example_str (at_pos 0 r) = false →
        positive_or_missing (at_pos 3 r) →
        positive_or_missing (at_pos 5 r) →
        fst r ∈ map fst (rows cleaned_sample)).
Proof.
  apply (clean_data_keeps_exactly_valid_rows example_str example_parse
           sample_data cleaned_sample sample_report).
  - vm_compute. reflexivity.
  - reflexivity.
  - reflexivity.
  - reflexivity.
Defined.

Lemma clean_data_log_witness :
  transformations sample_report
  = (if bool_decide (renamed_cols (map normalize_label (columns sample_data)) ∅ = ∅)
     then []
     else [RenamedColumns (renamed_cols (map normalize_label (columns sample_data)) ∅)]) ++
    match missing_values sample_report !! "customer_id" with
    | Some n => [FilledMissing n "customer_id"]
    | None => []
    end ++
    match missing_values sample_report !! "description" with
    | Some n => [FilledMissing n "description"]
    | None => []
    end ++
    [ConvertedInvoiceDate; ConvertedCustomerId] ++
    match invalid_values sample_report !! "test_transactions" with
    | Some _ => [RemovedTestTransactions]
    | None => []
    end ++
    match invalid_values sample_report !! "quantity" with
    | Some _ => [RemovedInvalid "quantity"]
    | None => []
    end ++
    match invalid_values sample_report !! "price" with
    | Some _ => [RemovedInvalid "price"]
    | None => []
    end ++
    [CalculatedTotalAmount].
Proof.
  apply (clean_data_log example_str example_parse sample_data cleaned_sample sample_report).
  - discriminate.
  - vm_compute. reflexivity.
Defined.

Lemma clean_data_succeeds_witness :
  ∃ out m, clean_data example_str example_parse anonymous_sale = Ok (out, m).
Proof.
  apply (clean_data_succeeds example_str example_parse anonymous_sale
           6%nat 0%nat 4%nat 3%nat 5%nat).
  - reflexivity.
  - reflexivity.
  - reflexivity.
  - reflexivity.
  - reflexivity.
  - vm_compute. apply list_elem_of_further, list_elem_of_here.
  - intros ps. vm_compute. discriminate.
  - intros r Hr. apply list_elem_of_singleton in Hr. rewrite Hr.
    split; [reflexivity|]. split; reflexivity.
Defined.

Lemma clean_data_idempotent_witness :
  ∃ out' m',
    clean_data example_str example_parse anonymous_sale_cleaned = Ok (out', m') ∧
    columns out' = columns anonymous_sale_cleaned ∧
    map fst (rows out') = map fst (rows anonymous_sale_cleaned) ∧
    (∀ r', r' ∈ rows out' →
       ∃ r, r ∈ rows anonymous_sale_cleaned ∧ fst r' = fst r ∧
            ∀ j c, columns anonymous_sale_cleaned !! j = Some c →
                   at_pos j r' = at_pos j r) ∧
    cleaned_rows m' = original_rows m' ∧
    missing_values m' = ∅ ∧ invalid_values m' = ∅.
Proof.
  apply (clean_data_idempotent example_str example_parse
           anonymous_sale anonymous_sale_cleaned anonymous_sale_report).
  vm_compute. reflexivity.
Defined.

Lemma clean_data_rejected_rows_witness :
  rejected_rows sample_report = 0%nat ∧ rejection_rate sample_report = 0%Q.
Proof.
  apply (clean_data_rejected_rows example_str example_parse
           sample_data cleaned_sample sample_report).
  vm_compute. reflexivity.
Defined.

(** ** Loading, on the frame and the store of the test suite *)

Lemma load_data_keeps_history_witness :
  committed after_incremental_load = session after_incremental_load ∧
  (∃ added,
     transactions (committed after_incremental_load)
     = transactions (session (get_connection stored)) ++ added ∧
     (length added ≤ len canonical_batch)%nat) ∧
  (∀ wm, max_invoice_date (session (get_connection stored)) = Some wm →
         ∃ wm', max_invoice_date (committed after_incremental_load) = Some wm' ∧
                (wm ≤ wm')%Z) ∧
  (∀ key old, customers (session (get_connection stored)) !! key = Some old →
     ∃ c, customers (committed after_incremental_load) !! key = Some c ∧
          first_purchase_date c = first_purchase_date old ∧
          c_schema_version c = c_schema_version old ∧
          (total_transactions old ≤ total_transactions c)%nat) ∧
  (∀ key old, products (session (get_connection stored)) !! key = Some old →
     ∃ p, products (committed after_incremental_load) !! key = Some p ∧
          p_schema_version p = p_schema_version old).
Proof.
  apply (load_data_keeps_history example_str example_parse
           (get_connection stored) canonical_batch false after_incremental_load).
  vm_compute. reflexivity.
Defined.

Lemma load_data_loads_every_row_witness :
  ∃ conn' added,
    transaction_rows example_str canonical_batch = Ok added ∧
    length added = len canonical_batch ∧
    transactions (committed conn') = transactions (session (get_connection stored)) ++ added ∧
    (true = true →
     ∃ nc np, executed conn' =
              executed (get_connection stored)
              ++ [UpsertCustomers nc; UpsertProducts np;
                  InsertTransactions (len canonical_batch); Commit]).
Proof.
  eexists.
  eapply (load_data_loads_every_row example_str example_parse
            (get_connection stored) canonical_batch true).
  - reflexivity.
  - left. reflexivity.
  - vm_compute. reflexivity.
Defined.

Lemma incremental_reload_adds_nothing_witness :
  ∃ conn2,
    load_data example_str example_parse after_incremental_load canonical_batch false
    = Ok conn2 ∧
    committed conn2 = committed after_incremental_load.
Proof.
  apply (incremental_reload_adds_nothing example_str example_parse
           (get_connection stored) canonical_batch false after_incremental_load).
  - vm_compute. reflexivity.
  - right. vm_compute. discriminate.
  - intros w i r d _ _ _ _. lia.
Defined.

Lemma load_data_watermark_covers_frame_witness :
  ∃ w, max_invoice_date (committed after_incremental_load) = Some w ∧
       (1735689600 < w + 1)%Z.
Proof.
  apply (load_data_watermark_covers_frame example_str example_parse
           (get_connection stored) canonical_batch false after_incremental_load 3
           (0%nat, [VStr "12345"; VStr "INV001"; VStr "PROD01"; VDate 1735689600;
                    VInt 2; VFloat 10; VStr "US"; VStr "Product 1"; VFloat 20])).
  - vm_compute. reflexivity.
  - reflexivity.
  - left.
  - reflexivity.
Defined.

Lemma load_data_touches_only_loaded_keys_witness :
  (∀ key,
     (∀ r, r ∈ selected_rows false (max_invoice_date (session (get_connection stored)))
                 3 (rows canonical_batch) →
           sql_text example_str (at_pos 0 r) ≠ Some key) →
     customers (committed after_incremental_load) !! key
     = customers (session (get_connection stored)) !! key) ∧
  (∀ key,
     (∀ r, r ∈ selected_rows false (max_invoice_date (session (get_connection stored)))
                 3 (rows canonical_batch) →
           sql_text example_str (at_pos 2 r) ≠ Some key) →
     products (committed after_incremental_load) !! key
     = products (session (get_connection stored)) !! key).
Proof.
  apply (load_data_touches_only_loaded_keys example_str example_parse
           (get_connection stored) canonical_batch false after_incremental_load
           3%nat 0%nat 2%nat).
  - reflexivity.
  - vm_compute. reflexivity.
  - reflexivity.
  - reflexivity.
  - reflexivity.
Defined.

Lemma full_refresh_reload_witness :
  ∃ conn1 conn2 added,
    load_data example_str example_parse conn1 canonical_batch true = Ok conn2 ∧
    length added = len canonical_batch ∧
    transactions (committed conn1) = transactions (session (get_connection stored)) ++ added ∧
    transactions (committed conn2) = transactions (committed conn1) ++ added ∧
    products (committed conn2) = products (committed conn1).
Proof.
  eexists.
  eapply (full_refresh_reload example_str example_parse
            (get_connection stored) canonical_batch).
  - reflexivity.
  - vm_compute. reflexivity.
Defined.

Lemma load_data_customer_aggregate_witness :
  ∃ amounts,
    mapM (λ r, as_number (at_pos 8 r))
         (group 0 (VStr "12346")
            (selected_rows false (max_invoice_date (session (get_connection stored)))
               3 (rows canonical_batch))) = Ok amounts ∧
    customers (committed after_incremental_load) !! "12346" =
      merge_customer (customers (session (get_connection stored)) !! "12346")
        {| c_country :=
             sql_text example_str
               (first_notna
                  (map (at_pos 6)
                     (group 0 (VStr "12346")
                        (selected_rows false
                           (max_invoice_date (session (get_connection stored)))
                           3 (rows canonical_batch)))));
           first_purchase_date :=
             foldr min_option None
               (map (λ r, timestamp_of (at_pos 3 r))
                  (group 0 (VStr "12346")
                     (selected_rows false
                        (max_invoice_date (session (get_connection stored)))
                        3 (rows canonical_batch))));
           last_purchase_date :=
             foldr max_option None
               (map (λ r, timestamp_of (at_pos 3 r))
                  (group 0 (VStr "12346")
                     (selected_rows false
                        (max_invoice_date (session (get_connection stored)))
                        3 (rows canonical_batch))));
           total_spent := sum_numbers amounts;
           total_transactions :=
             length (distinct []
                       (map (at_pos 1)
                          (group 0 (VStr "12346")
                             (selected_rows false
                                (max_invoice_date (session (get_connection stored)))
                                3 (rows canonical_batch)))));
           c_schema_version := SCHEMA_VERSION |}.
Proof.
  apply (load_data_customer_aggregate example_str example_parse
           (get_connection stored) canonical_batch false after_incremental_load
           0%nat 6%nat 3%nat 8%nat 1%nat "12346").
  - reflexivity.
  - vm_compute. reflexivity.
  - reflexivity.
  - reflexivity.
  - reflexivity.
  - reflexivity.
  - reflexivity.
  - intros r Hr.
    apply elem_of_cons in Hr as [Hr|Hr]; [rewrite Hr; reflexivity|].
    apply list_elem_of_singleton in Hr. rewrite Hr. reflexivity.
  - vm_compute. discriminate.
Defined.

Lemma load_data_product_row_witness :
  products (committed after_incremental_load) !! "PROD02" =
    merge_product (products (session (get_connection stored)) !! "PROD02")
      {| p_description :=
           sql_text example_str
             (first_notna
                (map (at_pos 7)
                   (group 2 (VStr "PROD02")
                      (selected_rows false
                         (max_invoice_date (session (get_connection stored)))
                         3 (rows canonical_batch)))));
         category :=
           extract_category
             (first_notna
                (map (at_pos 7)
                   (group 2 (VStr "PROD02")
                      (selected_rows false
                         (max_invoice_date (session (get_connection stored)))
                         3 (rows canonical_batch)))));
         p_schema_version := SCHEMA_VERSION |} ∧
  extract_category
    (first_notna
       (map (at_pos 7)
          (group 2 (VStr "PROD02")
             (selected_rows false (max_invoice_date (session (get_connection stored)))
                3 (rows canonical_batch))))) ≠ EmptyString ∧
  capitals
    (extract_category
       (first_notna
          (map (at_pos 7)
             (group 2 (VStr "PROD02")
                (selected_rows false (max_invoice_date (session (get_connection stored)))
                   3 (rows canonical_batch)))))) = true ∧
  (isna
     (first_notna
        (map (at_pos 7)
           (group 2 (VStr "PROD02")
              (selected_rows false (max_invoice_date (session (get_connection stored)))
                 3 (rows canonical_batch))))) = true →
   extract_category
     (first_notna
        (map (at_pos 7)
           (group 2 (VStr "PROD02")
              (selected_rows false (max_invoice_date (session (get_connection stored)))
                 3 (rows canonical_batch))))) = "OTHER").
Proof.
  apply (load_data_product_row example_str example_parse
           (get_connection stored) canonical_batch false after_incremental_load
           2%nat 7%nat 3%nat "PROD02").
  - reflexivity.
  - vm_compute. reflexivity.
  - reflexivity.
  - reflexivity.
  - reflexivity.
  - intros r Hr.
    apply elem_of_cons in Hr as [Hr|Hr]; [rewrite Hr; reflexivity|].
    apply list_elem_of_singleton in Hr. rewrite Hr. reflexivity.
  - vm_compute. discriminate.
Defined.

Lemma load_data_references_witness :
  ∃ added,
    transactions (committed after_incremental_load)
    = transactions (session (get_connection stored)) ++ added ∧
    ∀ t, t ∈ added →
      (∀ key, t_customer_id t = Some key →
              is_Some (customers (committed after_incremental_load) !! key)) ∧
      (∀ key, t_stock_code t = Some key →
              is_Some (products (committed after_incremental_load) !! key)).
Proof.
  apply (load_data_references example_str example_parse
           (get_connection stored) canonical_batch false after_incremental_load
           0%nat 2%nat).
  - vm_compute. reflexivity.
  - reflexivity.
  - reflexivity.
  - intros r Hr.
    apply elem_of_cons in Hr as [Hr|Hr]; [rewrite Hr; split; reflexivity|].
    apply list_elem_of_singleton in Hr. rewrite Hr. split; reflexivity.
Defined.

Lemma cleaned_frame_loads_witness :
  ∃ conn',
    load_data example_str example_parse (get_connection stored) anonymous_sale_cleaned false
    = Ok conn'.
Proof.
  apply (cleaned_frame_loads example_str example_parse
           anonymous_sale anonymous_sale_cleaned anonymous_sale_report).
  - vm_compute. reflexivity.
  - reflexivity.
  - intros c Hc.
    apply elem_of_cons in Hc as [Hc|Hc]; [rewrite Hc; eexists; reflexivity|].
    apply elem_of_cons in Hc as [Hc|Hc]; [rewrite Hc; eexists; reflexivity|].
    apply elem_of_cons in Hc as [Hc|Hc]; [rewrite Hc; eexists; reflexivity|].
    apply list_elem_of_singleton in Hc. rewrite Hc. eexists. reflexivity.
  - intros i r Hi Hr. injection Hi as <-.
    apply list_elem_of_singleton in Hr. rewrite Hr. eexists. reflexivity.
Defined.

(** ** Runs *)

Lemma run_pipeline_leaves_database_witness :
  database (run_pipeline example_str example_parse dry_run_args raw_batch stored) = stored.
Proof.
  apply (run_pipeline_leaves_database example_str example_parse dry_run_args raw_batch stored).
  right. left. reflexivity.
Defined.

Lemma run_pipeline_adds_after_watermark_witness :
  ∃ added,
    transactions (database (run_pipeline example_str example_parse
                              full_refresh_args raw_batch stored))
    = transactions stored ++ added ∧
    ∀ t, t ∈ added →
      ∃ d, t_invoice_date t = Some d ∧ (1735775999 ≤ d)%Z ∧
           (full_refresh full_refresh_args = false →
            (d ≤ end_date full_refresh_args)%Z ∧
            ∀ s, start_date full_refresh_args = Some s → (s ≤ d)%Z).
Proof.
  apply (run_pipeline_adds_after_watermark example_str example_parse
           full_refresh_args raw_batch stored 1735775999%Z).
  reflexivity.
Defined.

Lemma run_pipeline_again_witness :
  database (run_pipeline example_str example_parse default_args raw_batch
              (database (run_pipeline example_str example_parse default_args raw_batch
                           stored)))
  = database (run_pipeline example_str example_parse default_args raw_batch stored).
Proof.
  apply (run_pipeline_again example_str example_parse default_args raw_batch stored).
  - vm_compute. discriminate.
  - intros w i r d _ _ _ _. lia.
Defined.

(** ** Downloads *)

Lemma download_returns_verified_file_witness :
  ∃ url i header chunks size,
    url ∈ DATASET_URLS ∧
    (requests fresh_world ≤ i < requests fresh_world + 3 * length DATASET_URLS)%nat ∧
    requests {| file := Some test_content; requests := 3; slept := [5; 10]%nat |} = S i ∧
    flaky_network url i = Response header chunks true ∧
    expected_size_of header = Some size ∧
    file {| file := Some test_content; requests := 3; slept := [5; 10]%nat |}
    = Some (concat chunks) ∧
    ((0 < size)%Z → Z.of_nat (length (concat chunks)) = size) ∧
    (concat chunks = [] → size = 0%Z).
Proof.
  apply (download_returns_verified_file flaky_network DATASET_URLS fresh_world).
  vm_compute. reflexivity.
Defined.

Lemma download_gives_up_witness :
  ∃ w', try_urls unreachable DATASET_URLS fresh_world = (Raised AllDownloadsFailed, w') ∧
        requests w' = (requests fresh_world + 3 * length DATASET_URLS)%nat ∧
        slept w' = slept fresh_world ++ concat (replicate (length DATASET_URLS) [5; 10]%nat).
Proof.
  apply (download_gives_up unreachable DATASET_URLS fresh_world).
  intros url i Hin. reflexivity.
Defined.
